(** * gbdxtools.simpleworkflows: tasks, ports and workflows

    A shallow embedding of [gbdxtools/simpleworkflows.py] and the
    properties of its port system, task serialisation and workflow
    lifecycle.

    Conventions of the embedding.

    - A Python object with dynamic attributes (the [Inputs] and [Outputs]
      collections) is its instance dictionary, a [gmap string slot].  The
      names Python resolves on the class itself (methods, dunder names)
      are not part of the dictionary and no port is assumed to carry such
      a name.
    - A Python [set] of names is a duplicate-free list; the order in which
      Python iterates a set is unspecified, so the statements below speak
      of membership, never of position.
    - Port values are [None], booleans, integers, strings, lists and
      tuples of values and [Port] objects.
    - A number given to the timeout setter is an [int], or a [float] as
      its IEEE 754 value together with its [str()], which the setter only
      pastes into its message.
    - Code that raises is a computation in a state-and-exception monad:
      the state reached when the exception is raised is kept, as the
      mutated Python objects would be.
    - The remote workflow service and the task registry are outside the
      module: a task definition is an argument of the constructor, and a
      call of the service is a node of an interaction tree. *)

From Stdlib Require Import ZArith String Ascii List DecimalString.
From Stdlib Require Import Floats.SpecFloat.
From stdpp Require Import base option gmap strings list fin_maps.

Local Open Scope Z_scope.
Local Open Scope string_scope.

(** ** Python values *)

Module Py.

(** [Port] is a plain attribute holder; [V] is the type of the values its
    attributes range over. *)
Record Port_ (V : Type) : Type := mkPort {
  name : string;
  type : string;
  required : V;
  description : V;
  value : V;
  is_input_port : bool;
  is_multiplex : bool;
  _persist : option V;
  _persist_location : option V
}.

Arguments mkPort {V}.
Arguments name {V}.
Arguments type {V}.
Arguments required {V}.
Arguments description {V}.
Arguments value {V}.
Arguments is_input_port {V}.
Arguments is_multiplex {V}.
Arguments _persist {V}.
Arguments _persist_location {V}.

#[warnings="-register-all"]
Inductive pyval : Type :=
| VNone
| VBool (b : bool)
| VInt (z : Z)
| VStr (s : string)
| VList (l : list pyval)
| VTuple (l : list pyval)
| VPort (p : Port_ pyval).

Abbreviation Port := (Port_ pyval).

(** What an attribute of a port collection holds: the back reference to
    the owning task, the set of port names, or a value. *)
Inductive slot : Type :=
| SOwner
| SNames (l : list string)
| SVal (v : pyval).

(** Exceptions.  [AttributeError None], [TypeError] and [KeyError] are the
    ones the interpreter raises itself, and so is [OverflowError], with
    the message of [int()]; the others carry the message the source
    gives them, or that of [int()] for a [ValueError] it raises. *)
Inductive exn : Type :=
| AttributeError (msg : option string)
| TypeError
| KeyError
| ValueError (msg : string)
| WorkflowError (msg : string)
| NotImplementedError (msg : string)
| OverflowError (msg : string).

Inductive res (A : Type) : Type :=
| Ok (a : A)
| Raise (e : exn).

Arguments Ok {A}.
Arguments Raise {A}.

(** Truth value of a Python value: [bool(v)]. *)
Definition truthy (v : pyval) : bool :=
  match v with
  | VNone => false
  | VBool b => b
  | VInt z => negb (z =? 0)%Z
  | VStr s => negb (String.eqb s "")
  | VList l => match l with [] => false | _ => true end
  | VTuple l => match l with [] => false | _ => true end
  | VPort _ => true
  end.

(** [x == s] for a string [s]: only an equal string compares equal. *)
Definition eq_str (s : string) (v : pyval) : bool :=
  match v with VStr s' => String.eqb s s' | _ => false end.

(** [s in l] for a list [l] of values. *)
Definition str_in (s : string) (l : list pyval) : bool := existsb (eq_str s) l.

(** ** Strings *)

(** [s.startswith(p)]. *)
Definition startswith (s p : string) : bool := String.prefix p s.

Fixpoint replace_go (old new : string) (skip : nat) (s : string) : string :=
  match s with
  | EmptyString => EmptyString
  | String c s' =>
      match skip with
      | S n => replace_go old new n s'
      | O =>
          if String.prefix old s
          then new +:+ replace_go old new (Nat.pred (String.length old)) s'
          else String c (replace_go old new O s')
      end
  end.

Fixpoint interleave (new s : string) : string :=
  match s with
  | EmptyString => new
  | String c s' => new +:+ String c (interleave new s')
  end.

(** [s.replace(old, new)]: every non-overlapping occurrence of [old],
    from the left, is replaced. *)
Definition replace (s old new : string) : string :=
  match old with
  | EmptyString => interleave new s
  | _ => replace_go old new O s
  end.

(** [old in s] for strings. *)
Fixpoint contains (s old : string) : bool :=
  String.prefix old s ||
  match s with
  | EmptyString => false
  | String _ s' => contains s' old
  end.

(** [str(z)] for an integer. *)
Definition str_of_Z (z : Z) : string := NilZero.string_of_int (Z.to_int z).

(** [set(l)] and [s.update([k])]. *)
Fixpoint set_of_list (l : list string) : list string :=
  match l with
  | [] => []
  | x :: l' => x :: List.filter (fun y => negb (String.eqb x y)) (set_of_list l')
  end.

Definition set_mem (k : string) (l : list string) : bool :=
  existsb (String.eqb k) l.

Definition set_add (k : string) (l : list string) : list string :=
  if set_mem k l then l else (l ++ [k])%list.

End Py.
Import Py.

(** ** State and exceptions *)

Module Eff.

(** A computation over a mutable state [S] that returns an [A] or raises.
    The state comes back in both cases. *)
Definition M (S A : Type) : Type := S -> res A * S.

Definition ret {S A} (a : A) : M S A := fun s => (Ok a, s).

Definition raise {S A} (e : exn) : M S A := fun s => (Raise e, s).

Definition bind {S A B} (m : M S A) (f : A -> M S B) : M S B :=
  fun s =>
    match m s with
    | (Ok a, s') => f a s'
    | (Raise e, s') => (Raise e, s')
    end.

Definition get {S} : M S S := fun s => (Ok s, s).

Definition modify {S} (f : S -> S) : M S unit := fun s => (Ok tt, f s).

Definition lift {S A} (r : res A) : M S A := fun s => (r, s).

(** Run a computation on a part of the state. *)
Definition zoom {S T A} (rd : S -> T) (wr : T -> S -> S) (m : M T A) : M S A :=
  fun s => let '(r, t') := m (rd s) in (r, wr t' s).

Declare Scope eff_scope.
Delimit Scope eff_scope with eff.
Bind Scope eff_scope with M.

Notation "'let!' x ':=' c 'in' k" := (bind c (fun x => k))
  (at level 10, x pattern, c at level 100, k at level 200) : eff_scope.

Notation "c '>>' k" := (bind c (fun _ => k))
  (at level 100, k at level 200, right associativity) : eff_scope.

Local Open Scope eff_scope.

(** [for x in l: f x] *)
Fixpoint for_each {S A} (l : list A) (f : A -> M S unit) : M S unit :=
  match l with
  | [] => ret tt
  | x :: l' => f x >> for_each l' f
  end.

(** The same for code that only reads. *)
Definition rbind {A B} (r : res A) (f : A -> res B) : res B :=
  match r with
  | Ok a => f a
  | Raise e => Raise e
  end.

Fixpoint rmap {A B} (f : A -> res B) (l : list A) : res (list B) :=
  match l with
  | [] => Ok []
  | x :: l' => rbind (f x) (fun y => rbind (rmap f l') (fun ys => Ok (y :: ys)))
  end.

(** The elements a comprehension with a condition keeps. *)
Fixpoint somes {A} (l : list (option A)) : list A :=
  match l with
  | [] => []
  | Some a :: l' => a :: somes l'
  | None :: l' => somes l'
  end.

End Eff.
Import Eff.
Local Open Scope eff_scope.

Notation "'try!' x ':=' c 'in' k" := (rbind c (fun x => k))
  (at level 10, x pattern, c at level 100, k at level 200).

(** ** Port collections: [PortList], [Inputs], [Outputs] *)

(** One entry of [inputPortDescriptors] or [outputPortDescriptors]:
    [p['name']], [p['type']], [p.get('required')], [p.get('description')]
    and [p.get('multiplex', False)]. *)
Record descriptor : Type := mkDescriptor {
  d_name : string;
  d_type : string;
  d_required : pyval;
  d_description : pyval;
  d_multiplex : bool
}.

(** One record of [batch_values]: [{"name": ..., "values": ...}]. *)
Record batch_entry : Type := mkBatch {
  b_name : string;
  b_values : list pyval
}.

(** [Task]; [task_name] and [task_type] are its [name] and [type]. *)
Record Task : Type := mkTask {
  task_name : string;
  task_type : string;
  domain : pyval;
  _timeout : pyval;
  inputs : gmap string slot;
  outputs : gmap string slot;
  batch_values : option (list batch_entry);
  _impersonation_allowed : pyval
}.

Definition set_inputs (i : gmap string slot) (t : Task) : Task :=
  mkTask (task_name t) (task_type t) (domain t) (_timeout t) i (outputs t)
         (batch_values t) (_impersonation_allowed t).

Definition set_outputs (o : gmap string slot) (t : Task) : Task :=
  mkTask (task_name t) (task_type t) (domain t) (_timeout t) (inputs t) o
         (batch_values t) (_impersonation_allowed t).

Definition set_batch_values (b : option (list batch_entry)) (t : Task) : Task :=
  mkTask (task_name t) (task_type t) (domain t) (_timeout t) (inputs t)
         (outputs t) b (_impersonation_allowed t).

Definition set_timeout (v : pyval) (t : Task) : Task :=
  mkTask (task_name t) (task_type t) (domain t) v (inputs t) (outputs t)
         (batch_values t) (_impersonation_allowed t).

Definition set_impersonation (v : pyval) (t : Task) : Task :=
  mkTask (task_name t) (task_type t) (domain t) (_timeout t) (inputs t)
         (outputs t) (batch_values t) v.

Definition set_value (v : pyval) (p : Port) : Port :=
  mkPort (name p) (type p) (required p) (description p) v
         (is_input_port p) (is_multiplex p) (_persist p) (_persist_location p).

(** [object.__getattribute__(self, k)] and [hasattr(self, k)] on the
    instance dictionary. *)
Definition object_getattribute (self : gmap string slot) (k : string) : res slot :=
  match self !! k with
  | Some a => Ok a
  | None => Raise (AttributeError None)
  end.

Definition hasattr (self : gmap string slot) (k : string) : bool :=
  match self !! k with Some _ => true | None => false end.

(** [k in c], [for p in c] and [c.update([k])] for what [_portnames]
    holds.  Only a set has [update]; a list, a tuple and a string can
    still be searched and iterated. *)
Definition py_in (k : string) (c : slot) : res bool :=
  match c with
  | SNames l => Ok (set_mem k l)
  | SVal (VList vs) => Ok (str_in k vs)
  | SVal (VTuple vs) => Ok (str_in k vs)
  | SVal (VStr s) => Ok (contains s k)
  | _ => Raise TypeError
  end.

Definition py_iter (c : slot) : res (list pyval) :=
  match c with
  | SNames l => Ok (map VStr l)
  | SVal (VList vs) => Ok vs
  | SVal (VTuple vs) => Ok vs
  | SVal (VStr s) =>
      Ok (map (fun ch => VStr (String ch EmptyString)) (list_ascii_of_string s))
  | _ => Raise TypeError
  end.

Definition py_update (k : string) (c : slot) : res slot :=
  match c with
  | SNames l => Ok (SNames (set_add k l))
  | _ => Raise (AttributeError None)
  end.

(** [a.is_multiplex], [a.value] for an attribute [a] read from a
    collection: only a [Port] has them. *)
Definition as_port (a : slot) : res Port :=
  match a with
  | SVal (VPort p) => Ok p
  | _ => Raise (AttributeError None)
  end.

(** The filter of the comprehension in [get_matching_multiplex_port], for
    one element [p] of [_portnames]. *)
Definition matching_port (self : gmap string slot) (name : string) (p : pyval)
  : res (option Port) :=
  match p with
  | VStr p =>
      if startswith name p && negb (String.eqb name p) && hasattr self p
      then
        try! a := object_getattribute self p in
        try! port := as_port a in
        Ok (if is_multiplex port then Some port else None)
      else Ok None
  | _ => Raise TypeError
  end.

(** [PortList.get_matching_multiplex_port].  [self.__getattribute__(p)]
    is a lookup in the dictionary for both collections: [Inputs] does not
    override it, and [Outputs.__getattribute__] falls to
    [object.__getattribute__] for every [p] taken from [_portnames]. *)
Definition get_matching_multiplex_port (self : gmap string slot) (name : string)
  : res (option Port) :=
  try! names := object_getattribute self "_portnames" in
  try! ps := py_iter names in
  try! matching_multiplex_ports := rmap (matching_port self name) ps in
  Ok (head (somes matching_multiplex_ports)).

Definition batch_input (k : string) : string := "batch_input_" +:+ k.

(** [Inputs.__setattr__(k, v)] for a value [v], on the collection of the
    task [t]; it also appends to [t.batch_values]. *)
Definition Inputs___setattr__ (k : string) (v : pyval) : M Task unit :=
  let object_setattr (k : string) (a : slot) : M Task unit :=
    modify (fun t => set_inputs (<[k := a]> (inputs t)) t) in
  if String.eqb k "task" then object_setattr k (SVal v)
  else if String.eqb k "_portnames" then object_setattr k (SVal v)
  else
    let! t := get in
    let! names := lift (object_getattribute (inputs t) "_portnames") in
    let! declared := lift (py_in k names) in
    if declared && hasattr (inputs t) k then
      match v with
      | VList values =>
          let! a := lift (object_getattribute (inputs t) k) in
          let! port := lift (as_port a) in
          object_setattr k
            (SVal (VPort (set_value (VStr ("{{" +:+ batch_input k +:+ "}}")) port))) >>
          let! t := get in
          let! owner := lift (object_getattribute (inputs t) "task") in
          match owner with
          | SOwner =>
              modify (fun t =>
                match batch_values t with
                | None | Some [] => set_batch_values (Some []) t
                | Some _ => t
                end) >>
              modify (fun t =>
                set_batch_values
                  (option_map (fun l => (l ++ [mkBatch (batch_input k) values])%list)
                              (batch_values t)) t)
          | _ => raise (AttributeError None)
          end
      | _ =>
          let! a := lift (object_getattribute (inputs t) k) in
          let! port := lift (as_port a) in
          object_setattr k (SVal (VPort (set_value v port)))
      end
    else
      let! mp_port := lift (get_matching_multiplex_port (inputs t) k) in
      match mp_port with
      | Some mp_port =>
          let new_multiplex_port :=
            mkPort k (type mp_port) (required mp_port) (description mp_port)
                   v true false None None in
          object_setattr k (SVal (VPort new_multiplex_port)) >>
          let! t := get in
          let! names := lift (object_getattribute (inputs t) "_portnames") in
          let! names := lift (py_update k names) in
          object_setattr "_portnames" names
      | None =>
          if declared then object_setattr k (SVal v)
          else raise (AttributeError
                 (Some ("Task has no input port named " +:+ k +:+ ".")))
      end.

(** [self.task = task] and [self._portnames = set(...)] in
    [PortList.__init__] take the first two branches of
    [Inputs.__setattr__], that is [object.__setattr__]; every port then
    goes through [Inputs.__setattr__] as a value. *)
Definition PortList___init__ (ports : list descriptor) : M Task unit :=
  modify (fun t => set_inputs (<["task" := SOwner]> (inputs t)) t) >>
  modify (fun t =>
    set_inputs (<["_portnames" := SNames (set_of_list (map d_name ports))]>
                  (inputs t)) t) >>
  for_each ports (fun p =>
    Inputs___setattr__ (d_name p)
      (VPort (mkPort (d_name p) (d_type p) (d_required p) (d_description p)
                     VNone true (d_multiplex p) None None))).

(** The operand of ["source:" + self._task_name + ...] has to be a string. *)
Definition as_str (a : slot) : res string :=
  match a with
  | SVal (VStr s) => Ok s
  | _ => Raise TypeError
  end.

Definition object_setattr (k : string) (a : slot) : M (gmap string slot) unit :=
  modify (fun self => <[k := a]> self).

(** [Outputs.__init__]; [Outputs] keeps the default [__setattr__]. *)
Definition Outputs___init__ (ports : list descriptor) (task_name : string)
  : M (gmap string slot) unit :=
  object_setattr "_task_name" (SVal (VStr task_name)) >>
  object_setattr "_portnames" (SNames (set_of_list (map d_name ports))) >>
  for_each ports (fun p =>
    let! self := get in
    let! tn := lift (object_getattribute self "_task_name") in
    let! tn := lift (as_str tn) in
    object_setattr (d_name p)
      (SVal (VPort (mkPort (d_name p) (d_type p) (d_required p) (d_description p)
                           (VStr ("source:" +:+ tn +:+ ":" +:+ d_name p))
                           false (d_multiplex p) None None)))).

(** [Outputs.__getattribute__(k)]: reading a name that a multiplex port
    prefixes creates the port. *)
Definition Outputs___getattribute__ (k : string) : M (gmap string slot) slot :=
  let! self := get in
  if String.eqb k "_portnames" || String.eqb k "_task_name"
     || String.eqb k "get_matching_multiplex_port" || startswith k "__"
  then lift (object_getattribute self k)
  else
    let! names := lift (object_getattribute self "_portnames") in
    let! declared := lift (py_in k names) in
    if declared then lift (object_getattribute self k)
    else
      let! mp_port := lift (get_matching_multiplex_port self k) in
      match mp_port with
      | Some mp_port =>
          let! tn := lift (object_getattribute self "_task_name") in
          let! tn := lift (as_str tn) in
          object_setattr k
            (SVal (VPort (mkPort (name mp_port) (type mp_port) (required mp_port)
                                 (description mp_port)
                                 (VStr ("source:" +:+ tn +:+ ":" +:+ k))
                                 false false None None))) >>
          let! self := get in
          let! names := lift (object_getattribute self "_portnames") in
          let! names := lift (py_update k names) in
          object_setattr "_portnames" names
      | None => ret tt
      end >>
      let! self := get in
      lift (object_getattribute self k).

(** ** Task *)

(** What [TaskRegistry.get_definition] returns for a task type:
    the two descriptor lists, [properties.get('timeout')] and the domain
    of the first container descriptor when there is one. *)
Record definition : Type := mkDefinition {
  inputPortDescriptors : list descriptor;
  outputPortDescriptors : list descriptor;
  container_domain : option pyval;
  properties_timeout : pyval
}.

(** [Task.set], the keyword arguments in the order given.  Of the
    values of the embedding only a [Port] has an attribute [value]. *)
Definition Task_set (kwargs : list (string * pyval)) : M Task unit :=
  for_each kwargs (fun '(port_name, port_value) =>
    let port_value :=
      match port_value with
      | VPort p => value p
      | _ => port_value
      end in
    Inputs___setattr__ port_name port_value).

(** [Task.__init__] with its keyword arguments; [uuid8] is
    [str(uuid.uuid4())[:8]] and [defn] the registry's answer. *)
Definition Task___init__ (task_type uuid8 : string) (defn : definition)
  (kwargs : list (string * pyval)) : res Task :=
  let name := replace (task_type +:+ "_" +:+ uuid8) ":" "_" in
  let self :=
    mkTask name task_type
           (match container_domain defn with Some d => d | None => VStr "default" end)
           (properties_timeout defn) ∅ ∅ None VNone in
  let body : M Task unit :=
    PortList___init__ (inputPortDescriptors defn) >>
    zoom outputs set_outputs
         (Outputs___init__ (outputPortDescriptors defn) name) >>
    modify (set_batch_values None) >>
    modify (set_impersonation VNone) >>
    Task_set kwargs in
  match body self with
  | (Ok _, t) => Ok t
  | (Raise e, _) => Raise e
  end.

(** The properties [impersonation_allowed] and [timeout]. *)
Definition impersonation_allowed (t : Task) : pyval := _impersonation_allowed t.

Definition impersonation_allowed_set (value : pyval) : M Task unit :=
  match value with
  | VBool true => modify (set_impersonation (VBool true))
  | _ => ret tt
  end.

Definition timeout (t : Task) : pyval := _timeout t.

(** The setter, for an integer [value] ([int(value)] is [value]). *)
Definition timeout_set (value : Z) : M Task unit :=
  if (0 <? value)%Z && (value <? 172800)%Z
  then modify (set_timeout (VInt value))
  else raise (ValueError ("timeout of " +:+ str_of_Z value +:+ " is not a valid number")).

(** A number: an [int], or a [float] with its [str()]. *)
Inductive number : Type :=
| NInt (z : Z)
| NFloat (f : spec_float) (repr : string).

(** [int(value)]: a float is truncated towards zero; [nan] and the
    infinities have no integer. *)
Definition int (value : number) : res Z :=
  match value with
  | NInt z => Ok z
  | NFloat (S754_zero _) _ => Ok 0%Z
  | NFloat (S754_finite s m e) _ =>
      let magnitude := Z.shiftl (Z.pos m) e in
      Ok (if s then (- magnitude)%Z else magnitude)
  | NFloat S754_nan _ => Raise (ValueError "cannot convert float NaN to integer")
  | NFloat (S754_infinity _) _ =>
      Raise (OverflowError "cannot convert float infinity to integer")
  end.

(** [str(value)], the ['%s'] of the message. *)
Definition str (value : number) : string :=
  match value with
  | NInt z => str_of_Z z
  | NFloat _ repr => repr
  end.

(** [Task.timeout.setter] for a number. *)
Definition timeout_setter (value : number) : M Task unit :=
  match int value with
  | Ok i =>
      if (0 <? i)%Z && (i <? 172800)%Z
      then modify (set_timeout (VInt i))
      else raise (ValueError ("timeout of " +:+ str value +:+ " is not a valid number"))
  | Raise e => raise e
  end.

(** A number below zero that is not minus infinity. *)
Definition negative (value : number) : bool :=
  match value with
  | NInt z => (z <? 0)%Z
  | NFloat (S754_finite s _ _) _ => s
  | NFloat _ _ => false
  end.

(** [Port.persist] and [Port.persist_location]. *)
Definition persist (p : Port) : pyval :=
  if is_input_port p then VBool false
  else match _persist p with Some v => v | None => VBool false end.

Definition persist_location (p : Port) : pyval :=
  if is_input_port p then VNone
  else match _persist_location p with Some v => v | None => VNone end.

(** [task.outputs.<k>] seen from the task. *)
Definition Task_output (k : string) : M Task slot :=
  zoom outputs set_outputs (Outputs___getattribute__ k).


(** ** Serialisation of a task *)

(** An element of ["inputs"]: [{"name", "source"}] or [{"name", "value"}]. *)
Inductive in_entry : Type :=
| InSource (name : string) (source : string)
| InValue (name : string) (value : pyval).


(** An element of ["outputs"]: [{"name"}], with ["persist": True] and
    ["persistLocation"] when set. *)
Record out_entry : Type := mkOut {
  o_name : string;
  o_persist : bool;
  o_persistLocation : option pyval
}.

Record task_def : Type := mkTaskDef {
  td_name : string;
  td_outputs : list out_entry;
  td_inputs : list in_entry;
  td_taskType : string;
  td_timeout : pyval;
  td_domain : pyval;
  td_impersonation_allowed : option pyval
}.

(** The body of the loop over [self.inputs._portnames].  Of the values a
    port holds only a string has a [str()] that starts with ["source:"]. *)
Definition input_entry (self : gmap string slot) (input_port_name : pyval)
  : res (option in_entry) :=
  match input_port_name with
  | VStr input_port_name =>
      try! a := object_getattribute self input_port_name in
      try! port := as_port a in
      match value port with
      | VNone => Ok None
      | input_port_value =>
          let input_port_value :=
            match input_port_value with
            | VBool false => VStr "false"
            | VBool true => VStr "true"
            | v => v
            end in
          match input_port_value with
          | VStr s =>
              if startswith s "source:"
              then Ok (Some (InSource input_port_name (replace s "source:" "")))
              else Ok (Some (InValue input_port_name input_port_value))
          | _ => Ok (Some (InValue input_port_name input_port_value))
          end
      end
  | _ => Raise TypeError
  end.

(** The body of the loop over [self.outputs._portnames]. *)
Definition output_entry (self : gmap string slot) (exclude : list string)
  (output_port_name : pyval) : res (option out_entry) :=
  match output_port_name with
  | VStr output_port_name =>
      if set_mem output_port_name exclude then Ok None
      else
        try! a := object_getattribute self output_port_name in
        try! port := as_port a in
        Ok (Some (mkOut output_port_name
                        (truthy (persist port))
                        (if truthy (persist_location port)
                         then Some (persist_location port) else None)))
  | _ => Raise (AttributeError None)
  end.

(** [Task.generate_task_workflow_json(output_multiplex_ports_to_exclude)] *)
Definition generate_task_workflow_json (exclude : list string) (t : Task)
  : res task_def :=
  try! names := object_getattribute (inputs t) "_portnames" in
  try! names := py_iter names in
  try! ins := rmap (input_entry (inputs t)) names in
  try! names := object_getattribute (outputs t) "_portnames" in
  try! names := py_iter names in
  try! outs := rmap (output_entry (outputs t) exclude) names in
  Ok (mkTaskDef (task_name t) (somes outs) (somes ins) (task_type t)
                (timeout t) (domain t)
                (if truthy (impersonation_allowed t)
                 then Some (impersonation_allowed t) else None)).

(** ** Workflow *)

(** The workflow description. *)
Record description_doc : Type := mkDoc {
  doc_tasks : list task_def;
  doc_name : string;
  doc_batch_values : option (list batch_entry);
  doc_callback : option pyval
}.

(** [Workflow]; [wf_name], [wf_id], [wf_definition] and
    [wf_batch_values] are its [name], [id], [definition] and
    [batch_values]. *)
Record Workflow : Type := mkWorkflow {
  wf_name : string;
  wf_id : pyval;
  callback : pyval;
  wf_definition : option description_doc;
  tasks : list Task;
  wf_batch_values : option (list batch_entry)
}.

Definition set_definition (d : option description_doc) (w : Workflow) : Workflow :=
  mkWorkflow (wf_name w) (wf_id w) (callback w) d (tasks w) (wf_batch_values w).

Definition set_id (i : pyval) (w : Workflow) : Workflow :=
  mkWorkflow (wf_name w) i (callback w) (wf_definition w) (tasks w)
             (wf_batch_values w).

Definition nonempty {A} (o : option (list A)) : bool :=
  match o with
  | Some (_ :: _) => true
  | _ => false
  end.

(** [Workflow.__init__(tasks, name=..., callback=...)] *)
Definition Workflow___init__ (tasks : list Task) (name : string) (callback : pyval)
  : Workflow :=
  let batch_values :=
    flat_map (fun task =>
      match batch_values task with
      | Some l => l
      | None => []
      end) tasks in
  mkWorkflow name VNone callback None tasks
    (match batch_values with
     | [] => None
     | _ => Some batch_values
     end).

(** The value of one input port, [t.inputs.__getattribute__(n).value]. *)
Definition input_port_value (self : gmap string slot) (input_port_name : pyval)
  : res pyval :=
  match input_port_name with
  | VStr n =>
      try! a := object_getattribute self n in
      try! port := as_port a in
      Ok (value port)
  | _ => Raise TypeError
  end.

Definition task_input_port_values (t : Task) : res (list pyval) :=
  try! names := object_getattribute (inputs t) "_portnames" in
  try! names := py_iter names in
  rmap (input_port_value (inputs t)) names.

(** The filter of [multiplex_output_port_names]. *)
Definition multiplex_output (self : gmap string slot) (portname : pyval)
  : res (option string) :=
  match portname with
  | VStr portname =>
      try! a := object_getattribute self portname in
      try! port := as_port a in
      Ok (if is_multiplex port then Some portname else None)
  | _ => Raise (AttributeError None)
  end.

Definition output_multiplex_ports_to_exclude
  (ntasks : nat) (all_input_port_values : list pyval) (task : Task)
  : res (list string) :=
  if (1 <? ntasks)%nat then
    try! names := object_getattribute (outputs task) "_portnames" in
    try! names := py_iter names in
    try! multiplex_output_port_names := rmap (multiplex_output (outputs task)) names in
    Ok (List.filter (fun p =>
                  negb (str_in ("source:" +:+ task_name task +:+ ":" +:+ p)
                               all_input_port_values))
               (somes multiplex_output_port_names))
  else Ok [].

Definition append_task (d : task_def) (w : Workflow) : Workflow :=
  set_definition
    (option_map (fun doc =>
       mkDoc (doc_tasks doc ++ [d])%list (doc_name doc) (doc_batch_values doc)
             (doc_callback doc)) (wf_definition w)) w.

(** [return self.definition]; the skeleton was stored before, so the
    attribute holds a document at this point. *)
Definition the_definition (w : Workflow) : res description_doc :=
  match wf_definition w with
  | Some d => Ok d
  | None => Raise TypeError
  end.

(** [Workflow.generate_workflow_description] *)
Definition generate_workflow_description : M Workflow description_doc :=
  let! self := get in
  match tasks self with
  | [] => raise (WorkflowError "Workflow contains no tasks, and cannot be executed.")
  | _ =>
      modify (set_definition
                (Some (mkDoc [] (wf_name self)
                             (if nonempty (wf_batch_values self)
                              then wf_batch_values self else None)
                             None))) >>
      let! values := lift (rmap task_input_port_values (tasks self)) in
      let all_input_port_values := concat values in
      for_each (tasks self) (fun task =>
        let! exclude :=
          lift (output_multiplex_ports_to_exclude
                  (length (tasks self)) all_input_port_values task) in
        let! task_def := lift (generate_task_workflow_json exclude task) in
        modify (append_task task_def)) >>
      (if truthy (callback self)
       then modify (fun w =>
              set_definition
                (option_map (fun doc =>
                   mkDoc (doc_tasks doc) (doc_name doc) (doc_batch_values doc)
                         (Some (callback self))) (wf_definition w)) w)
       else ret tt) >>
      let! self := get in
      lift (the_definition self)
  end.

(** ** The remote service and the lifecycle of a workflow *)

Module Remote.

(** A status record: a dictionary that may have the keys ["state"],
    ["event"] and, for a batch workflow, ["workflows"] (the
    [workflow.get("state")] of each sub-workflow). *)
Record status_record : Type := mkStatus {
  st_state : option pyval;
  st_event : option pyval;
  st_workflows : option (list pyval)
}.

(** One element of [wf['tasks']] as [self.workflow.get] returns it. *)
Record remote_task : Type := mkRemoteTask {
  rt_id : pyval;
  rt_taskType : pyval;
  rt_name : pyval
}.

(** One element of [stdout] and [stderr]. *)
Record task_log : Type := mkTaskLog {
  log_id : pyval;
  log_taskType : pyval;
  log_name : pyval;
  log_text : pyval
}.

(** The calls of [gbdxtools.workflow.Workflow] the module makes, with the
    type of their answers. *)
Inductive request : Type -> Type :=
| launch (d : option description_doc) : request pyval
| launch_batch_workflow (d : option description_doc) : request pyval
| workflow_get (id : pyval) : request (list remote_task)
| workflow_status (id : pyval) : request status_record
| batch_workflow_status (id : pyval) : request status_record
| workflow_cancel (id : pyval) : request unit
| batch_workflow_cancel (id : pyval) : request unit
| workflow_events (id : pyval) : request pyval
| get_stdout (id task_id : pyval) : request pyval
| get_stderr (id task_id : pyval) : request pyval.

(** A computation that may call the service: it returns, or it issues a
    request and goes on with the answer, which may be an exception. *)
Inductive itree (A : Type) : Type :=
| Ret (a : A)
| Vis {X : Type} (e : request X) (k : res X -> itree A).

Arguments Ret {A}.
Arguments Vis {A X}.

Fixpoint ibind {A B} (m : itree A) (f : A -> itree B) : itree B :=
  match m with
  | Ret a => f a
  | Vis e k => Vis e (fun x => ibind (k x) f)
  end.

(** The number of requests issued along the answers [answer] gives. *)
Fixpoint requests {A} (answer : forall X, request X -> res X) (m : itree A) : nat :=
  match m with
  | Ret _ => O
  | Vis e k => S (requests answer (k (answer _ e)))
  end.

(** Methods of [Workflow]: state, exceptions and requests. *)
Definition RM (A : Type) : Type := Workflow -> itree (res A * Workflow).

Definition wret {A} (a : A) : RM A := fun w => Ret (Ok a, w).

Definition wraise {A} (e : exn) : RM A := fun w => Ret (Raise e, w).

Definition wbind {A B} (m : RM A) (f : A -> RM B) : RM B :=
  fun w =>
    ibind (m w) (fun '(r, w') =>
      match r with
      | Ok a => f a w'
      | Raise e => Ret (Raise e, w')
      end).

Definition wget : RM Workflow := fun w => Ret (Ok w, w).

Definition wmodify (f : Workflow -> Workflow) : RM unit := fun w => Ret (Ok tt, f w).

Definition call {X} (e : request X) : RM X := fun w => Vis e (fun r => Ret (r, w)).

Definition local {A} (m : M Workflow A) : RM A := fun w => Ret (m w).

Definition wlift {A} (r : res A) : RM A := fun w => Ret (r, w).

Declare Scope rm_scope.
Delimit Scope rm_scope with rm.
Bind Scope rm_scope with RM.

Notation "'let!' x ':=' c 'in' k" := (wbind c (fun x => k))
  (at level 10, x pattern, c at level 100, k at level 200) : rm_scope.

Notation "c '>>' k" := (wbind c (fun _ => k))
  (at level 100, k at level 200, right associativity) : rm_scope.

Local Open Scope rm_scope.

Fixpoint wmap {A B} (f : A -> RM B) (l : list A) : RM (list B) :=
  match l with
  | [] => wret []
  | x :: l' =>
      let! y := f x in
      let! ys := wmap f l' in
      wret (y :: ys)
  end.

(** [d[key]] on a record read as a dictionary. *)
Definition item {A} (o : option A) : RM A :=
  match o with
  | Some a => wret a
  | None => wraise KeyError
  end.

Definition unset (w : Workflow) : bool := negb (truthy (wf_id w)).

Definition batch (w : Workflow) : bool := nonempty (wf_batch_values w).

(** [Workflow.execute] *)
Definition execute : RM pyval :=
  local generate_workflow_description >>
  let! self := wget in
  let! id :=
    if batch self then call (launch_batch_workflow (wf_definition self))
    else call (launch (wf_definition self)) in
  wmodify (set_id id) >>
  wret id.

(** [Workflow.task_ids] *)
Definition task_ids : RM (list pyval) :=
  let! self := wget in
  if unset self then wraise (WorkflowError "Workflow is not running.  Cannot get task IDs.")
  else if batch self then
    wraise (NotImplementedError
              "Query Each Workflow Id within the Batch Workflow for task IDs.")
  else
    let! wf := call (workflow_get (wf_id self)) in
    wret (map rt_id wf).

(** [Workflow.cancel] *)
Definition cancel : RM unit :=
  let! self := wget in
  if unset self then wraise (WorkflowError "Workflow is not running.  Cannot cancel.")
  else if batch self then call (batch_workflow_cancel (wf_id self))
  else call (workflow_cancel (wf_id self)).

(** [Workflow.status] *)
Definition status : RM status_record :=
  let! self := wget in
  if unset self then wraise (WorkflowError "Workflow is not running.  Cannot check status.")
  else if batch self then call (batch_workflow_status (wf_id self))
  else call (workflow_status (wf_id self)).

(** [Workflow.events] *)
Definition events : RM pyval :=
  let! self := wget in
  if unset self then wraise (WorkflowError "Workflow is not running.  Cannot check status.")
  else if batch self then
    wraise (NotImplementedError
              "Query Each Workflow Id within the Batch Workflow for Events")
  else call (workflow_events (wf_id self)).

Definition finished (state : pyval) : bool :=
  eq_str "succeeded" state || eq_str "failed" state || eq_str "timedout" state.

Definition pending_or_running (state : pyval) : bool :=
  eq_str "pending" state || eq_str "running" state.

Definition current_state : string :=
  "Query Each Workflow Id within the Batch Workflow for Current State".

(** [Workflow.complete] *)
Definition complete : RM bool :=
  let! self := wget in
  if unset self then wret false
  else if batch self then
    let! st := status in
    let! workflows := item (st_workflows st) in
    wret (forallb finished workflows)
  else
    let! st := status in
    let! state := item (st_state st) in
    wret (eq_str "complete" state).

(** The predicates of the shape
    [status['state'] == s and status['event'] == e]. *)
Definition state_and_event (s e : string) : RM bool :=
  let! st := status in
  let! state := item (st_state st) in
  if eq_str s state then
    let! event := item (st_event st) in
    wret (eq_str e event)
  else wret false.

(** The predicates of the shape
    [status['event'] == e and status['state'] in ['pending', 'running']]. *)
Definition event_while_pending (e : string) : RM bool :=
  let! st := status in
  let! event := item (st_event st) in
  if eq_str e event then
    let! state := item (st_state st) in
    wret (pending_or_running state)
  else wret false.

(** [Workflow.failed] *)
Definition failed : RM bool :=
  let! self := wget in
  if unset self then wret false
  else if batch self then wraise (NotImplementedError current_state)
  else state_and_event "complete" "failed".

(** [Workflow.canceled] *)
Definition canceled : RM bool :=
  let! self := wget in
  if unset self then wret false
  else if batch self then wraise (NotImplementedError current_state)
  else state_and_event "complete" "canceled".

(** [Workflow.succeeded] *)
Definition succeeded : RM bool :=
  let! self := wget in
  if unset self then wret false
  else if batch self then
    let! st := status in
    let! workflows := item (st_workflows st) in
    wret (forallb (eq_str "succeeded") workflows)
  else state_and_event "complete" "succeeded".

(** [Workflow.running] *)
Definition running : RM bool :=
  let! self := wget in
  if unset self then wret false
  else if batch self then
    let! st := status in
    let! workflows := item (st_workflows st) in
    wret (existsb (fun state => negb (finished state)) workflows)
  else state_and_event "running" "started".

(** [Workflow.timedout] *)
Definition timedout : RM bool :=
  let! self := wget in
  if unset self then wret false
  else if batch self then wraise (NotImplementedError current_state)
  else state_and_event "complete" "timedout".

(** [Workflow.scheduling] *)
Definition scheduling : RM bool :=
  let! self := wget in
  if unset self then wret false
  else if batch self then wraise (NotImplementedError current_state)
  else event_while_pending "scheduled".

(** [Workflow.rescheduling] *)
Definition rescheduling : RM bool :=
  let! self := wget in
  if unset self then wret false
  else if batch self then wraise (NotImplementedError current_state)
  else event_while_pending "rescheduling".

(** [Workflow.waiting] *)
Definition waiting : RM bool :=
  let! self := wget in
  if unset self then wret false
  else if batch self then wraise (NotImplementedError current_state)
  else event_while_pending "waiting".

(** [Workflow.submitting] *)
Definition submitting : RM bool :=
  let! self := wget in
  if unset self then wret false
  else if batch self then wraise (NotImplementedError current_state)
  else event_while_pending "submitting".

(** [Workflow.stdout] *)
Definition stdout : RM (list task_log) :=
  let! self := wget in
  if unset self then wraise (WorkflowError "Workflow is not running.  Cannot get stdout.")
  else if batch self then
    wraise (NotImplementedError
              "Query Each Workflow Id within the Batch Workflow for stdout.")
  else
    let! wf := call (workflow_get (wf_id self)) in
    wmap (fun task =>
            let! text := call (get_stdout (wf_id self) (rt_id task)) in
            wret (mkTaskLog (rt_id task) (rt_taskType task) (rt_name task) text))
         wf.

(** [Workflow.stderr] *)
Definition stderr : RM (list task_log) :=
  let! self := wget in
  if unset self then wraise (WorkflowError "Workflow is not running.  Cannot get stderr.")
  else if batch self then
    wraise (NotImplementedError
              "Query Each Workflow Id within the Batch Workflow for stderr.")
  else
    let! wf := call (workflow_get (wf_id self)) in
    wmap (fun task =>
            let! text := call (get_stderr (wf_id self) (rt_id task)) in
            wret (mkTaskLog (rt_id task) (rt_taskType task) (rt_name task) text))
         wf.

End Remote.

(** ** The rest of [Port], [Task] and [Workflow] *)

(** The setters of [Port.persist] and [Port.persist_location]. *)
Definition persist_set (value : pyval) (p : Port) : Port :=
  if is_input_port p then p
  else mkPort (name p) (type p) (required p) (description p) (Py.value p)
              (is_input_port p) (is_multiplex p) (Some value) (_persist_location p).

Definition persist_location_set (value : pyval) (p : Port) : Port :=
  if is_input_port p then p
  else mkPort (name p) (type p) (required p) (description p) (Py.value p)
              (is_input_port p) (is_multiplex p) (_persist p) (Some value).

(** [Workflow.savedata(output, location)] on the port object [output]. *)
Definition savedata (location : pyval) (output : Port) : Port :=
  let output := persist_set (VBool true) output in
  if truthy location then persist_location_set location output else output.

(** [workflow.savedata(task.outputs.<k>, location)] seen from the task:
    the port object that [task.outputs.<k>] returns is the one the
    collection holds under [k], and it is changed in place. *)
Definition Task_savedata (k : string) (location : pyval) : M Task unit :=
  let! a := Task_output k in
  let! port := lift (as_port a) in
  modify (fun t => set_outputs (<[k := SVal (VPort (savedata location port))]> (outputs t)) t).

(** The inner loop of [Workflow.list_workflow_outputs] for one name. *)
Definition persisted_output (task : Task) (output_port_name : pyval)
  : res (option string) :=
  match output_port_name with
  | VStr output_port_name =>
      try! a := object_getattribute (outputs task) output_port_name in
      try! port := as_port a in
      Ok (if truthy (persist port)
          then Some (task_name task +:+ ":" +:+ output_port_name)
          else None)
  | _ => Raise (AttributeError None)
  end.

Definition task_workflow_outputs (task : Task) : res (list string) :=
  try! names := object_getattribute (outputs task) "_portnames" in
  try! names := py_iter names in
  try! found := rmap (persisted_output task) names in
  Ok (somes found).


(** What a method of [Workflow] comes to when the service answers the
    requests as [answer] does. *)
Fixpoint interp {A} (answer : forall X, Remote.request X -> res X)
  (m : Remote.itree A) : A :=
  match m with
  | Remote.Ret a => a
  | Remote.Vis e k => interp answer (k (answer _ e))
  end.

(** The requests issued along the way, in order, each as a name and the
    workflow id it carries. *)
Definition request_name {X} (e : Remote.request X) : string :=
  match e with
  | Remote.launch _ => "launch"
  | Remote.launch_batch_workflow _ => "launch_batch_workflow"
  | Remote.workflow_get _ => "get"
  | Remote.workflow_status _ => "status"
  | Remote.batch_workflow_status _ => "batch_workflow_status"
  | Remote.workflow_cancel _ => "cancel"
  | Remote.batch_workflow_cancel _ => "batch_workflow_cancel"
  | Remote.workflow_events _ => "events"
  | Remote.get_stdout _ _ => "get_stdout"
  | Remote.get_stderr _ _ => "get_stderr"
  end.

Fixpoint trace {A} (answer : forall X, Remote.request X -> res X)
  (m : Remote.itree A) : list string :=
  match m with
  | Remote.Ret _ => []
  | Remote.Vis e k => request_name e :: trace answer (k (answer _ e))
  end.

(** ** Sequences of operations on a task *)

(** What user code does to a task between its construction and its
    serialisation. *)
Inductive task_op : Type :=
| OpSet (kwargs : list (string * pyval))
| OpSetInput (k : string) (v : pyval)
| OpReadOutput (k : string)
| OpSetTimeout (value : Z)
| OpSetImpersonation (value : pyval).

Definition run_op (op : task_op) : M Task unit :=
  match op with
  | OpSet kwargs => Task_set kwargs
  | OpSetInput k v => Inputs___setattr__ k v
  | OpReadOutput k => Task_output k >> ret tt
  | OpSetTimeout value => timeout_set value
  | OpSetImpersonation value => impersonation_allowed_set value
  end.

(** The task after the operations, whether or not some of them raised. *)
Definition exec_ops (ops : list task_op) (t : Task) : Task :=
  fold_left (fun t op => snd (run_op op t)) ops t.

(** ** Sample registry definitions and tasks *)

Module Sample.

Definition port (name type : string) (required multiplex : bool) : descriptor :=
  mkDescriptor name type (VBool required) VNone multiplex.

(** A task type with plain ports. *)
Definition aop : definition :=
  mkDefinition
    [port "data" "directory" true false; port "enable_acomp" "string" false false]
    [port "data" "directory" true false; port "log" "directory" true false]
    None (VInt 36000).

(** A task type with a multiplex input and a multiplex output port. *)
Definition gdal : definition :=
  mkDefinition
    [port "data" "directory" true true; port "command" "string" true false]
    [port "data" "directory" true true]
    (Some (VStr "raid")) (VInt 7200).

(** A task type one of whose input ports is called [timeout]. *)
Definition sleeper : definition :=
  mkDefinition [port "timeout" "string" false false] [] None (VInt 7200).

(** A task type with a multiplex input port called [time]. *)
Definition timer : definition :=
  mkDefinition [port "time" "string" false true] [] None (VInt 7200).

(** A task type with an output port whose name contains [source:]. *)
Definition catalog : definition :=
  mkDefinition [] [port "resource:0" "directory" true false] None (VInt 7200).

(** The task of a successful construction. *)
Definition built (r : res Task) : Task :=
  match r with
  | Ok t => t
  | Raise _ => mkTask "" "" VNone VNone ∅ ∅ None VNone
  end.

Definition aop_task : Task :=
  built (Task___init__ "AOP_Strip_Processor" "0a1b2c3d" aop [("data", VStr "s3://bucket/in")]).

Definition gdal_task : Task :=
  built (Task___init__ "gdal-cli-multiplex" "4e5f6a7b" gdal []).

(** [gdal_task] after [gdal_task.outputs.data1] was read. *)
Definition gdal_read : Task := snd (Task_output "data1" gdal_task).

(** [aop_task] with [data] wired to the multiplex output [data] of
    [gdal_task]. *)
Definition aop_wired : Task :=
  snd (Task_set [("data", VStr "source:gdal-cli-multiplex_4e5f6a7b:data")] aop_task).

Definition two_tasks : Workflow := Workflow___init__ [gdal_read; aop_task] "wf" VNone.

Definition two_tasks_wired : Workflow :=
  Workflow___init__ [gdal_read; aop_wired] "wf" VNone.

Definition one_task : Workflow := Workflow___init__ [gdal_read] "wf" VNone.

End Sample.

(** ** Predicates of the statements *)

(** [m] never changes the observation [f] of the state. *)
Definition preserves {S X A : Type} (f : S -> X) (m : M S A) : Prop :=
  forall s, f (snd (m s)) = f s.

(** The registered names of a collection. *)
Definition portnames (self : gmap string slot) : list string :=
  match self !! "_portnames" with
  | Some (SNames l) => l
  | _ => []
  end.

(** The collection has its set of names and every registered name is a
    port. *)
Definition ports_ok (self : gmap string slot) : Prop :=
  self !! "_portnames" = Some (SNames (portnames self)) /\
  forall n, In n (portnames self) -> exists port, self !! n = Some (SVal (VPort port)).

(** [ref] is the value of an input port of one of the tasks. *)
Definition referenced (ts : list Task) (ref : string) : Prop :=
  exists t n port,
    In t ts /\ In n (portnames (inputs t)) /\
    inputs t !! n = Some (SVal (VPort port)) /\ value port = VStr ref.

Definition is_value_of (self : gmap string slot) (n : string) (v : pyval) : Prop :=
  exists port, self !! n = Some (SVal (VPort port)) /\ value port = v.

Definition is_multiplex_output (self : gmap string slot) (p : string) : Prop :=
  exists port, self !! p = Some (SVal (VPort port)) /\ is_multiplex port = true.

Definition add_tasks (tds : list task_def) (doc : description_doc) : description_doc :=
  mkDoc (doc_tasks doc ++ tds)%list (doc_name doc) (doc_batch_values doc)
        (doc_callback doc).

(** [td] is the record of [t] in a workflow of [n] tasks whose input
    port values are [all]. *)
Definition record_of (n : nat) (all : list pyval) (t : Task) (td : task_def) : Prop :=
  ports_ok (inputs t) /\ ports_ok (outputs t) /\
  exists exclude,
    output_multiplex_ports_to_exclude n all t = Ok exclude /\
    generate_task_workflow_json exclude t = Ok td.

(** The input collection still has its owner, and its names are ports. *)
Definition inputs_ok (self : gmap string slot) : Prop :=
  self !! "task" = Some SOwner /\ ports_ok self.

(** The output collection of the task called [task_name] knows that
    name, its names are ports, and the value of each port is the
    reference to it. *)
Definition out_ok (task_name : string) (self : gmap string slot) : Prop :=
  ports_ok self /\
  self !! "_task_name" = Some (SVal (VStr task_name)) /\
  forall k port,
    In k (portnames self) ->
    self !! k = Some (SVal (VPort port)) ->
    value port = VStr ("source:" +:+ task_name +:+ ":" +:+ k).

Definition outputs_ok (t : Task) : Prop := out_ok (task_name t) (outputs t).

(** Both collections of the task are in order. *)
Definition task_ok (t : Task) : Prop := inputs_ok (inputs t) /\ outputs_ok t.

(** Names that are not attributes the collections keep for themselves. *)
Definition ordinary_input (k : string) : Prop := k <> "task" /\ k <> "_portnames".

Definition ordinary_output (k : string) : Prop :=
  k <> "_task_name" /\ k <> "_portnames".

Definition ordinary_definition (defn : definition) : Prop :=
  Forall (fun p => ordinary_input (d_name p)) (inputPortDescriptors defn) /\
  Forall (fun p => ordinary_output (d_name p)) (outputPortDescriptors defn).

Definition ordinary_kwargs (kwargs : list (string * pyval)) : Prop :=
  Forall (fun kv => ordinary_input (fst kv)) kwargs.

Definition ordinary_op (op : task_op) : Prop :=
  match op with
  | OpSet kwargs => ordinary_kwargs kwargs
  | OpSetInput k _ => ordinary_input k
  | _ => True
  end.

(** While [PortList.__init__] runs on [Inputs]: the ports in [done] are
    stored. *)
Definition booting (L done : list string) (self : gmap string slot) : Prop :=
  self !! "task" = Some SOwner /\
  self !! "_portnames" = Some (SNames L) /\
  (forall p a, In p L -> self !! p = Some a -> exists port, a = SVal (VPort port)) /\
  (forall k, In k done -> is_Some (self !! k)).

(** While [Outputs.__init__] runs. *)
Definition out_booting (task_name : string) (L done : list string)
  (self : gmap string slot) : Prop :=
  self !! "_task_name" = Some (SVal (VStr task_name)) /\
  self !! "_portnames" = Some (SNames L) /\
  forall k, In k done ->
    exists port, self !! k = Some (SVal (VPort port)) /\
                 value port = VStr ("source:" +:+ task_name +:+ ":" +:+ k).

(** The rule of the serialised inputs in the words of the specification:
    an unset value gives no entry, a boolean gives ["true"] or ["false"],
    a string that begins with ["source:"] gives a source, which is the
    string without that prefix, and anything else gives a value. *)
Fixpoint drop_chars (n : nat) (s : string) : string :=
  match n, s with
  | S n', String _ s' => drop_chars n' s'
  | _, _ => s
  end.

Definition claimed_input_entry (n : string) (v : pyval) : option in_entry :=
  match v with
  | VNone => None
  | VBool true => Some (InValue n (VStr "true"))
  | VBool false => Some (InValue n (VStr "false"))
  | VStr s =>
      if startswith s "source:"
      then Some (InSource n (drop_chars 7 s))
      else Some (InValue n v)
  | _ => Some (InValue n v)
  end.

(** The value has no ["source:"] after a leading one. *)
Definition single_source (v : pyval) : Prop :=
  forall s, v = VStr s -> startswith s "source:" = true ->
            contains (drop_chars 7 s) "source:" = false.

(** Every registered name holds a port of that name. *)
Definition names_match (self : gmap string slot) : Prop :=
  forall n port,
    In n (portnames self) -> self !! n = Some (SVal (VPort port)) -> name port = n.

(** The four things a write of an ordinary name does to the dictionary
    of an input collection whose set of names is [L]: nothing, a new
    value on the port already there, a new port registered under the
    name, or the value stored under a name not yet initialised. *)
Inductive write_effect (k : string) (v : pyval) (L : list string)
  (self : gmap string slot) : gmap string slot -> Prop :=
| WeNone : write_effect k v L self self
| WeValue old v' :
    In k L -> self !! k = Some (SVal (VPort old)) ->
    write_effect k v L self (<[k := SVal (VPort (set_value v' old))]> self)
| WeCreate port :
    name port = k ->
    write_effect k v L self
      (<["_portnames" := SNames (set_add k L)]> (<[k := SVal (VPort port)]> self))
| WeInit :
    In k L -> self !! k = None ->
    write_effect k v L self (<[k := SVal v]> self).

(** ** Further predicates and functions of the statements *)

(** [port], registered as [p], is a multiplex port whose name is a proper
    prefix of [k]. *)
Definition is_template (self : gmap string slot) (k p : string) (port : Port) : Prop :=
  In p (portnames self) /\ self !! p = Some (SVal (VPort port)) /\
  is_multiplex port = true /\ startswith k p = true /\ p <> k.

(** The names [Outputs.__getattribute__] hands to [object] at once. *)
Definition internal_name (k : string) : bool :=
  String.eqb k "_portnames" || String.eqb k "_task_name"
  || String.eqb k "get_matching_multiplex_port" || startswith k "__".


(** What a declared port holds after [v] was assigned to it. *)
Definition stored (k : string) (v : pyval) : pyval :=
  match v with
  | VList _ => VStr ("{{batch_input_" +:+ k +:+ "}}")
  | _ => v
  end.

(** The document [generate_workflow_description] builds. *)
Definition description_of (w : Workflow) (tds : list task_def) : description_doc :=
  mkDoc tds (wf_name w)
        (if nonempty (wf_batch_values w) then wf_batch_values w else None)
        (if truthy (callback w) then Some (callback w) else None).

(** A service that answers every request. *)
Module Service.

Definition answers (X : Type) (e : Remote.request X) : res X :=
  match e in Remote.request X return res X with
  | Remote.launch _ => Ok (VStr "4488969848362445219")
  | Remote.launch_batch_workflow _ => Ok (VStr "4756293649932688446")
  | Remote.workflow_get _ =>
      Ok [Remote.mkRemoteTask (VStr "4488895771403082552") (VStr "AOP_Strip_Processor")
                              (VStr "Task1");
          Remote.mkRemoteTask (VStr "4488895771403082553") (VStr "StageDataToS3")
                              (VStr "Task2")]
  | Remote.workflow_status _ =>
      Ok (Remote.mkStatus (Some (VStr "complete")) (Some (VStr "succeeded")) None)
  | Remote.batch_workflow_status _ =>
      Ok (Remote.mkStatus None None (Some [VStr "succeeded"; VStr "running"]))
  | Remote.workflow_cancel _ => Ok tt
  | Remote.batch_workflow_cancel _ => Ok tt
  | Remote.workflow_events _ => Ok (VList [])
  | Remote.get_stdout _ task_id => Ok task_id
  | Remote.get_stderr _ _ => Ok (VStr "")
  end.

(** [Sample.two_tasks_wired] after a launch. *)
Definition launched : Workflow := set_id (VStr "4488969848362445219") Sample.two_tasks_wired.

(** A workflow one of whose tasks was given a list, after a launch. *)
Definition batch_launched : Workflow :=
  set_id (VStr "4756293649932688446")
    (Workflow___init__
       [snd (Inputs___setattr__ "data" (VList [VStr "s3://a"; VStr "s3://b"]) Sample.aop_task)]
       "wf" VNone).

End Service.

(** The predicate [p] of the workflow [w] answers [True] when the
    service answers as [answer]. *)
Definition holds (answer : forall X, Remote.request X -> res X)
  (p : Remote.RM bool) (w : Workflow) : Prop :=
  fst (interp answer (p w)) = Ok true.

(** The predicates on the state of a launched workflow other than
    [complete]. *)
Definition lifecycle : list (Remote.RM bool) :=
  [Remote.succeeded; Remote.failed; Remote.canceled; Remote.timedout;
   Remote.running; Remote.scheduling; Remote.rescheduling; Remote.waiting;
   Remote.submitting].

(** The event each of them looks for. *)
Definition lifecycle_events : list string :=
  ["succeeded"; "failed"; "canceled"; "timedout"; "started"; "scheduled";
   "rescheduling"; "waiting"; "submitting"].

(** The timeout a sequence of operations leaves on a task that had
    [start]: that of the last accepted assignment. *)
Definition last_timeout (ops : list task_op) (start : pyval) : pyval :=
  fold_left (fun acc op =>
               match op with
               | OpSetTimeout z => if (0 <? z)%Z && (z <? 172800)%Z then VInt z else acc
               | _ => acc
               end) ops start.

(** The batch records of [t'] are those of [t], in order, and perhaps
    more after them. *)
Definition grows (t t' : Task) : Prop :=
  exists l, default [] (batch_values t') = (default [] (batch_values t) ++ l)%list.

(** * Properties *)

Example replace_colon : replace "a:b:c" ":" "_" = "a_b_c".
Proof. reflexivity. Qed.

Example replace_source : replace "source:t:out" "source:" "" = "t:out".
Proof. reflexivity. Qed.

(** ** Frame lemmas: what a computation leaves alone *)

Section Frame.

Context {S X : Type} (f : S -> X).

Lemma preserves_ret {A} (a : A) : preserves f (ret a).
Proof. intros s. reflexivity. Qed.

Lemma preserves_raise {A} (e : exn) : preserves f (@raise S A e).
Proof. intros s. reflexivity. Qed.

Lemma preserves_lift {A} (r : res A) : preserves f (lift r).
Proof. intros s. reflexivity. Qed.

Lemma preserves_get : preserves f get.
Proof. intros s. reflexivity. Qed.

Lemma preserves_modify (g : S -> S) :
  (forall s, f (g s) = f s) -> preserves f (modify g).
Proof. intros H s. apply H. Qed.

Lemma preserves_bind {A B} (m : M S A) (k : A -> M S B) :
  preserves f m -> (forall a, preserves f (k a)) -> preserves f (bind m k).
Proof.
  intros Hm Hk s. unfold bind.
  specialize (Hm s). destruct (m s) as [[a|e] s']; simpl in *.
  - rewrite Hk. exact Hm.
  - exact Hm.
Qed.

Lemma preserves_for_each {A} (l : list A) (k : A -> M S unit) :
  (forall a, preserves f (k a)) -> preserves f (for_each l k).
Proof.
  intros Hk. induction l as [|x l IH]; simpl.
  - apply preserves_ret.
  - apply preserves_bind; [apply Hk | intros _; exact IH].
Qed.

End Frame.

Lemma preserves_zoom {S T X A} (f : S -> X) (rd : S -> T) (wr : T -> S -> S)
  (m : M T A) :
  (forall t s, f (wr t s) = f s) -> preserves f (zoom rd wr m).
Proof.
  intros H s. unfold zoom. destruct (m (rd s)) as [r t']. simpl. apply H.
Qed.

Ltac frame :=
  repeat first
    [ apply preserves_ret | apply preserves_raise | apply preserves_lift
    | apply preserves_get | apply preserves_for_each | apply preserves_zoom
    | apply preserves_modify; intros []; simpl; repeat case_match; reflexivity
    | apply preserves_bind
    | progress intros
    | match goal with
      | |- preserves _ (if ?b then _ else _) => destruct b
      | |- preserves _ (match ?x with _ => _ end) => destruct x
      end ].

Lemma Inputs_setattr_timeout k v : preserves _timeout (Inputs___setattr__ k v).
Proof. unfold Inputs___setattr__. frame. Qed.

Lemma Inputs_setattr_impersonation k v :
  preserves _impersonation_allowed (Inputs___setattr__ k v).
Proof. unfold Inputs___setattr__. frame. Qed.

Lemma Inputs_setattr_outputs k v : preserves outputs (Inputs___setattr__ k v).
Proof. unfold Inputs___setattr__. frame. Qed.

Lemma Inputs_setattr_name k v : preserves task_name (Inputs___setattr__ k v).
Proof. unfold Inputs___setattr__. frame. Qed.

Lemma Task_set_preserves {X} (f : Task -> X) kwargs :
  (forall k v, preserves f (Inputs___setattr__ k v)) ->
  preserves f (Task_set kwargs).
Proof.
  intros H. unfold Task_set. apply preserves_for_each. intros [k v]. apply H.
Qed.

Lemma PortList_init_preserves {X} (f : Task -> X) ports :
  (forall i t, f (set_inputs i t) = f t) ->
  (forall k v, preserves f (Inputs___setattr__ k v)) ->
  preserves f (PortList___init__ ports).
Proof.
  intros Hi H. unfold PortList___init__.
  apply preserves_bind; [apply preserves_modify; intros t; apply Hi|intros _].
  apply preserves_bind; [apply preserves_modify; intros t; apply Hi|intros _].
  apply preserves_for_each. intros p. apply H.
Qed.

(** Unfolding [Task.__init__]: the stages of a successful construction. *)
Lemma Task_init_stages ty uuid defn kwargs t :
  Task___init__ ty uuid defn kwargs = Ok t ->
  exists t1 t2,
    let name := replace (ty +:+ "_" +:+ uuid) ":" "_" in
    let self :=
      mkTask name ty
        (match container_domain defn with Some d => d | None => VStr "default" end)
        (properties_timeout defn) ∅ ∅ None VNone in
    PortList___init__ (inputPortDescriptors defn) self = (Ok tt, t1) /\
    zoom outputs set_outputs
      (Outputs___init__ (outputPortDescriptors defn) name) t1 = (Ok tt, t2) /\
    Task_set kwargs (set_impersonation VNone (set_batch_values None t2)) = (Ok tt, t).
Proof.
  unfold Task___init__. cbv zeta.
  set (self := mkTask _ _ _ _ _ _ _ _).
  unfold bind at 1.
  destruct (PortList___init__ _ self) as [[[]|e] t1] eqn:E1; [|discriminate].
  unfold bind at 1.
  destruct (zoom _ _ _ t1) as [[[]|e] t2] eqn:E2; [|discriminate].
  unfold bind at 1. unfold modify at 1. unfold bind at 1. unfold modify at 1.
  destruct (Task_set kwargs _) as [[[]|e] t'] eqn:E; [|discriminate].
  intros [= <-]. exists t1, t2. auto.
Qed.

Lemma run_op_timeout_other op :
  (forall z, op <> OpSetTimeout z) -> preserves _timeout (run_op op).
Proof.
  intros H. destruct op as [kwargs|k v|k|z|v]; simpl.
  - apply Task_set_preserves, Inputs_setattr_timeout.
  - apply Inputs_setattr_timeout.
  - unfold Task_output. frame.
  - destruct (H z eq_refl).
  - unfold impersonation_allowed_set. frame.
Qed.

Lemma run_op_impersonation_other op :
  op <> OpSetImpersonation (VBool true) ->
  preserves _impersonation_allowed (run_op op).
Proof.
  intros H. destruct op as [kwargs|k v|k|z|v]; simpl.
  - apply Task_set_preserves, Inputs_setattr_impersonation.
  - apply Inputs_setattr_impersonation.
  - unfold Task_output. frame.
  - unfold timeout_set. frame.
  - unfold impersonation_allowed_set. destruct v as [|[]| | | | |]; try congruence; frame.
Qed.

Lemma op_is_allow (op : task_op) :
  {op = OpSetImpersonation (VBool true)} + {op <> OpSetImpersonation (VBool true)}.
Proof.
  destruct op as [| | | |v]; try (right; discriminate).
  destruct v as [|[]| | | | |]; try (right; congruence). left; reflexivity.
Qed.

Lemma exec_ops_allowed ops : forall t,
  _impersonation_allowed t = VBool true ->
  _impersonation_allowed (exec_ops ops t) = VBool true.
Proof.
  induction ops as [|op ops IH]; intros t Ht; simpl; [exact Ht|].
  apply IH. destruct (op_is_allow op) as [->|Hne].
  - reflexivity.
  - rewrite (run_op_impersonation_other op Hne). exact Ht.
Qed.

Lemma exec_ops_unset ops : forall t,
  _impersonation_allowed t = VNone ->
  (In (OpSetImpersonation (VBool true)) ops ->
   _impersonation_allowed (exec_ops ops t) = VBool true) /\
  (~ In (OpSetImpersonation (VBool true)) ops ->
   _impersonation_allowed (exec_ops ops t) = VNone).
Proof.
  induction ops as [|op ops IH]; intros t Ht; simpl.
  - split; [intros []|intros _; exact Ht].
  - destruct (op_is_allow op) as [->|Hne].
    + split; [intros _|intros H; destruct H; left; reflexivity].
      apply exec_ops_allowed. reflexivity.
    + assert (Ht' : _impersonation_allowed (snd (run_op op t)) = VNone)
        by (rewrite (run_op_impersonation_other op Hne); exact Ht).
      destruct (IH _ Ht') as [IH1 IH2]. split.
      * intros [H|H]; [congruence|auto].
      * intros H. apply IH2. intros H'. apply H. right. exact H'.
Qed.

Lemma Task_init_impersonation ty uuid defn kwargs t :
  Task___init__ ty uuid defn kwargs = Ok t -> _impersonation_allowed t = VNone.
Proof.
  intros H. destruct (Task_init_stages _ _ _ _ _ H) as (t1 & t2 & _ & _ & H3).
  pose proof (Task_set_preserves _impersonation_allowed kwargs
                Inputs_setattr_impersonation
                (set_impersonation VNone (set_batch_values None t2))) as P.
  cbv zeta in H3. rewrite H3 in P. simpl in P. exact P.
Qed.

Lemma json_impersonation exclude t td :
  generate_task_workflow_json exclude t = Ok td ->
  td_impersonation_allowed td =
    if truthy (_impersonation_allowed t) then Some (_impersonation_allowed t) else None.
Proof.
  unfold generate_task_workflow_json, rbind.
  repeat match goal with
         | |- context [match ?x with Ok _ => _ | Raise _ => _ end] =>
             destruct x; [|discriminate]
         end.
  intros [= <-]. reflexivity.
Qed.

Example aop_task_built :
  Task___init__ "AOP_Strip_Processor" "0a1b2c3d" Sample.aop
                [("data", VStr "s3://bucket/in")]
  = Ok Sample.aop_task.
Proof. vm_compute. reflexivity. Qed.

(** ** The impersonation flag *)

(** C10.  A freshly constructed task has [impersonation_allowed] unset.
    Assigning anything but [True] changes nothing.  After any sequence of
    operations on the task the attribute is [True] if [True] was assigned
    at some point and still unset otherwise, and the serialised record has
    the field [impersonation_allowed] exactly in the first case. *)
Theorem impersonation_allowed_only_true ty uuid defn kwargs t0 :
  Task___init__ ty uuid defn kwargs = Ok t0 ->
  impersonation_allowed t0 = VNone /\
  (forall t v, v <> VBool true -> impersonation_allowed_set v t = (Ok tt, t)) /\
  (forall ops,
     let t := exec_ops ops t0 in
     let assigned := In (OpSetImpersonation (VBool true)) ops in
     (assigned -> impersonation_allowed t = VBool true) /\
     (~ assigned -> impersonation_allowed t = VNone) /\
     (forall later, assigned ->
        impersonation_allowed (exec_ops later t) = VBool true) /\
     (forall exclude td,
        generate_task_workflow_json exclude t = Ok td ->
        (assigned -> td_impersonation_allowed td = Some (VBool true)) /\
        (~ assigned -> td_impersonation_allowed td = None))).
Proof.
  intros H0. pose proof (Task_init_impersonation _ _ _ _ _ H0) as Hnone.
  split; [exact Hnone|]. split.
  - intros t v Hv. unfold impersonation_allowed_set.
    destruct v as [|[]| | | | |]; try reflexivity. congruence.
  - intros ops t assigned.
    destruct (exec_ops_unset ops t0 Hnone) as [Hyes Hno].
    fold t in Hyes, Hno. fold assigned in Hyes, Hno.
    split; [exact Hyes|]. split; [exact Hno|]. split.
    + intros later Ha. apply exec_ops_allowed, Hyes, Ha.
    + intros exclude td Htd. rewrite (json_impersonation _ _ _ Htd). split.
      * intros Ha. rewrite (Hyes Ha). reflexivity.
      * intros Ha. rewrite (Hno Ha). reflexivity.
Qed.

Lemma impersonation_allowed_only_true_witness :
  impersonation_allowed Sample.aop_task = VNone /\
  impersonation_allowed
    (exec_ops [OpSetImpersonation (VBool true); OpSetImpersonation (VBool false)]
              Sample.aop_task) = VBool true.
Proof.
  assert (H : Task___init__ "AOP_Strip_Processor" "0a1b2c3d" Sample.aop
                [("data", VStr "s3://bucket/in")] = Ok Sample.aop_task)
    by (vm_compute; reflexivity).
  destruct (impersonation_allowed_only_true _ _ _ _ _ H) as (H1 & _ & H3).
  split; [exact H1|].
  apply (H3 [OpSetImpersonation (VBool true); OpSetImpersonation (VBool false)]).
  left. reflexivity.
Defined.

Example impersonation_serialised :
  (try! td := generate_task_workflow_json []
                (exec_ops [OpSetImpersonation (VBool false);
                           OpSetImpersonation (VBool true);
                           OpSetImpersonation VNone] Sample.aop_task) in
   Ok (td_impersonation_allowed td)) = Ok (Some (VBool true)) /\
  (try! td := generate_task_workflow_json []
                (exec_ops [OpSetImpersonation (VBool false);
                           OpSetImpersonation (VInt 1)] Sample.aop_task) in
   Ok (td_impersonation_allowed td)) = Ok None.
Proof. split; vm_compute; reflexivity. Qed.

(** ** The timeout *)

Lemma Task_init_timeout ty uuid defn kwargs t :
  Task___init__ ty uuid defn kwargs = Ok t -> _timeout t = properties_timeout defn.
Proof.
  intros H. destruct (Task_init_stages _ _ _ _ _ H) as (t1 & t2 & H1 & H2 & H3).
  cbv zeta in *.
  pose proof (Task_set_preserves _timeout kwargs Inputs_setattr_timeout
                (set_impersonation VNone (set_batch_values None t2))) as P3.
  rewrite H3 in P3. simpl in P3. rewrite P3.
  assert (P2 : preserves _timeout
                 (zoom outputs set_outputs
                    (Outputs___init__ (outputPortDescriptors defn)
                       (replace (ty +:+ "_" +:+ uuid) ":" "_"))))
    by (apply preserves_zoom; intros o []; reflexivity).
  specialize (P2 t1). rewrite H2 in P2. simpl in P2. rewrite P2.
  pose proof (PortList_init_preserves _timeout (inputPortDescriptors defn)
                (fun i t => match t with mkTask _ _ _ _ _ _ _ _ => eq_refl end)
                Inputs_setattr_timeout) as P1.
  match type of H1 with ?m ?s = _ => specialize (P1 s) end.
  rewrite H1 in P1. simpl in P1. exact P1.
Qed.

(** C5 as stated fails on its last part: [Task("x", timeout=100)] hands
    [timeout=100] to the input ports.  With an input port of that name the
    value lands on the port and the task's timeout stays the registry's;
    for a type with no such port, and no multiplex port that prefixes the
    name, the constructor raises. *)
Lemma timeout_keyword_is_a_port :
  (exists t,
     Task___init__ "x" "0a1b2c3d" Sample.sleeper [("timeout", VInt 100)] = Ok t /\
     timeout t = VInt 7200 /\ timeout t <> VInt 100) /\
  Task___init__ "x" "0a1b2c3d" Sample.aop [("timeout", VInt 100)] =
    Raise (AttributeError (Some "Task has no input port named timeout.")).
Proof.
  split.
  - eexists. split; [vm_compute; reflexivity|]. split; [reflexivity|discriminate].
  - vm_compute. reflexivity.
Qed.

(** ** A workflow that was never executed *)

Import Remote.

Lemma unset_None w : wf_id w = VNone -> unset w = true.
Proof. intros H. unfold unset. rewrite H. reflexivity. Qed.

Ltac not_running H :=
  unfold wbind, wget; simpl; rewrite (unset_None _ H); reflexivity.

(** C8.  With [id] unset, [status], [cancel], [stdout], [stderr],
    [task_ids] and [events] raise [WorkflowError] with a "Workflow is not
    running." message, and each of the ten lifecycle predicates returns
    [False]; none of them issues a request to the service or changes the
    workflow. *)
Theorem unset_id_not_running (w : Workflow) :
  wf_id w = VNone ->
  (status w = Ret (Raise (WorkflowError "Workflow is not running.  Cannot check status."), w) /\
   cancel w = Ret (Raise (WorkflowError "Workflow is not running.  Cannot cancel."), w) /\
   stdout w = Ret (Raise (WorkflowError "Workflow is not running.  Cannot get stdout."), w) /\
   stderr w = Ret (Raise (WorkflowError "Workflow is not running.  Cannot get stderr."), w) /\
   task_ids w = Ret (Raise (WorkflowError "Workflow is not running.  Cannot get task IDs."), w) /\
   events w = Ret (Raise (WorkflowError "Workflow is not running.  Cannot check status."), w)) /\
  (complete w = Ret (Ok false, w) /\
   succeeded w = Ret (Ok false, w) /\
   failed w = Ret (Ok false, w) /\
   canceled w = Ret (Ok false, w) /\
   running w = Ret (Ok false, w) /\
   timedout w = Ret (Ok false, w) /\
   scheduling w = Ret (Ok false, w) /\
   rescheduling w = Ret (Ok false, w) /\
   waiting w = Ret (Ok false, w) /\
   submitting w = Ret (Ok false, w)).
Proof.
  intros H. split.
  - unfold status, cancel, stdout, stderr, task_ids, events.
    repeat split; not_running H.
  - unfold complete, succeeded, failed, canceled, running, timedout,
      scheduling, rescheduling, waiting, submitting.
    repeat split; not_running H.
Qed.

Lemma unset_id_not_running_witness :
  requests (fun X (e : request X) => Raise KeyError)
           (status (Workflow___init__ [Sample.aop_task] "wf" VNone)) = O /\
  complete (Workflow___init__ [Sample.aop_task] "wf" VNone) =
    Ret (Ok false, Workflow___init__ [Sample.aop_task] "wf" VNone).
Proof.
  destruct (unset_id_not_running
              (Workflow___init__ [Sample.aop_task] "wf" VNone) eq_refl)
    as ((Hs & _) & (Hc & _)).
  rewrite Hs, Hc. split; reflexivity.
Defined.

(** The predicates do reach the service once the workflow has an id. *)
Example running_asks_the_service :
  let w := set_id (VStr "4488969848362445219")
             (Workflow___init__ [Sample.aop_task] "wf" VNone) in
  requests (fun X (e : request X) => Raise KeyError) (running w) = 1%nat.
Proof. reflexivity. Qed.

(** ** A workflow without tasks *)

(** C9.  With no tasks, [generate_workflow_description] raises the
    "no tasks" [WorkflowError] at once and leaves the workflow, its
    [definition] included, as it was; [execute] raises the same error
    before any request is issued, so the workflow gets no id. *)
Theorem no_tasks_no_description (w : Workflow) :
  tasks w = [] ->
  generate_workflow_description w =
    (Raise (WorkflowError "Workflow contains no tasks, and cannot be executed."), w) /\
  execute w =
    Ret (Raise (WorkflowError "Workflow contains no tasks, and cannot be executed."), w).
Proof.
  intros H.
  assert (G : generate_workflow_description w =
    (Raise (WorkflowError "Workflow contains no tasks, and cannot be executed."), w)).
  { unfold generate_workflow_description, bind, get. simpl. rewrite H. reflexivity. }
  split; [exact G|].
  unfold execute, wbind, local. simpl. rewrite G. reflexivity.
Qed.

Lemma no_tasks_no_description_witness :
  fst (generate_workflow_description (Workflow___init__ [] "empty" VNone)) =
    Raise (WorkflowError "Workflow contains no tasks, and cannot be executed.") /\
  wf_definition
    (snd (generate_workflow_description (Workflow___init__ [] "empty" VNone))) = None /\
  requests (fun X (e : request X) => Raise KeyError)
           (execute (Workflow___init__ [] "empty" VNone)) = O.
Proof.
  destruct (no_tasks_no_description (Workflow___init__ [] "empty" VNone) eq_refl)
    as [G E].
  rewrite G, E. repeat split.
Defined.

(** ** Writing input ports *)

Lemma set_mem_In k l : set_mem k l = true <-> In k l.
Proof.
  unfold set_mem. rewrite existsb_exists. split.
  - intros (x & Hx & E). apply String.eqb_eq in E. subst. exact Hx.
  - intros H. exists k. split; [exact H|apply String.eqb_refl].
Qed.

Lemma set_mem_not_In k l : set_mem k l = false <-> ~ In k l.
Proof.
  rewrite <- set_mem_In. destruct (set_mem k l); split; congruence.
Qed.

Lemma eqb_ne (a b : string) : a <> b -> String.eqb a b = false.
Proof. intros H. apply String.eqb_neq. exact H. Qed.

(** A name whose attribute is a port is neither of the two attributes the
    collection keeps for itself. *)
Lemma port_not_internal (self : gmap string slot) k port a b :
  self !! k = Some (SVal (VPort port)) ->
  self !! "task" = Some a -> a = SOwner ->
  self !! "_portnames" = Some (SNames b) ->
  k <> "task" /\ k <> "_portnames".
Proof.
  intros Hk Ht -> Hn. split; intros ->; congruence.
Qed.

Ltac run :=
  repeat (unfold bind, get, lift, modify, raise, ret, object_getattribute,
            as_port, hasattr; simpl).




(** A second list on the same port is appended after the first. *)
Example two_lists_in_order :
  batch_values
    (exec_ops [OpSetInput "data" (VList [VStr "a"; VStr "b"]);
               OpSetInput "enable_acomp" (VList [VBool true; VBool false])]
              Sample.aop_task)
  = Some [mkBatch "batch_input_data" [VStr "a"; VStr "b"];
          mkBatch "batch_input_enable_acomp" [VBool true; VBool false]].
Proof. vm_compute. reflexivity. Qed.






(** The two names the collection keeps for itself are stored, whatever
    the declared ports are. *)
Example internal_names_are_stored :
  fst (Inputs___setattr__ "task" (VInt 1) Sample.aop_task) = Ok tt /\
  fst (Inputs___setattr__ "_portnames" (VInt 1) Sample.aop_task) = Ok tt.
Proof. split; reflexivity. Qed.

(** ** Ports created from a multiplex template *)

(** C6 fails on [Outputs]: reading [data1] where [data] is a declared
    multiplex output port registers the name [data1] with a port whose
    [name] is [data], the name of the template. *)
Theorem lazy_output_port_keeps_template_name :
  let t := snd (Task_output "data1" Sample.gdal_task) in
  outputs t !! "_portnames" = Some (SNames ["data"; "data1"]) /\
  exists port,
    outputs t !! "data1" = Some (SVal (VPort port)) /\
    name port = "data" /\
    name port <> "data1" /\
    value port = VStr "source:gdal-cli-multiplex_4e5f6a7b:data1".
Proof.
  split; [vm_compute; reflexivity|].
  eexists. split; [vm_compute; reflexivity|].
  split; [reflexivity|]. split; [discriminate|reflexivity].
Qed.

(** [Inputs] gives the new port the name it is registered under. *)
Example lazy_input_port_takes_its_name :
  let t := snd (Inputs___setattr__ "data1" (VStr "s3://bucket/1") Sample.gdal_task) in
  inputs t !! "_portnames" = Some (SNames ["data"; "command"; "data1"]) /\
  exists port,
    inputs t !! "data1" = Some (SVal (VPort port)) /\ name port = "data1".
Proof.
  split; [vm_compute; reflexivity|].
  eexists. split; [vm_compute; reflexivity|]. reflexivity.
Qed.

(** ** Serialised inputs *)

(** What the loop over the input ports appends for a port. *)
Lemma input_entry_port (self : gmap string slot) n port :
  self !! n = Some (SVal (VPort port)) ->
  input_entry self (VStr n) =
    Ok match value port with
       | VNone => None
       | VBool true => Some (InValue n (VStr "true"))
       | VBool false => Some (InValue n (VStr "false"))
       | VStr s =>
           if startswith s "source:"
           then Some (InSource n (replace s "source:" ""))
           else Some (InValue n (VStr s))
       | v => Some (InValue n v)
       end.
Proof.
  intros H. unfold input_entry, rbind, object_getattribute. rewrite H. simpl.
  destruct (value port) as [|[]|z|s|l|l|p]; try reflexivity.
  destruct (startswith s "source:"); reflexivity.
Qed.

(** C2 fails on its third rule: the value [source:t1:resource:0] is
    serialised with every [source:] removed, not only the prefix. *)
Theorem source_removed_everywhere :
  let t := snd (Inputs___setattr__ "data" (VStr "source:t1:resource:0") Sample.aop_task) in
  exists td port,
    inputs t !! "data" = Some (SVal (VPort port)) /\
    value port = VStr "source:t1:resource:0" /\
    generate_task_workflow_json [] t = Ok td /\
    td_inputs td = [InSource "data" "t1:re0"] /\
    claimed_input_entry "data" (value port) = Some (InSource "data" "t1:resource:0").
Proof.
  do 2 eexists. split; [vm_compute; reflexivity|]. split; [reflexivity|].
  split; [vm_compute; reflexivity|]. split; reflexivity.
Qed.

(** The other rules of C2 at work. *)
Example unset_and_boolean_inputs :
  let t := exec_ops [OpSetInput "enable_acomp" (VBool true)]
             (Sample.built (Task___init__ "AOP_Strip_Processor" "0a1b2c3d" Sample.aop [])) in
  (try! td := generate_task_workflow_json [] t in Ok (td_inputs td))
  = Ok [InValue "enable_acomp" (VStr "true")].
Proof. vm_compute. reflexivity. Qed.

(** C4 fails for the same reason on an output port whose name contains
    [source:]: wiring [resource:0] of a task into [data] of another gives
    the entry a source that is not [<task name>:resource:0]. *)
Theorem wired_source_loses_inner_source :
  let A := Sample.built (Task___init__ "catalog" "9f8e7d6c" Sample.catalog []) in
  let B := Sample.aop_task in
  exists port A' B' td,
    Task_output "resource:0" A = (Ok (SVal (VPort port)), A') /\
    task_name A = "catalog_9f8e7d6c" /\
    Task_set [("data", VPort port)] B = (Ok tt, B') /\
    generate_task_workflow_json [] B' = Ok td /\
    td_inputs td = [InSource "data" "catalog_9f8e7d6c:re0"] /\
    td_inputs td <> [InSource "data" "catalog_9f8e7d6c:resource:0"].
Proof.
  do 4 eexists.
  split; [vm_compute; reflexivity|]. split; [vm_compute; reflexivity|].
  split; [vm_compute; reflexivity|]. split; [vm_compute; reflexivity|].
  split; [reflexivity|discriminate].
Qed.

(** With plain names the wiring gives the expected entry. *)
Example wired_source :
  let A := Sample.aop_task in
  exists port A' B' td,
    Task_output "log" A = (Ok (SVal (VPort port)), A') /\
    Task_set [("data", VPort port)] Sample.gdal_task = (Ok tt, B') /\
    generate_task_workflow_json [] B' = Ok td /\
    td_inputs td = [InSource "data" "AOP_Strip_Processor_0a1b2c3d:log"].
Proof.
  do 4 eexists.
  split; [vm_compute; reflexivity|]. split; [vm_compute; reflexivity|].
  split; [vm_compute; reflexivity|]. reflexivity.
Qed.

(** ** Serialised outputs of a workflow *)

Lemma rmap_ok {A B} (f : A -> res B) (P : A -> B -> Prop) (l : list A) :
  (forall x, In x l -> exists y, f x = Ok y /\ P x y) ->
  exists ys, rmap f l = Ok ys /\ Forall2 P l ys.
Proof.
  induction l as [|x l IH]; intros H; simpl.
  - exists []. split; [reflexivity|constructor].
  - destruct (H x (or_introl eq_refl)) as (y & Hy & Py).
    destruct IH as (ys & Hys & Pys); [intros z Hz; apply H; right; exact Hz|].
    exists (y :: ys). rewrite Hy, Hys. split; [reflexivity|].
    constructor; assumption.
Qed.

Lemma rmap_names_ok {B} (f : pyval -> res B) (P : string -> B -> Prop) names :
  (forall n, In n names -> exists y, f (VStr n) = Ok y /\ P n y) ->
  exists ys, rmap f (map VStr names) = Ok ys /\ Forall2 P names ys.
Proof.
  induction names as [|x l IH]; intros H; simpl.
  - exists []. split; [reflexivity|constructor].
  - destruct (H x (or_introl eq_refl)) as (y & Hy & Py).
    destruct IH as (ys & Hys & Pys); [intros z Hz; apply H; right; exact Hz|].
    exists (y :: ys). rewrite Hy, Hys. split; [reflexivity|].
    constructor; assumption.
Qed.

Lemma eq_str_spec s v : eq_str s v = true <-> v = VStr s.
Proof.
  destruct v; simpl; try (split; [discriminate|intros [=]]).
  rewrite String.eqb_eq. split; [intros ->; reflexivity|intros [= ->]; reflexivity].
Qed.

Lemma str_in_In s l : str_in s l = true <-> In (VStr s) l.
Proof.
  unfold str_in. rewrite existsb_exists. split.
  - intros (v & Hv & E). apply eq_str_spec in E. subst. exact Hv.
  - intros H. exists (VStr s). split; [exact H|]. apply eq_str_spec. reflexivity.
Qed.

Lemma task_input_port_values_ok t :
  ports_ok (inputs t) ->
  exists vs, task_input_port_values t = Ok vs /\
             Forall2 (is_value_of (inputs t)) (portnames (inputs t)) vs.
Proof.
  intros [Hn Hp]. unfold task_input_port_values, rbind, object_getattribute.
  rewrite Hn. simpl. apply rmap_names_ok. intros n Hin.
  destruct (Hp n Hin) as (port & Hport).
  exists (value port). unfold input_port_value, rbind, object_getattribute.
  rewrite Hport. simpl. split; [reflexivity|]. exists port. auto.
Qed.

Lemma Forall2_In_r {A B} (P : A -> B -> Prop) l l' y :
  Forall2 P l l' -> In y l' -> exists x, In x l /\ P x y.
Proof.
  induction 1 as [|a b l l' Hab _ IH]; intros Hy; [destruct Hy|].
  destruct Hy as [<-|Hy].
  - exists a. split; [left; reflexivity|exact Hab].
  - destruct (IH Hy) as (x & Hx & Pxy). exists x. split; [right; exact Hx|exact Pxy].
Qed.

Lemma Forall2_In_l {A B} (P : A -> B -> Prop) l l' x :
  Forall2 P l l' -> In x l -> exists y, In y l' /\ P x y.
Proof.
  induction 1 as [|a b l l' Hab _ IH]; intros Hx; [destruct Hx|].
  destruct Hx as [<-|Hx].
  - exists b. split; [left; reflexivity|exact Hab].
  - destruct (IH Hx) as (y & Hy & Pxy). exists y. split; [right; exact Hy|exact Pxy].
Qed.

(** [all_input_port_values] holds exactly the values of the input ports
    of the tasks. *)
Lemma all_input_port_values_ok ts :
  (forall t, In t ts -> ports_ok (inputs t)) ->
  exists vss, rmap task_input_port_values ts = Ok vss /\
    forall ref, str_in ref (concat vss) = true <-> referenced ts ref.
Proof.
  intros Hok.
  destruct (rmap_ok task_input_port_values
              (fun t vs => Forall2 (is_value_of (inputs t)) (portnames (inputs t)) vs) ts)
    as (vss & Hvss & HF).
  { intros t Ht. destruct (task_input_port_values_ok t (Hok t Ht)) as (vs & H1 & H2).
    exists vs. auto. }
  exists vss. split; [exact Hvss|]. intros ref. rewrite str_in_In, in_concat. split.
  - intros (vs & Hvs & Hin).
    destruct (Forall2_In_r _ _ _ _ HF Hvs) as (t & Ht & Hvals).
    destruct (Forall2_In_r _ _ _ _ Hvals Hin) as (n & Hn & port & Hport & Hval).
    exists t, n, port. auto.
  - intros (t & n & port & Ht & Hn & Hport & Hval).
    destruct (Forall2_In_l _ _ _ _ HF Ht) as (vs & Hvs & Hvals).
    destruct (Forall2_In_l _ _ _ _ Hvals Hn) as (v & Hv & port' & Hport' & Hval').
    exists vs. split; [exact Hvs|].
    assert (port' = port) by congruence. subst. rewrite <- Hval. exact Hv.
Qed.

Lemma In_somes {A} (l : list (option A)) x : In x (somes l) <-> In (Some x) l.
Proof.
  induction l as [|[a|] l IH]; simpl.
  - tauto.
  - rewrite IH. split; (intros [H|H]; [left; congruence|right; exact H]).
  - rewrite IH. split; [auto|intros [H|H]; [discriminate|exact H]].
Qed.

(** The names the workflow passes as [output_multiplex_ports_to_exclude]
    for a task. *)
Lemma exclude_ok n all t :
  ports_ok (outputs t) ->
  exists excl,
    output_multiplex_ports_to_exclude n all t = Ok excl /\
    forall p, In p excl <->
      (1 < n)%nat /\ In p (portnames (outputs t)) /\
      is_multiplex_output (outputs t) p /\
      str_in ("source:" +:+ task_name t +:+ ":" +:+ p) all = false.
Proof.
  intros [Hn Hp]. unfold output_multiplex_ports_to_exclude.
  destruct (1 <? n)%nat eqn:E.
  - apply Nat.ltb_lt in E.
    unfold rbind, object_getattribute. rewrite Hn. simpl.
    destruct (rmap_names_ok (multiplex_output (outputs t))
                (fun n o => exists port, outputs t !! n = Some (SVal (VPort port)) /\
                            o = if is_multiplex port then Some n else None)
                (portnames (outputs t))) as (ms & Hms & HF).
    { intros m Hm. destruct (Hp m Hm) as (port & Hport).
      eexists. unfold multiplex_output, rbind, object_getattribute.
      rewrite Hport. simpl. split; [reflexivity|]. exists port. auto. }
    rewrite Hms. eexists. split; [reflexivity|]. intros p.
    rewrite filter_In, In_somes, negb_true_iff. split.
    + intros [Hin Href]. split; [exact E|].
      destruct (Forall2_In_r _ _ _ _ HF Hin) as (m & Hm & port & Hport & Ho).
      destruct (is_multiplex port) eqn:Emp; [|discriminate].
      injection Ho as ->. split; [exact Hm|]. split; [|exact Href].
      exists port. auto.
    + intros (_ & Hin & (port & Hport & Hmp) & Href). split; [|exact Href].
      destruct (Forall2_In_l _ _ _ _ HF Hin) as (o & Ho & port' & Hport' & ->).
      assert (port' = port) by congruence. subst. rewrite Hmp in Ho. exact Ho.
  - apply Nat.ltb_ge in E. eexists. split; [reflexivity|]. intros p. simpl.
    split; [intros []|intros [H _]; lia].
Qed.

(** Serialising a task whose collections are in order succeeds; the
    names in its [outputs] list are the registered ones that are not
    excluded. *)
Lemma generate_task_workflow_json_ok exclude t :
  ports_ok (inputs t) -> ports_ok (outputs t) ->
  exists td,
    generate_task_workflow_json exclude t = Ok td /\
    td_name td = task_name t /\
    forall p, In p (map o_name (td_outputs td)) <->
              In p (portnames (outputs t)) /\ ~ In p exclude.
Proof.
  intros [Hni Hpi] [Hno Hpo]. unfold generate_task_workflow_json.
  unfold rbind at 1, object_getattribute at 1. rewrite Hni.
  unfold rbind at 1. simpl py_iter.
  destruct (rmap_names_ok (input_entry (inputs t)) (fun _ _ => True)
              (portnames (inputs t))) as (ins & Hins & _).
  { intros n Hn. destruct (Hpi n Hn) as (port & Hport).
    eexists. split; [apply (input_entry_port _ _ _ Hport)|exact I]. }
  unfold rbind at 1. rewrite Hins.
  unfold rbind at 1, object_getattribute at 1. rewrite Hno.
  unfold rbind at 1. simpl py_iter.
  destruct (rmap_names_ok (output_entry (outputs t) exclude)
              (fun n o => if set_mem n exclude then o = None
                          else exists e, o = Some e /\ o_name e = n)
              (portnames (outputs t))) as (outs & Houts & HF).
  { intros n Hn. destruct (Hpo n Hn) as (port & Hport).
    unfold output_entry, rbind, object_getattribute.
    destruct (set_mem n exclude).
    - eexists. split; reflexivity.
    - rewrite Hport. simpl. eexists. split; [reflexivity|].
      eexists. split; reflexivity. }
  unfold rbind at 1. rewrite Houts.
  eexists. split; [reflexivity|]. split; [reflexivity|]. simpl.
  intros p. rewrite in_map_iff. split.
  - intros (e & <- & He). apply In_somes in He.
    destruct (Forall2_In_r _ _ _ _ HF He) as (n & Hn & Ho).
    destruct (set_mem n exclude) eqn:E; [discriminate|].
    destruct Ho as (e' & [= <-] & <-). split; [exact Hn|].
    apply set_mem_not_In. exact E.
  - intros [Hin Hex]. apply set_mem_not_In in Hex.
    destruct (Forall2_In_l _ _ _ _ HF Hin) as (o & Ho & Hshape).
    rewrite Hex in Hshape. destruct Hshape as (e & -> & He).
    exists e. split; [exact He|]. apply In_somes. exact Ho.
Qed.

(** The loop over the tasks appends one record per task, in order. *)
Lemma task_loop_ok n all ts :
  (forall t, In t ts -> ports_ok (inputs t) /\ ports_ok (outputs t)) ->
  forall w doc0,
    wf_definition w = Some doc0 ->
    exists tds,
      for_each ts (fun task =>
        let! exclude := lift (output_multiplex_ports_to_exclude n all task) in
        let! task_def := lift (generate_task_workflow_json exclude task) in
        modify (append_task task_def)) w
      = (Ok tt, set_definition (Some (add_tasks tds doc0)) w) /\
      Forall2 (record_of n all) ts tds.
Proof.
  induction ts as [|t ts IH]; intros Hok w doc0 Hdoc.
  - exists []. split; [|constructor]. simpl. unfold ret, add_tasks.
    rewrite app_nil_r. destruct w, doc0; simpl in *. rewrite Hdoc. reflexivity.
  - destruct (Hok t (or_introl eq_refl)) as [Hi Ho].
    destruct (exclude_ok n all t Ho) as (excl & Hexcl & _).
    destruct (generate_task_workflow_json_ok excl t Hi Ho) as (td & Htd & _).
    destruct (IH (fun t' Ht' => Hok t' (or_intror Ht'))
                 (append_task td w) (add_tasks [td] doc0)) as (tds & Hloop & HF).
    { unfold append_task. simpl. rewrite Hdoc. reflexivity. }
    exists (td :: tds). split.
    + simpl. unfold bind at 1. unfold bind at 1, lift at 1. rewrite Hexcl.
      unfold bind at 1, lift at 1. rewrite Htd. unfold modify at 1.
      rewrite Hloop. f_equal. unfold add_tasks, set_definition, append_task.
      simpl. rewrite <- app_assoc. reflexivity.
    + constructor; [|exact HF]. split; [exact Hi|]. split; [exact Ho|].
      exists excl. auto.
Qed.

Lemma match_nonempty {A B} (l : list A) (x y : B) :
  l <> [] -> match l with [] => x | _ :: _ => y end = y.
Proof. destruct l; [congruence|reflexivity]. Qed.

(** C1.  For a workflow with at least one task, whose tasks have their
    collections in order, the description is generated and holds one
    record per task, in order.  In the record of a task, every name in
    [outputs] is a registered output port of the task.  With more than
    one task, a registered output port flagged [is_multiplex] is missing
    from the list exactly when [source:<task name>:<port name>] is not
    the value of any input port of any task of the workflow, and a port
    not so flagged (a port created on reading a multiplex name is one) is
    listed.  With one task every registered output port is listed. *)
Theorem multiplex_outputs_pruned (w : Workflow) :
  tasks w <> [] ->
  (forall t, In t (tasks w) -> ports_ok (inputs t) /\ ports_ok (outputs t)) ->
  exists doc w',
    generate_workflow_description w = (Ok doc, w') /\
    wf_definition w' = Some doc /\
    Forall2
      (fun t td =>
         td_name td = task_name t /\
         (forall p, In p (map o_name (td_outputs td)) ->
                    In p (portnames (outputs t))) /\
         forall p port,
           In p (portnames (outputs t)) ->
           outputs t !! p = Some (SVal (VPort port)) ->
           let listed := In p (map o_name (td_outputs td)) in
           let reference := "source:" +:+ task_name t +:+ ":" +:+ p in
           ((1 < length (tasks w))%nat -> is_multiplex port = true ->
            (~ listed <-> ~ referenced (tasks w) reference)) /\
           ((1 < length (tasks w))%nat -> is_multiplex port = false -> listed) /\
           (length (tasks w) = 1%nat -> listed))
      (tasks w) (doc_tasks doc).
Proof.
  intros Hne Hok.
  destruct (all_input_port_values_ok (tasks w)) as (vss & Hvss & Href).
  { intros t Ht. apply (Hok t Ht). }
  set (doc0 := mkDoc [] (wf_name w)
                 (if nonempty (wf_batch_values w) then wf_batch_values w else None)
                 None).
  destruct (task_loop_ok (length (tasks w)) (concat vss) (tasks w) Hok
              (set_definition (Some doc0) w) doc0 eq_refl) as (tds & Hloop & HF).
  set (doc1 := add_tasks tds doc0) in *.
  set (doc := if truthy (callback w)
              then mkDoc (doc_tasks doc1) (doc_name doc1) (doc_batch_values doc1)
                         (Some (callback w))
              else doc1).
  exists doc, (set_definition (Some doc) w).
  assert (Htasks : doc_tasks doc = tds).
  { unfold doc. destruct (truthy (callback w)); reflexivity. }
  split; [|split; [reflexivity|]].
  - unfold generate_workflow_description. unfold bind at 1, get at 1.
    rewrite match_nonempty by exact Hne.
    unfold bind at 1, modify at 1. fold doc0.
    unfold bind at 1, lift at 1. rewrite Hvss. cbv zeta.
    unfold bind at 1. rewrite Hloop.
    unfold bind at 1, doc.
    destruct (truthy (callback w)); destruct w; reflexivity.
  - rewrite Htasks. clear Hloop. apply (Forall2_impl _ _ _ _ HF).
    intros t td (Hi & Ho & excl & Hexcl & Htd).
    destruct (exclude_ok (length (tasks w)) (concat vss) t Ho)
      as (excl' & Hexcl' & Hin).
    assert (excl' = excl) by congruence. subst excl'.
    destruct (generate_task_workflow_json_ok excl t Hi Ho)
      as (td' & Htd' & Hname & Hlisted).
    assert (td' = td) by congruence. subst td'.
    split; [exact Hname|]. split; [intros p Hp; apply Hlisted, Hp|].
    intros p port Hp Hport listed reference.
    assert (Hdec : In p excl \/ ~ In p excl).
    { destruct (set_mem p excl) eqn:E;
        [left; apply set_mem_In|right; apply set_mem_not_In]; exact E. }
    split; [|split].
    + intros Hn Hm. unfold listed. rewrite Hlisted, <- Href.
      fold reference. split.
      * intros Hnot. destruct Hdec as [Hex|Hex]; [|tauto].
        apply Hin in Hex. destruct Hex as (_ & _ & _ & Hfalse).
        fold reference in Hfalse. congruence.
      * intros Hnot [_ Hex]. apply Hex, Hin.
        split; [exact Hn|]. split; [exact Hp|]. split; [exists port; auto|].
        fold reference. destruct (str_in reference (concat vss)); congruence.
    + intros Hn Hm. apply Hlisted. split; [exact Hp|].
      intros Hex. apply Hin in Hex.
      destruct Hex as (_ & _ & (port' & Hport' & Hm') & _). congruence.
    + intros Hn. apply Hlisted. split; [exact Hp|].
      intros Hex. apply Hin in Hex. lia.
Qed.

Ltac concrete_ports_ok :=
  split; [vm_compute; reflexivity|];
  let n := fresh "n" in
  let Hn := fresh "Hn" in
  intros n Hn; vm_compute in Hn;
  repeat (destruct Hn as [<-|Hn]; [eexists; vm_compute; reflexivity|]);
  destruct Hn.

Lemma multiplex_outputs_pruned_witness :
  exists doc w',
    generate_workflow_description Sample.two_tasks_wired = (Ok doc, w') /\
    wf_definition w' = Some doc /\
    length (doc_tasks doc) = 2%nat.
Proof.
  destruct (multiplex_outputs_pruned Sample.two_tasks_wired) as (doc & w' & H1 & H2 & H3).
  - discriminate.
  - intros t [<-|[<-|[]]]; split; concrete_ports_ok.
  - exists doc, w'. split; [exact H1|]. split; [exact H2|].
    apply Forall2_length in H3. rewrite <- H3. reflexivity.
Defined.

(** The three situations of C1 on the sample tasks: the multiplex port
    [data] of the first task is dropped when nothing refers to it, kept
    when the second task reads from it, and kept in a workflow of one
    task; [data1], created on reading, is always listed. *)
Example pruning_on_samples :
  let names w :=
    try! doc := fst (generate_workflow_description w) in
    Ok (map (fun td => map o_name (td_outputs td)) (doc_tasks doc)) in
  names Sample.two_tasks = Ok [["data1"]; ["data"; "log"]] /\
  names Sample.two_tasks_wired = Ok [["data"; "data1"]; ["data"; "log"]] /\
  names Sample.one_task = Ok [["data"; "data1"]].
Proof. repeat split; vm_compute; reflexivity. Qed.

(** ** The collections of a constructed task *)

Lemma portnames_eq (self : gmap string slot) L :
  self !! "_portnames" = Some (SNames L) -> portnames self = L.
Proof. intros H. unfold portnames. rewrite H. reflexivity. Qed.

Lemma ports_ok_intro (self : gmap string slot) L :
  self !! "_portnames" = Some (SNames L) ->
  (forall n, In n L -> exists port, self !! n = Some (SVal (VPort port))) ->
  ports_ok self.
Proof.
  intros H1 H2. unfold ports_ok. rewrite (portnames_eq _ _ H1). auto.
Qed.

Lemma ports_ok_not_names (self : gmap string slot) k :
  ports_ok self -> In k (portnames self) -> k <> "_portnames".
Proof.
  intros [H1 H2] Hin ->. destruct (H2 _ Hin) as (port & Hp). congruence.
Qed.

(** Replacing the port under a registered name. *)
Lemma ports_ok_insert (self : gmap string slot) k port :
  ports_ok self -> In k (portnames self) ->
  ports_ok (<[k := SVal (VPort port)]> self).
Proof.
  intros Hok Hin. pose proof (ports_ok_not_names _ _ Hok Hin) as Hne.
  destruct Hok as [H1 H2].
  apply (ports_ok_intro _ (portnames self)).
  - rewrite lookup_insert_ne by congruence. exact H1.
  - intros n Hn. destruct (decide (k = n)) as [->|Hkn].
    + exists port. apply lookup_insert_eq.
    + rewrite lookup_insert_ne by exact Hkn. apply H2, Hn.
Qed.

Lemma In_set_add k x l : In x (set_add k l) <-> x = k \/ In x l.
Proof.
  unfold set_add. destruct (set_mem k l) eqn:E.
  - apply set_mem_In in E. split; [auto|intros [->|H]; auto].
  - rewrite in_app_iff. simpl. split; [intros [H|[H|[]]]; auto|intros [H|H]; auto].
Qed.

(** Registering a new name with its port. *)
Lemma ports_ok_add (self : gmap string slot) k port :
  ports_ok self -> k <> "_portnames" ->
  ports_ok (<["_portnames" := SNames (set_add k (portnames self))]>
              (<[k := SVal (VPort port)]> self)).
Proof.
  intros [H1 H2] Hne.
  apply (ports_ok_intro _ (set_add k (portnames self))).
  - apply lookup_insert_eq.
  - intros n Hn. apply In_set_add in Hn.
    destruct (decide (n = k)) as [->|Hnk].
    + exists port. rewrite lookup_insert_ne by congruence. apply lookup_insert_eq.
    + destruct Hn as [?|Hn]; [contradiction|].
      destruct (H2 n Hn) as (p & Hp). exists p.
      assert (n <> "_portnames") by (intros ->; congruence).
      rewrite lookup_insert_ne by congruence.
      rewrite lookup_insert_ne by congruence. exact Hp.
Qed.

(** Under the invariant the search for a multiplex template does not
    raise. *)
Lemma get_matching_multiplex_port_ok (self : gmap string slot) k L :
  self !! "_portnames" = Some (SNames L) ->
  (forall p a, In p L -> self !! p = Some a -> exists port, a = SVal (VPort port)) ->
  exists r, get_matching_multiplex_port self k = Ok r.
Proof.
  intros Hn Hp. unfold get_matching_multiplex_port, rbind, object_getattribute.
  rewrite Hn. simpl.
  destruct (rmap_names_ok (matching_port self k) (fun _ _ => True) L) as (ms & Hms & _).
  - intros p Hin. unfold matching_port, hasattr, rbind, object_getattribute.
    destruct (self !! p) as [a|] eqn:E.
    + destruct (Hp p a Hin E) as (port & ->). simpl.
      destruct (startswith k p && negb (String.eqb k p) && true); eauto.
    + rewrite andb_false_r. eauto.
  - rewrite Hms. eauto.
Qed.

Lemma inputs_ok_insert (self : gmap string slot) k port :
  k <> "task" -> inputs_ok self -> In k (portnames self) ->
  inputs_ok (<[k := SVal (VPort port)]> self).
Proof.
  intros N [Ht Hok] Hin. split.
  - rewrite lookup_insert_ne by congruence. exact Ht.
  - apply ports_ok_insert; assumption.
Qed.

Lemma inputs_ok_add (self : gmap string slot) k port :
  ordinary_input k -> inputs_ok self ->
  inputs_ok (<["_portnames" := SNames (set_add k (portnames self))]>
               (<[k := SVal (VPort port)]> self)).
Proof.
  intros [N1 N2] [Ht Hok]. split.
  - rewrite lookup_insert_ne by discriminate.
    rewrite lookup_insert_ne by congruence. exact Ht.
  - apply ports_ok_add; assumption.
Qed.

(** Writing an ordinary name keeps the input collection in order,
    whether the write succeeds or raises. *)
Lemma Inputs_setattr_ok k v t :
  ordinary_input k -> inputs_ok (inputs t) ->
  inputs_ok (inputs (snd (Inputs___setattr__ k v t))).
Proof.
  intros [N1 N2] [Ht Hok]. pose proof Hok as [Hn Hp].
  unfold Inputs___setattr__.
  rewrite (eqb_ne _ _ N1), (eqb_ne _ _ N2).
  run. rewrite Hn. simpl.
  destruct (set_mem k (portnames (inputs t))) eqn:E; simpl.
  - apply set_mem_In in E. destruct (Hp k E) as (port & Hport). rewrite Hport.
    destruct v; simpl; try (apply inputs_ok_insert; [assumption|split; assumption|assumption]).
    rewrite lookup_insert_ne by congruence. rewrite Ht. simpl.
    destruct (batch_values t) as [[|]|]; simpl;
      (apply inputs_ok_insert; [assumption|split; assumption|assumption]).
  - destruct (get_matching_multiplex_port_ok (inputs t) k _ Hn) as (r & Hr).
    { intros p a Hin Ha. destruct (Hp p Hin) as (port & Hport).
      exists port. congruence. }
    rewrite Hr. destruct r as [mp|]; simpl.
    + rewrite lookup_insert_ne by congruence. rewrite Hn. simpl.
      apply inputs_ok_add; split; assumption.
    + split; assumption.
Qed.

Lemma for_each_invariant {S A} (P : S -> Prop) (Q : A -> Prop)
  (l : list A) (body : A -> M S unit) :
  (forall a s, Q a -> P s -> P (snd (body a s))) ->
  Forall Q l -> forall s, P s -> P (snd (for_each l body s)).
Proof.
  intros Hbody. induction 1 as [|a l Ha _ IH]; intros s Hs; simpl; [exact Hs|].
  unfold bind. pose proof (Hbody a s Ha Hs) as H.
  destruct (body a s) as [[[]|e] s']; simpl in *; [apply IH|]; exact H.
Qed.

Lemma Task_set_ok kwargs t :
  ordinary_kwargs kwargs -> inputs_ok (inputs t) ->
  inputs_ok (inputs (snd (Task_set kwargs t))).
Proof.
  intros Hk Ht. unfold Task_set.
  apply (for_each_invariant (fun t => inputs_ok (inputs t))
           (fun kv => ordinary_input (fst kv))); [|exact Hk|exact Ht].
  intros [k v] s Hkv Hs. apply Inputs_setattr_ok; assumption.
Qed.

(** *** Construction of the input collection *)

Lemma set_add_known k l : In k l -> set_add k l = l.
Proof. intros H. unfold set_add. apply set_mem_In in H. rewrite H. reflexivity. Qed.

Lemma booting_insert L done (self : gmap string slot) k port :
  ordinary_input k -> booting L done self ->
  booting L (k :: done) (<[k := SVal (VPort port)]> self).
Proof.
  intros [N1 N2] (Ht & Hn & Hp & Hd). split; [|split; [|split]].
  - rewrite lookup_insert_ne by congruence. exact Ht.
  - rewrite lookup_insert_ne by congruence. exact Hn.
  - intros p a Hin. destruct (decide (k = p)) as [->|Hkp].
    + rewrite lookup_insert_eq. intros [= <-]. eauto.
    + rewrite lookup_insert_ne by exact Hkp. apply Hp, Hin.
  - intros n [<-|Hin].
    + rewrite lookup_insert_eq. eauto.
    + destruct (decide (k = n)) as [->|Hkn].
      * rewrite lookup_insert_eq. eauto.
      * rewrite lookup_insert_ne by exact Hkn. apply Hd, Hin.
Qed.

(** One port of the schema goes through [Inputs.__setattr__]. *)
Lemma booting_step L done t k port :
  ordinary_input k -> In k L -> booting L done (inputs t) ->
  exists t',
    Inputs___setattr__ k (VPort port) t = (Ok tt, t') /\
    booting L (k :: done) (inputs t').
Proof.
  intros Hk Hin Hb. pose proof Hk as [N1 N2]. pose proof Hb as (Ht & Hn & Hp & Hd).
  unfold Inputs___setattr__.
  rewrite (eqb_ne _ _ N1), (eqb_ne _ _ N2).
  run. rewrite Hn. simpl.
  apply set_mem_In in Hin. rewrite Hin. simpl. apply set_mem_In in Hin.
  destruct (inputs t !! k) as [a|] eqn:Ea; simpl.
  - destruct (Hp k a Hin Ea) as (old & ->). simpl.
    eexists. split; [reflexivity|]. simpl. apply booting_insert; assumption.
  - destruct (get_matching_multiplex_port_ok (inputs t) k L Hn Hp) as (r & Hr).
    rewrite Hr. destruct r as [mp|]; simpl.
    + rewrite lookup_insert_ne by congruence. rewrite Hn. simpl.
      rewrite (set_add_known _ _ Hin).
      eexists. split; [reflexivity|]. simpl.
      pose proof (booting_insert L done (inputs t) k
                    (mkPort k (type mp) (required mp) (description mp)
                            (VPort port) true false None None) Hk Hb)
        as (H1 & H2 & H3 & H4).
      split; [|split; [|split]].
      * rewrite lookup_insert_ne by discriminate. exact H1.
      * apply lookup_insert_eq.
      * intros p a Hpin.
        assert (p <> "_portnames").
        { intros ->. destruct (Hp _ _ Hpin Hn) as (? & ?). discriminate. }
        rewrite lookup_insert_ne by congruence. apply H3, Hpin.
      * intros n Hn'. destruct (decide (n = "_portnames")) as [->|Hne].
        -- rewrite lookup_insert_eq. eauto.
        -- rewrite lookup_insert_ne by congruence. apply H4, Hn'.
    + eexists. split; [reflexivity|]. simpl. apply booting_insert; assumption.
Qed.

Lemma booting_loop L (ports : list descriptor) : forall done t,
  Forall (fun p => ordinary_input (d_name p) /\ In (d_name p) L) ports ->
  booting L done (inputs t) ->
  exists t',
    for_each ports (fun p =>
      Inputs___setattr__ (d_name p)
        (VPort (mkPort (d_name p) (d_type p) (d_required p) (d_description p)
                       VNone true (d_multiplex p) None None))) t = (Ok tt, t') /\
    booting L (rev (map d_name ports) ++ done)%list (inputs t').
Proof.
  induction ports as [|p ports IH]; intros done t HF Hb.
  - exists t. split; [reflexivity|exact Hb].
  - inversion HF as [|? ? [Hk Hin] HF']; subst.
    destruct (booting_step L done t (d_name p)
                (mkPort (d_name p) (d_type p) (d_required p) (d_description p)
                        VNone true (d_multiplex p) None None) Hk Hin Hb)
      as (t1 & H1 & Hb1).
    destruct (IH (d_name p :: done) t1 HF' Hb1) as (t' & H' & Hb').
    exists t'. split.
    + simpl. unfold bind. rewrite H1. exact H'.
    + simpl. rewrite <- app_assoc. exact Hb'.
Qed.

Lemma In_set_of_list x l : In x (set_of_list l) <-> In x l.
Proof.
  induction l as [|y l IH]; simpl; [tauto|].
  rewrite filter_In, IH, negb_true_iff, String.eqb_neq.
  destruct (decide (y = x)); tauto.
Qed.

Lemma PortList_init_ok ports t :
  inputs t = ∅ ->
  Forall (fun p => ordinary_input (d_name p)) ports ->
  exists t',
    PortList___init__ ports t = (Ok tt, t') /\ inputs_ok (inputs t').
Proof.
  intros Hempty Hord. unfold PortList___init__.
  set (L := set_of_list (map d_name ports)).
  unfold bind at 1, modify at 1. unfold bind at 1, modify at 1.
  set (t0 := set_inputs _ (set_inputs _ t)).
  assert (N : forall k, In k L -> ordinary_input k).
  { intros k Hk. apply In_set_of_list, in_map_iff in Hk.
    destruct Hk as (p & <- & Hp). apply (proj1 (List.Forall_forall _ _) Hord p Hp). }
  destruct (booting_loop L ports [] t0) as (t' & Hloop & Hb).
  - apply List.Forall_forall. intros p Hp. split.
    + apply (proj1 (List.Forall_forall _ _) Hord p Hp).
    + apply In_set_of_list, in_map, Hp.
  - unfold t0. simpl. rewrite Hempty. split; [|split; [|split]].
    + rewrite lookup_insert_ne by discriminate. apply lookup_insert_eq.
    + apply lookup_insert_eq.
    + intros p a Hp. destruct (N p Hp) as [N1 N2].
      rewrite lookup_insert_ne by congruence.
      rewrite lookup_insert_ne by congruence.
      rewrite lookup_empty. discriminate.
    + intros k [].
  - exists t'. split; [exact Hloop|].
    destruct Hb as (Ht & Hn & Hp & Hd). split; [exact Ht|].
    apply (ports_ok_intro _ L Hn). intros n Hin.
    destruct (Hd n) as (a & Ha).
    { rewrite app_nil_r. apply in_rev. rewrite rev_involutive.
      apply In_set_of_list. exact Hin. }
    destruct (Hp n a Hin Ha) as (port & ->). eauto.
Qed.

(** *** The output collection *)

Lemma out_booting_loop task_name L (ports : list descriptor) : forall done self,
  Forall (fun p => ordinary_output (d_name p)) ports ->
  out_booting task_name L done self ->
  exists self',
    for_each ports (fun p =>
      let! self := get in
      let! tn := lift (object_getattribute self "_task_name") in
      let! tn := lift (as_str tn) in
      object_setattr (d_name p)
        (SVal (VPort (mkPort (d_name p) (d_type p) (d_required p) (d_description p)
                             (VStr ("source:" +:+ tn +:+ ":" +:+ d_name p))
                             false (d_multiplex p) None None)))) self
    = (Ok tt, self') /\
    out_booting task_name L (rev (map d_name ports) ++ done)%list self'.
Proof.
  induction ports as [|p ports IH]; intros done self HF Hb.
  - exists self. split; [reflexivity|exact Hb].
  - inversion HF as [|? ? [N1 N2] HF']; subst.
    destruct Hb as (Ht & Hn & Hd).
    set (port := mkPort (d_name p) (d_type p) (d_required p) (d_description p)
                        (VStr ("source:" +:+ task_name +:+ ":" +:+ d_name p))
                        false (d_multiplex p) None None).
    destruct (IH (d_name p :: done) (<[d_name p := SVal (VPort port)]> self) HF')
      as (self' & H' & Hb').
    { split; [|split].
      - rewrite lookup_insert_ne by congruence. exact Ht.
      - rewrite lookup_insert_ne by congruence. exact Hn.
      - intros k Hk. destruct (decide (d_name p = k)) as [<-|Hne].
        + exists port. rewrite lookup_insert_eq. split; reflexivity.
        + rewrite lookup_insert_ne by exact Hne.
          destruct Hk as [?|Hk]; [contradiction|]. apply Hd, Hk. }
    exists self'. split.
    + simpl. unfold bind at 1. unfold bind at 1, get at 1.
      unfold bind at 1, lift at 1, object_getattribute. rewrite Ht.
      unfold bind at 1, lift at 1. simpl as_str. cbv iota.
      unfold object_setattr at 1, modify at 1. exact H'.
    + simpl. rewrite <- app_assoc. exact Hb'.
Qed.

Lemma Outputs_init_ok ports task_name :
  Forall (fun p => ordinary_output (d_name p)) ports ->
  exists self,
    Outputs___init__ ports task_name ∅ = (Ok tt, self) /\ out_ok task_name self.
Proof.
  intros Hord. unfold Outputs___init__.
  set (L := set_of_list (map d_name ports)).
  unfold bind at 1, object_setattr at 1, modify at 1.
  unfold bind at 1, object_setattr at 1, modify at 1.
  destruct (out_booting_loop task_name L ports []
              (<["_portnames" := SNames L]> (<["_task_name" := SVal (VStr task_name)]> ∅))
              Hord) as (self & Hloop & Ht & Hn & Hd).
  { split; [|split].
    - rewrite lookup_insert_ne by discriminate. apply lookup_insert_eq.
    - apply lookup_insert_eq.
    - intros k []. }
  exists self. split; [exact Hloop|].
  assert (Hall : forall k, In k L ->
            exists port, self !! k = Some (SVal (VPort port)) /\
                         value port = VStr ("source:" +:+ task_name +:+ ":" +:+ k)).
  { intros k Hk. apply Hd. rewrite app_nil_r. apply in_rev. rewrite rev_involutive.
    apply In_set_of_list. exact Hk. }
  split; [|split].
  - apply (ports_ok_intro _ L Hn). intros n Hin.
    destruct (Hall n Hin) as (port & Hp & _). eauto.
  - exact Ht.
  - rewrite (portnames_eq _ _ Hn). intros k port Hk Hp.
    destruct (Hall k Hk) as (port' & Hp' & Hv). congruence.
Qed.

(** Reading an output keeps the output collection in order. *)
Lemma Outputs_getattribute_ok task_name k self :
  out_ok task_name self ->
  out_ok task_name (snd (Outputs___getattribute__ k self)).
Proof.
  intros Hok. pose proof Hok as ((Hn & Hp) & Ht & Hv).
  unfold Outputs___getattribute__. unfold bind at 1, get at 1.
  destruct (String.eqb k "_portnames" || String.eqb k "_task_name"
            || String.eqb k "get_matching_multiplex_port" || startswith k "__") eqn:E.
  - exact Hok.
  - apply orb_false_elim in E as [E _]. apply orb_false_elim in E as [E _].
    apply orb_false_elim in E as [E1 E2].
    apply String.eqb_neq in E1. apply String.eqb_neq in E2.
    run. rewrite Hn. simpl.
    destruct (set_mem k (portnames self)) eqn:Em; simpl.
    + destruct (self !! k); exact Hok.
    + destruct (get_matching_multiplex_port_ok self k _ Hn) as (r & Hr).
      { intros p a Hin Ha. destruct (Hp p Hin) as (port & Hport).
        exists port. congruence. }
      rewrite Hr. destruct r as [mp|]; simpl.
      * rewrite Ht. simpl. rewrite lookup_insert_ne by congruence.
        rewrite Hn. simpl. unfold object_setattr, modify.
        set (port := mkPort _ _ _ _ _ _ _ _ _).
        split; [|split].
        -- apply ports_ok_add; [split; assumption|exact E1].
        -- rewrite lookup_insert_ne by discriminate.
           rewrite lookup_insert_ne by congruence. exact Ht.
        -- rewrite (portnames_eq _ (set_add k (portnames self)))
             by apply lookup_insert_eq.
           intros n q Hin. apply In_set_add in Hin.
           assert (n <> "_portnames").
           { intros ->. destruct Hin as [?|Hin]; [congruence|].
             destruct (Hp _ Hin) as (? & ?). congruence. }
           rewrite lookup_insert_ne by congruence.
           destruct (decide (k = n)) as [<-|Hkn].
           ++ rewrite lookup_insert_eq. intros [= <-]. reflexivity.
           ++ rewrite lookup_insert_ne by exact Hkn.
              destruct Hin as [?|Hin]; [congruence|]. apply Hv, Hin.
      * destruct (self !! k); exact Hok.
Qed.

(** *** Constructed tasks and what the operations keep *)

Lemma preserves_eq {S X A} (f : S -> X) (m : M S A) s r s' :
  preserves f m -> m s = (r, s') -> f s' = f s.
Proof. intros H E. specialize (H s). rewrite E in H. exact H. Qed.

Lemma Task_set_task_ok kwargs t :
  ordinary_kwargs kwargs -> task_ok t -> task_ok (snd (Task_set kwargs t)).
Proof.
  intros Hk [Hi Ho]. split.
  - apply Task_set_ok; assumption.
  - unfold outputs_ok.
    rewrite (Task_set_preserves outputs kwargs Inputs_setattr_outputs t).
    rewrite (Task_set_preserves task_name kwargs Inputs_setattr_name t).
    exact Ho.
Qed.

(** A task built from a definition with ordinary port names, with
    ordinary keyword arguments, has both collections in order. *)
Lemma Task_init_ok ty uuid defn kwargs t :
  ordinary_definition defn -> ordinary_kwargs kwargs ->
  Task___init__ ty uuid defn kwargs = Ok t ->
  task_ok t /\ task_name t = replace (ty +:+ "_" +:+ uuid) ":" "_".
Proof.
  intros [Hin Hout] Hk H.
  destruct (Task_init_stages _ _ _ _ _ H) as (t1 & t2 & H1 & H2 & H3).
  cbv zeta in *.
  set (nm := replace (ty +:+ "_" +:+ uuid) ":" "_") in *.
  set (self := mkTask nm ty _ _ _ _ _ _) in *.
  destruct (PortList_init_ok (inputPortDescriptors defn) self eq_refl Hin)
    as (t1' & H1' & Hi1).
  assert (t1' = t1) by congruence. subst t1'.
  assert (Ho1 : outputs t1 = ∅).
  { apply (preserves_eq outputs _ _ _ _
             (PortList_init_preserves outputs _
                (fun i t => match t with mkTask _ _ _ _ _ _ _ _ => eq_refl end)
                Inputs_setattr_outputs) H1). }
  assert (Hn1 : task_name t1 = nm).
  { apply (preserves_eq task_name _ _ _ _
             (PortList_init_preserves task_name _
                (fun i t => match t with mkTask _ _ _ _ _ _ _ _ => eq_refl end)
                Inputs_setattr_name) H1). }
  destruct (Outputs_init_ok (outputPortDescriptors defn) nm Hout) as (o & Ho & Hok).
  unfold zoom in H2. rewrite Ho1, Ho in H2. injection H2 as <-.
  assert (Hok3 : task_ok (set_impersonation VNone
                            (set_batch_values None (set_outputs o t1)))).
  { split; [exact Hi1|]. unfold outputs_ok. simpl. rewrite Hn1. exact Hok. }
  pose proof (Task_set_task_ok kwargs _ Hk Hok3) as Hfinal.
  rewrite H3 in Hfinal. simpl in Hfinal. split; [exact Hfinal|].
  rewrite (preserves_eq task_name _ _ _ _
             (Task_set_preserves task_name kwargs Inputs_setattr_name) H3).
  exact Hn1.
Qed.

Lemma run_op_ok op t : ordinary_op op -> task_ok t -> task_ok (snd (run_op op t)).
Proof.
  intros Hop Hok. destruct op as [kwargs|k v|k|z|v]; simpl in *.
  - apply Task_set_task_ok; assumption.
  - destruct Hok as [Hi Ho]. split.
    + apply Inputs_setattr_ok; assumption.
    + unfold outputs_ok. rewrite (Inputs_setattr_outputs k v t).
      rewrite (Inputs_setattr_name k v t). exact Ho.
  - destruct Hok as [Hi Ho]. unfold Task_output, bind, zoom.
    pose proof (Outputs_getattribute_ok (task_name t) k (outputs t) Ho) as H.
    destruct (Outputs___getattribute__ k (outputs t)) as [[a|e] o]; simpl in *;
      (split; [exact Hi|exact H]).
  - unfold timeout_set. destruct (_ && _); exact Hok.
  - unfold impersonation_allowed_set. destruct v as [|[]| | | | |]; exact Hok.
Qed.

(** Every task reached from a construction through ordinary operations
    has both collections in order. *)
Lemma exec_ops_ok ops : forall t,
  Forall ordinary_op ops -> task_ok t -> task_ok (exec_ops ops t).
Proof.
  induction ops as [|op ops IH]; intros t HF Hok; simpl; [exact Hok|].
  inversion HF; subst. apply IH; [assumption|]. apply run_op_ok; assumption.
Qed.

(** ** The serialised inputs and the rule of the specification *)

Lemma contains_cons c s old :
  contains (String c s) old = String.prefix old (String c s) || contains s old.
Proof. reflexivity. Qed.

Lemma replace_go_cons old new c s :
  replace_go old new 0 (String c s) =
    if String.prefix old (String c s)
    then new +:+ replace_go old new (Nat.pred (String.length old)) s
    else String c (replace_go old new 0 s).
Proof. reflexivity. Qed.

Lemma replace_go_clean old s :
  contains s old = false -> replace_go old "" 0 s = s.
Proof.
  induction s as [|c s IH]; intros H; [reflexivity|].
  rewrite contains_cons in H. apply orb_false_elim in H as [H1 H2].
  rewrite replace_go_cons, H1, IH by exact H2. reflexivity.
Qed.

Lemma prefix_of_app p r : String.prefix p (p +:+ r) = true.
Proof.
  induction p as [|a p IH]; simpl; [destruct r; reflexivity|].
  destruct (ascii_dec a a); [exact IH|congruence].
Qed.

Lemma replace_go_source r :
  replace_go "source:" "" 0 ("source:" +:+ r) = replace_go "source:" "" 0 r.
Proof.
  change ("source:" +:+ r) with (String "s" ("ource:" +:+ r)).
  rewrite replace_go_cons.
  change (String "s" ("ource:" +:+ r)) with ("source:" +:+ r).
  rewrite prefix_of_app. reflexivity.
Qed.

Lemma prefix_split p : forall s,
  String.prefix p s = true -> s = p +:+ drop_chars (String.length p) s.
Proof.
  induction p as [|a p IH]; intros s H; [reflexivity|].
  destruct s as [|b s]; [discriminate|]. simpl in H.
  destruct (ascii_dec a b) as [->|]; [|discriminate].
  change (String b s = String b (p +:+ drop_chars (String.length p) s)).
  f_equal. apply IH, H.
Qed.

Lemma replace_source_prefix s :
  startswith s "source:" = true ->
  contains (drop_chars 7 s) "source:" = false ->
  replace s "source:" "" = drop_chars 7 s.
Proof.
  intros Hp Hc. unfold startswith in Hp.
  rewrite (prefix_split _ _ Hp) at 1. change (String.length "source:") with 7%nat.
  unfold replace. rewrite replace_go_source. apply replace_go_clean, Hc.
Qed.

(** The code agrees with the rule of the specification on every value
    that has no second ["source:"]. *)
Lemma input_entry_as_claimed (self : gmap string slot) n port :
  self !! n = Some (SVal (VPort port)) ->
  single_source (value port) ->
  input_entry self (VStr n) = Ok (claimed_input_entry n (value port)).
Proof.
  intros H Hs. rewrite (input_entry_port _ _ _ H). f_equal.
  unfold claimed_input_entry. destruct (value port) as [|[]|z|s|l|l|p]; try reflexivity.
  destruct (startswith s "source:") eqn:E; [|reflexivity].
  rewrite (replace_source_prefix s E (Hs s eq_refl E)). reflexivity.
Qed.

Lemma rmap_inv {A B} (f : A -> res B) l : forall ys,
  rmap f l = Ok ys -> Forall2 (fun x y => f x = Ok y) l ys.
Proof.
  induction l as [|x l IH]; simpl; intros ys H.
  - injection H as <-. constructor.
  - unfold rbind in H. destruct (f x) as [y|e] eqn:E; [|discriminate].
    destruct (rmap f l) as [ys'|e]; [|discriminate].
    injection H as <-. constructor; [exact E|apply IH; reflexivity].
Qed.

(** The entries of the serialised inputs are what the loop yields for
    the registered names. *)
Lemma serialised_inputs exclude t td :
  ports_ok (inputs t) ->
  generate_task_workflow_json exclude t = Ok td ->
  forall e, In e (td_inputs td) <->
    exists n, In n (portnames (inputs t)) /\
              input_entry (inputs t) (VStr n) = Ok (Some e).
Proof.
  intros [Hn _] H e. unfold generate_task_workflow_json in H.
  unfold rbind at 1, object_getattribute at 1 in H. rewrite Hn in H.
  unfold rbind at 1 in H. simpl py_iter in H.
  unfold rbind at 1 in H.
  destruct (rmap (input_entry (inputs t)) (map VStr (portnames (inputs t))))
    as [ins|] eqn:Eins; [|discriminate].
  apply rmap_inv in Eins.
  repeat match type of H with
         | rbind ?x _ = _ => destruct x; [unfold rbind at 1 in H|discriminate]
         end.
  unfold rbind in H.
  repeat match type of H with
         | match ?x with Ok _ => _ | Raise _ => _ end = _ =>
             destruct x; [|discriminate]
         end.
  injection H as <-. simpl. rewrite In_somes. split.
  - intros Hin. destruct (Forall2_In_r _ _ _ _ Eins Hin) as (v & Hv & Hf).
    apply in_map_iff in Hv. destruct Hv as (n & <- & Hn'). eauto.
  - intros (n & Hn' & Hf).
    destruct (Forall2_In_l _ _ _ _ Eins (in_map VStr _ _ Hn')) as (o & Ho & Hf').
    simpl in Hf'. rewrite Hf in Hf'. injection Hf' as <-. exact Ho.
Qed.

(** ** Wiring an output into an input *)

(** What [B.set(x=A.outputs.y)] does for declared ports: the port object
    is unwrapped to its reference string, which lands on [x]; the entry
    of [x] is a source, the reference with every ["source:"] removed,
    hence [<A.name>:y] when neither name contains ["source:"]. *)
Lemma wiring_declared_ports A B x y :
  outputs_ok A -> inputs_ok (inputs B) ->
  In y (portnames (outputs A)) -> In x (portnames (inputs B)) ->
  let reference := "source:" +:+ task_name A +:+ ":" +:+ y in
  exists port old,
    Task_output y A = (Ok (SVal (VPort port)), A) /\
    value port = VStr reference /\
    inputs B !! x = Some (SVal (VPort old)) /\
    let B' := set_inputs (<[x := SVal (VPort (set_value (VStr reference) old))]>
                            (inputs B)) B in
    Task_set [(x, VPort port)] B = (Ok tt, B') /\
    input_entry (inputs B') (VStr x) =
      Ok (Some (InSource x (replace reference "source:" ""))) /\
    (contains (task_name A +:+ ":" +:+ y) "source:" = false ->
     replace reference "source:" "" = task_name A +:+ ":" +:+ y).
Proof.
  intros ((Hno & Hpo) & Htn & Hval) (Hown & Hok) Hy Hx reference.
  pose proof Hok as [Hni Hpi].
  destruct (Hpo y Hy) as (port & Hport). destruct (Hpi x Hx) as (old & Hold).
  pose proof (Hval y port Hy Hport) as Hv.
  exists port, old. split; [|split; [exact Hv|split; [exact Hold|]]].
  - unfold Task_output, zoom, Outputs___getattribute__.
    unfold bind at 1, get at 1.
    assert (Hread : lift (object_getattribute (outputs A) y) (outputs A)
                    = (Ok (SVal (VPort port)), outputs A)).
    { unfold lift, object_getattribute. rewrite Hport. reflexivity. }
    destruct (_ || _).
    + rewrite Hread. destruct A; reflexivity.
    + unfold bind at 1, lift at 1, object_getattribute at 1. rewrite Hno.
      unfold bind at 1, lift at 1. simpl py_in.
      apply set_mem_In in Hy. rewrite Hy. rewrite Hread. destruct A; reflexivity.
  - cbv zeta. destruct (port_not_internal _ _ _ _ _ Hold Hown eq_refl Hni) as [N1 N2].
    split; [|split].
    + unfold Task_set. simpl for_each. unfold bind at 1.
      unfold Inputs___setattr__. rewrite (eqb_ne _ _ N1), (eqb_ne _ _ N2).
      run. rewrite Hni. simpl. apply set_mem_In in Hx. rewrite Hx, Hold. simpl.
      rewrite Hv. reflexivity.
    + simpl inputs.
      rewrite (input_entry_port _ x (set_value (VStr reference) old))
        by apply lookup_insert_eq.
      simpl value. unfold startswith, reference. rewrite prefix_of_app. reflexivity.
    + intros Hc. apply (replace_source_prefix reference); [|exact Hc].
      apply prefix_of_app.
Qed.

(** ** Names of the ports of an input collection *)

Lemma Inputs_setattr_effect k v t L :
  ordinary_input k ->
  inputs t !! "_portnames" = Some (SNames L) ->
  (forall p a, In p L -> inputs t !! p = Some a -> exists port, a = SVal (VPort port)) ->
  write_effect k v L (inputs t) (inputs (snd (Inputs___setattr__ k v t))).
Proof.
  intros [N1 N2] Hn Hp.
  unfold Inputs___setattr__.
  rewrite (eqb_ne _ _ N1), (eqb_ne _ _ N2).
  run. rewrite Hn. simpl.
  destruct (set_mem k L) eqn:E; simpl.
  - apply set_mem_In in E.
    destruct (inputs t !! k) as [a|] eqn:Ea; simpl.
    + destruct (Hp k a E Ea) as (old & ->). simpl.
      destruct v; simpl; try (apply WeValue; assumption).
      rewrite lookup_insert_ne by congruence.
      destruct (inputs t !! "task") as [[| |]|]; simpl;
        try (apply WeValue; assumption).
      destruct (batch_values t) as [[|]|]; simpl; apply WeValue; assumption.
    + destruct (get_matching_multiplex_port_ok (inputs t) k L Hn Hp) as (r & Hr).
      rewrite Hr. destruct r as [mp|]; simpl.
      * rewrite lookup_insert_ne by congruence. rewrite Hn. simpl.
        apply WeCreate. reflexivity.
      * apply WeInit; assumption.
  - destruct (get_matching_multiplex_port_ok (inputs t) k L Hn Hp) as (r & Hr).
    rewrite Hr. destruct r as [mp|]; simpl.
    + rewrite lookup_insert_ne by congruence. rewrite Hn. simpl.
      apply WeCreate. reflexivity.
    + apply WeNone.
Qed.

Lemma write_effect_names k v L self self' :
  ordinary_input k ->
  self !! "_portnames" = Some (SNames L) ->
  (In k L -> self !! k = None -> forall port, v = VPort port -> name port = k) ->
  write_effect k v L self self' ->
  (forall n port, In n L -> self !! n = Some (SVal (VPort port)) -> name port = n) ->
  forall n port,
    In n (portnames self') -> self' !! n = Some (SVal (VPort port)) -> name port = n.
Proof.
  intros [N1 N2] Hn Hv He Hm. destruct He as [|old v' Hin Hold|new Hname|Hin Hnone].
  - rewrite (portnames_eq _ _ Hn). exact Hm.
  - rewrite (portnames_eq _ L) by (rewrite lookup_insert_ne by congruence; exact Hn).
    intros n port Hnin. destruct (decide (k = n)) as [<-|Hkn].
    + rewrite lookup_insert_eq. intros [= <-]. apply (Hm k old Hin Hold).
    + rewrite lookup_insert_ne by exact Hkn. apply Hm, Hnin.
  - rewrite (portnames_eq _ (set_add k L)) by apply lookup_insert_eq.
    intros n port Hnin. apply In_set_add in Hnin.
    destruct (decide (n = "_portnames")) as [->|Hnp].
    + rewrite lookup_insert_eq. discriminate.
    + rewrite lookup_insert_ne by congruence.
      destruct (decide (k = n)) as [<-|Hkn].
      * rewrite lookup_insert_eq. intros [= <-]. exact Hname.
      * rewrite lookup_insert_ne by exact Hkn.
        destruct Hnin as [?|Hnin]; [congruence|]. apply Hm, Hnin.
  - rewrite (portnames_eq _ L) by (rewrite lookup_insert_ne by congruence; exact Hn).
    intros n port Hnin. destruct (decide (k = n)) as [<-|Hkn].
    + rewrite lookup_insert_eq. intros [= ->]. apply (Hv Hin Hnone). reflexivity.
    + rewrite lookup_insert_ne by exact Hkn. apply Hm, Hnin.
Qed.

(** After the construction every registered input name holds a port of
    that name, and a write of an ordinary name keeps it so: the ports
    [Inputs] creates from a multiplex template carry the name they are
    registered under. *)
Lemma Inputs_setattr_names k v t :
  ordinary_input k -> inputs_ok (inputs t) -> names_match (inputs t) ->
  names_match (inputs (snd (Inputs___setattr__ k v t))).
Proof.
  intros Hk (_ & Hn & Hp) Hm. unfold names_match.
  refine (write_effect_names k v (portnames (inputs t)) (inputs t) _ Hk Hn _ _ Hm).
  - intros Hin Hnone. destruct (Hp k Hin) as (port & Hport). congruence.
  - apply Inputs_setattr_effect; [exact Hk|exact Hn|].
    intros p a Hin Ha. destruct (Hp p Hin) as (port & Hport). exists port. congruence.
Qed.

Lemma booting_names L (ports : list descriptor) : forall done t t',
  Forall (fun p => ordinary_input (d_name p) /\ In (d_name p) L) ports ->
  booting L done (inputs t) ->
  (forall n port, In n L -> inputs t !! n = Some (SVal (VPort port)) -> name port = n) ->
  for_each ports (fun p =>
    Inputs___setattr__ (d_name p)
      (VPort (mkPort (d_name p) (d_type p) (d_required p) (d_description p)
                     VNone true (d_multiplex p) None None))) t = (Ok tt, t') ->
  forall n port, In n L -> inputs t' !! n = Some (SVal (VPort port)) -> name port = n.
Proof.
  induction ports as [|p ports IH]; intros done t t' HF Hb Hm Hrun.
  - injection Hrun as <-. exact Hm.
  - inversion HF as [|? ? [Hk Hin] HF']; subst.
    destruct (booting_step L done t (d_name p)
                (mkPort (d_name p) (d_type p) (d_required p) (d_description p)
                        VNone true (d_multiplex p) None None) Hk Hin Hb)
      as (t1 & H1 & Hb1).
    simpl in Hrun. unfold bind in Hrun. rewrite H1 in Hrun.
    apply (IH _ t1 t' HF' Hb1); [|exact Hrun].
    destruct Hb as (_ & Hn & Hp & _).
    pose proof (Inputs_setattr_effect (d_name p)
                  (VPort (mkPort (d_name p) (d_type p) (d_required p) (d_description p)
                                 VNone true (d_multiplex p) None None))
                  t L Hk Hn Hp) as He.
    rewrite H1 in He. simpl in He.
    assert (Hv : In (d_name p) L -> inputs t !! d_name p = None ->
                 forall q,
                   VPort (mkPort (d_name p) (d_type p) (d_required p) (d_description p)
                                 VNone true (d_multiplex p) None None) = VPort q ->
                   name q = d_name p).
    { intros _ _ q [= <-]. reflexivity. }
    pose proof (write_effect_names _ _ _ _ _ Hk Hn Hv He Hm) as Hm1.
    destruct Hb1 as (_ & Hn1 & _).
    rewrite (portnames_eq _ _ Hn1) in Hm1. exact Hm1.
Qed.

Lemma PortList_init_names ports t t' :
  inputs t = ∅ ->
  Forall (fun p => ordinary_input (d_name p)) ports ->
  PortList___init__ ports t = (Ok tt, t') ->
  names_match (inputs t').
Proof.
  intros Hempty Hord. unfold PortList___init__.
  set (L := set_of_list (map d_name ports)).
  unfold bind at 1, modify at 1. unfold bind at 1, modify at 1.
  set (t0 := set_inputs _ (set_inputs _ t)). intros Hrun.
  assert (N : forall k, In k L -> ordinary_input k).
  { intros k Hk. apply In_set_of_list, in_map_iff in Hk.
    destruct Hk as (p & <- & Hp). apply (proj1 (List.Forall_forall _ _) Hord p Hp). }
  assert (Hb0 : booting L [] (inputs t0)).
  { unfold t0. simpl. rewrite Hempty. split; [|split; [|split]].
    - rewrite lookup_insert_ne by discriminate. apply lookup_insert_eq.
    - apply lookup_insert_eq.
    - intros p a Hp. destruct (N p Hp) as [N1 N2].
      rewrite lookup_insert_ne by congruence.
      rewrite lookup_insert_ne by congruence.
      rewrite lookup_empty. discriminate.
    - intros k []. }
  assert (HF : Forall (fun p => ordinary_input (d_name p) /\ In (d_name p) L) ports).
  { apply List.Forall_forall. intros p Hp. split.
    - apply (proj1 (List.Forall_forall _ _) Hord p Hp).
    - apply In_set_of_list, in_map, Hp. }
  destruct (booting_loop L ports [] t0 HF Hb0) as (t1 & Hloop & Hb).
  assert (t1 = t') by congruence. subst t1.
  destruct Hb as (_ & Hn & _).
  unfold names_match. rewrite (portnames_eq _ _ Hn).
  apply (booting_names L ports [] t0 t' HF Hb0); [|exact Hrun].
  intros n port Hin. destruct (N n Hin) as [N1 N2]. unfold t0. simpl. rewrite Hempty.
  rewrite lookup_insert_ne by congruence.
  rewrite lookup_insert_ne by congruence.
  rewrite lookup_empty. discriminate.
Qed.

Lemma Task_set_names kwargs t :
  ordinary_kwargs kwargs ->
  inputs_ok (inputs t) /\ names_match (inputs t) ->
  names_match (inputs (snd (Task_set kwargs t))).
Proof.
  intros Hk Ht. unfold Task_set.
  apply (for_each_invariant
           (fun t => inputs_ok (inputs t) /\ names_match (inputs t))
           (fun kv => ordinary_input (fst kv))); [|exact Hk|exact Ht].
  intros [k v] s Hkv [Hs Hm]. split.
  - apply Inputs_setattr_ok; assumption.
  - apply Inputs_setattr_names; assumption.
Qed.

Lemma run_op_names op t :
  ordinary_op op -> inputs_ok (inputs t) -> names_match (inputs t) ->
  names_match (inputs (snd (run_op op t))).
Proof.
  intros Hop Hi Hm. destruct op as [kwargs|k v|k|z|v]; simpl in *.
  - apply Task_set_names; auto.
  - apply Inputs_setattr_names; assumption.
  - unfold Task_output, bind, zoom.
    destruct (Outputs___getattribute__ k (outputs t)) as [[a|e] o]; exact Hm.
  - unfold timeout_set. destruct (_ && _); exact Hm.
  - unfold impersonation_allowed_set. destruct v as [|[]| | | | |]; exact Hm.
Qed.

(** The half of C6 that holds: in the input collection of every task
    reached from a construction through ordinary operations, each
    registered name holds a port of that name. *)
Lemma reachable_input_names ty uuid defn kwargs t0 ops :
  ordinary_definition defn -> ordinary_kwargs kwargs -> Forall ordinary_op ops ->
  Task___init__ ty uuid defn kwargs = Ok t0 ->
  task_ok (exec_ops ops t0) /\ names_match (inputs (exec_ops ops t0)).
Proof.
  intros Hd Hk Hops H.
  destruct (Task_init_ok _ _ _ _ _ Hd Hk H) as [Hok0 _].
  assert (Hm0 : names_match (inputs t0)).
  { destruct (Task_init_stages _ _ _ _ _ H) as (t1 & t2 & H1 & H2 & H3).
    cbv zeta in *. destruct Hd as [Hin Hout].
    match type of H1 with
    | PortList___init__ _ ?self = _ =>
        pose proof (PortList_init_names _ self t1 eq_refl Hin H1) as Hm1;
        destruct (PortList_init_ok (inputPortDescriptors defn) self eq_refl Hin)
          as (t1' & H1' & Hi1)
    end.
    rewrite H1 in H1'. injection H1' as <-.
    unfold zoom in H2. destruct (Outputs___init__ _ _ _) as [r o].
    injection H2 as _ <-.
    pose proof (Task_set_names kwargs
                  (set_impersonation VNone (set_batch_values None (set_outputs o t1)))
                  Hk (conj Hi1 Hm1)) as Hfinal.
    rewrite H3 in Hfinal. exact Hfinal. }
  clear H. revert t0 Hok0 Hm0.
  induction Hops as [|op ops Hop _ IH]; intros t Hok Hm; simpl; [auto|].
  apply IH.
  - apply run_op_ok; assumption.
  - apply run_op_names; [assumption|apply Hok|assumption].
Qed.

(** * Further properties *)

(** ** The search for a multiplex template *)

Lemma matching_port_shape (self : gmap string slot) k p port :
  self !! p = Some (SVal (VPort port)) ->
  matching_port self k (VStr p) =
    Ok (if startswith k p && negb (String.eqb k p) && is_multiplex port
        then Some port else None).
Proof.
  intros H. unfold matching_port, hasattr, rbind, object_getattribute. rewrite H.
  simpl. rewrite andb_true_r.
  destruct (startswith k p && negb (String.eqb k p)); simpl; [|reflexivity].
  destruct (is_multiplex port); reflexivity.
Qed.

Lemma head_somes_None {A} (l : list (option A)) :
  head (somes l) = None <-> forall x, ~ In (Some x) l.
Proof.
  induction l as [|[a|] l IH]; simpl.
  - split; [intros _ x []|reflexivity].
  - split; [discriminate|intros H; destruct (H a); left; reflexivity].
  - rewrite IH. split.
    + intros H x [E|Hin]; [discriminate|apply (H x Hin)].
    + intros H x Hin. apply (H x). right. exact Hin.
Qed.

Lemma head_somes_Some {A} (l : list (option A)) x :
  head (somes l) = Some x -> In (Some x) l.
Proof.
  induction l as [|[a|] l IH]; simpl.
  - discriminate.
  - intros [= ->]. left. reflexivity.
  - intros H. right. apply IH, H.
Qed.

Lemma matching_template (self : gmap string slot) (k : string) :
  ports_ok self ->
  exists r,
    get_matching_multiplex_port self k = Ok r /\
    (forall mp, r = Some mp -> exists p, is_template self k p mp) /\
    (r = None <-> forall p port, ~ is_template self k p port).
Proof.
  intros [Hn Hp]. unfold get_matching_multiplex_port, rbind, object_getattribute.
  rewrite Hn. simpl.
  destruct (rmap_names_ok (matching_port self k)
              (fun p o => exists port, self !! p = Some (SVal (VPort port)) /\
                 o = if startswith k p && negb (String.eqb k p) && is_multiplex port
                     then Some port else None)
              (portnames self)) as (ms & Hms & HF).
  { intros p Hin. destruct (Hp p Hin) as (port & Hport).
    eexists. split; [apply (matching_port_shape _ _ _ _ Hport)|]. eauto. }
  rewrite Hms. eexists. split; [reflexivity|]. split.
  - intros mp Hhead. apply head_somes_Some in Hhead.
    destruct (Forall2_In_r _ _ _ _ HF Hhead) as (p & Hin & port & Hport & Ho).
    destruct (startswith k p) eqn:E1; [|discriminate].
    destruct (String.eqb k p) eqn:E2; [discriminate|].
    destruct (is_multiplex port) eqn:E3; [|discriminate].
    simpl in Ho. injection Ho as ->. exists p.
    apply String.eqb_neq in E2. repeat split; auto.
  - rewrite head_somes_None. split.
    + intros Hnone p port (Hin & Hport & Hm & Hs & Hne).
      destruct (Forall2_In_l _ _ _ _ HF Hin) as (o & Ho & port' & Hport' & Hshape).
      assert (port' = port) by congruence. subst port'.
      rewrite Hs, Hm in Hshape.
      assert (E : String.eqb k p = false) by (apply String.eqb_neq; congruence).
      rewrite E in Hshape. simpl in Hshape. subst o. apply (Hnone port Ho).
    + intros Hnone mp Hin.
      destruct (Forall2_In_r _ _ _ _ HF Hin) as (p & Hpin & port & Hport & Ho).
      destruct (startswith k p) eqn:E1; [|discriminate].
      destruct (String.eqb k p) eqn:E2; [discriminate|].
      destruct (is_multiplex port) eqn:E3; [|discriminate].
      apply String.eqb_neq in E2.
      apply (Hnone p port). repeat split; auto.
Qed.

(** X1.  On a collection whose registered names are ports,
    [get_matching_multiplex_port] does not raise; a port it returns is
    registered under a name that is a proper prefix of the requested one
    and is flagged multiplex; and it returns [None] exactly when there is
    no such port. *)
Theorem matching_multiplex_port_found (self : gmap string slot) (k : string) :
  ports_ok self ->
  exists r,
    get_matching_multiplex_port self k = Ok r /\
    (forall mp, r = Some mp -> exists p, is_template self k p mp) /\
    (r = None <-> forall p port, ~ is_template self k p port).
Proof. exact (matching_template self k). Qed.

Lemma matching_multiplex_port_found_witness :
  exists mp,
    get_matching_multiplex_port (inputs Sample.gdal_task) "data_7" = Ok (Some mp) /\
    name mp = "data" /\
    get_matching_multiplex_port (inputs Sample.gdal_task) "command_7" = Ok None.
Proof.
  destruct (matching_multiplex_port_found (inputs Sample.gdal_task) "data_7")
    as (r & Hr & Hsome & _).
  { concrete_ports_ok. }
  destruct r as [mp|]; [|vm_compute in Hr; discriminate Hr].
  exists mp. split; [exact Hr|]. split.
  - vm_compute in Hr. injection Hr as <-. reflexivity.
  - vm_compute. reflexivity.
Defined.

(** ** Reading output ports *)

(** What a read does to the dictionary: nothing, or it registers the
    name with a new port and returns that port. *)
Lemma Outputs_getattribute_effect k (self : gmap string slot) :
  ports_ok self ->
  snd (Outputs___getattribute__ k self) = self \/
  exists tn p mp,
    internal_name k = false /\ ~ In k (portnames self) /\
    self !! "_task_name" = Some (SVal (VStr tn)) /\
    is_template self k p mp /\
    let port := mkPort (name mp) (type mp) (required mp) (description mp)
                       (VStr ("source:" +:+ tn +:+ ":" +:+ k))
                       false false None None in
    Outputs___getattribute__ k self =
      (Ok (SVal (VPort port)),
       <["_portnames" := SNames (set_add k (portnames self))]>
         (<[k := SVal (VPort port)]> self)).
Proof.
  intros Hok. pose proof Hok as [Hn Hp].
  unfold Outputs___getattribute__. unfold bind at 1, get at 1.
  fold (internal_name k). destruct (internal_name k) eqn:Ei.
  - left. reflexivity.
  - unfold bind at 1, lift at 1, object_getattribute at 1. rewrite Hn.
    unfold bind at 1, lift at 1. simpl py_in.
    destruct (set_mem k (portnames self)) eqn:Em.
    + left. reflexivity.
    + pose proof Em as Em'. apply set_mem_not_In in Em.
      destruct (matching_template self k Hok) as (r & Hr & Hsome & _).
      unfold bind at 1. unfold bind at 1, lift at 1. rewrite Hr.
      destruct r as [mp|].
      * destruct (Hsome mp eq_refl) as (p & Ht).
        unfold bind at 1, lift at 1, object_getattribute at 1.
        destruct (self !! "_task_name") as [a|] eqn:Etn; [|left; reflexivity].
        unfold bind at 1, lift at 1.
        destruct (as_str a) as [tn|e] eqn:Ea; [|left; reflexivity].
        right. exists tn, p, mp.
        assert (a = SVal (VStr tn)).
        { destruct a as [| |[]]; try discriminate. injection Ea as ->. reflexivity. }
        subst a. split; [reflexivity|]. split; [exact Em|]. split; [reflexivity|].
        split; [exact Ht|]. cbv zeta.
        assert (N : k <> "_portnames").
        { intros ->. discriminate Ei. }
        run. rewrite Hn. simpl. rewrite Em', Hr. simpl. rewrite Etn. simpl.
        unfold object_setattr, modify. simpl.
        rewrite lookup_insert_ne by congruence. rewrite Hn. simpl.
        rewrite lookup_insert_ne by congruence. rewrite lookup_insert_eq.
        reflexivity.
      * left. unfold ret. simpl. unfold bind, get, lift. reflexivity.
Qed.

(** X2.  Reading an output twice gives the same answer as reading it
    once, and the second read changes nothing: a port created from a
    multiplex template is created once. *)
Theorem output_read_twice k (self : gmap string slot) :
  ports_ok self ->
  Outputs___getattribute__ k (snd (Outputs___getattribute__ k self)) =
    (fst (Outputs___getattribute__ k self), snd (Outputs___getattribute__ k self)).
Proof.
  intros Hok. destruct (Outputs_getattribute_effect k self Hok) as [Hsame|Hnew].
  - rewrite Hsame. destruct (Outputs___getattribute__ k self) as [r s'] eqn:E.
    simpl in *. subst s'. reflexivity.
  - destruct Hnew as (tn & p & mp & Ei & Hnin & Htn & Ht & Hrun). cbv zeta in Hrun.
    rewrite Hrun. simpl fst. simpl snd.
    unfold Outputs___getattribute__. unfold bind at 1, get at 1.
    fold (internal_name k). rewrite Ei.
    assert (N : k <> "_portnames") by (intros ->; discriminate Ei).
    run. rewrite lookup_insert_eq. simpl.
    assert (Hm : set_mem k (set_add k (portnames self)) = true).
    { apply set_mem_In, In_set_add. left. reflexivity. }
    rewrite Hm. simpl. rewrite lookup_insert_ne by congruence.
    rewrite lookup_insert_eq. reflexivity.
Qed.

Lemma output_read_twice_witness :
  Outputs___getattribute__ "data1" (outputs Sample.gdal_read) =
    (fst (Outputs___getattribute__ "data1" (outputs Sample.gdal_task)),
     outputs Sample.gdal_read).
Proof.
  apply (output_read_twice "data1" (outputs Sample.gdal_task)).
  concrete_ports_ok.
Defined.


Lemma Outputs_getattribute_registered k (self : gmap string slot) port :
  self !! "_portnames" = Some (SNames (portnames self)) ->
  In k (portnames self) ->
  self !! k = Some (SVal (VPort port)) ->
  Outputs___getattribute__ k self = (Ok (SVal (VPort port)), self).
Proof.
  intros Hn Hin Hport. apply set_mem_In in Hin.
  unfold Outputs___getattribute__. unfold bind at 1, get at 1.
  destruct (_ || _).
  - unfold lift, object_getattribute. rewrite Hport. reflexivity.
  - run. rewrite Hn. simpl. rewrite Hin, Hport. reflexivity.
Qed.

Lemma set_outputs_same t : set_outputs (outputs t) t = t.
Proof. destruct t; reflexivity. Qed.





(** ** Writing and serialising input ports *)


Lemma Inputs_setattr_declared t k v port :
  inputs t !! "task" = Some SOwner ->
  inputs t !! "_portnames" = Some (SNames (portnames (inputs t))) ->
  In k (portnames (inputs t)) ->
  inputs t !! k = Some (SVal (VPort port)) ->
  exists t',
    Inputs___setattr__ k v t = (Ok tt, t') /\
    inputs t' = <[k := SVal (VPort (set_value (stored k v) port))]> (inputs t) /\
    outputs t' = outputs t /\ task_name t' = task_name t /\
    batch_values t' =
      match v with
      | VList values =>
          Some (default [] (batch_values t) ++ [mkBatch ("batch_input_" +:+ k) values])%list
      | _ => batch_values t
      end.
Proof.
  intros Ht Hn Hin Hk.
  destruct (port_not_internal _ _ _ _ _ Hk Ht eq_refl Hn) as [N1 N2].
  unfold Inputs___setattr__.
  rewrite (eqb_ne _ _ N1), (eqb_ne _ _ N2).
  run. rewrite Hn. simpl.
  apply set_mem_In in Hin. rewrite Hin, Hk. simpl.
  destruct v; simpl; try (eexists; split; [reflexivity|]; simpl; auto).
  rewrite lookup_insert_ne by congruence. rewrite Ht. simpl.
  eexists. split; [reflexivity|].
  destruct t as [n ty d to i o [[|b bs]|] imp]; simpl; auto.
Qed.



(** The first write to a name that a multiplex port prefixes. *)
Lemma Inputs_setattr_template (t : Task) (k : string) (v : pyval) :
  inputs_ok (inputs t) -> ordinary_input k ->
  ~ In k (portnames (inputs t)) ->
  (exists p mp, is_template (inputs t) k p mp) ->
  exists p mp t',
    is_template (inputs t) k p mp /\
    Inputs___setattr__ k v t = (Ok tt, t') /\
    inputs t' =
      <["_portnames" := SNames (portnames (inputs t) ++ [k])]>
        (<[k := SVal (VPort (mkPort k (type mp) (required mp) (description mp) v
                                    true false None None))]> (inputs t)) /\
    batch_values t' = batch_values t /\ outputs t' = outputs t.
Proof.
  intros (Ht & Hn & Hp) [N1 N2] Hnin (p0 & mp0 & Ht0).
  destruct (matching_template (inputs t) k (conj Hn Hp))
    as (r & Hr & Hsome & Hnone).
  destruct r as [mp|].
  2: { destruct (proj1 Hnone eq_refl p0 mp0 Ht0). }
  destruct (Hsome mp eq_refl) as (p & Htpl).
  exists p, mp. pose proof Hnin as Hmem. apply set_mem_not_In in Hmem.
  unfold Inputs___setattr__.
  rewrite (eqb_ne _ _ N1), (eqb_ne _ _ N2).
  run. rewrite Hn. simpl. rewrite Hmem. simpl. rewrite Hr. simpl.
  rewrite lookup_insert_ne by congruence. rewrite Hn. simpl.
  unfold set_add. rewrite Hmem.
  eexists. split; [exact Htpl|]. split; [reflexivity|]. simpl.
  split; [|split; reflexivity].
  apply map_eq. intros n.
  destruct (decide (n = "_portnames")) as [->|Hne].
  - rewrite !lookup_insert_eq. reflexivity.
  - rewrite !(lookup_insert_ne _ "_portnames") by congruence. reflexivity.
Qed.



Lemma Inputs_setattr_batch k v :
  (forall l, v <> VList l) -> preserves batch_values (Inputs___setattr__ k v).
Proof.
  intros Hv. unfold Inputs___setattr__.
  destruct v; try (frame; fail). destruct (Hv l eq_refl).
Qed.

(** A write changes no attribute but the written one and the set of
    names. *)
Lemma Inputs_setattr_other (t : Task) (k : string) (v : pyval) :
  inputs_ok (inputs t) -> ordinary_input k ->
  forall n, n <> k -> n <> "_portnames" ->
    inputs (snd (Inputs___setattr__ k v t)) !! n = inputs t !! n.
Proof.
  intros (Ht & Hn & Hp) Hk n Hnk Hnp. pose proof Hk as [N1 N2].
  assert (He : write_effect k v (portnames (inputs t)) (inputs t)
                 (inputs (snd (Inputs___setattr__ k v t)))).
  { apply Inputs_setattr_effect; [exact Hk|exact Hn|].
    intros p a Hin Ha. destruct (Hp p Hin) as (port & Hport). exists port. congruence. }
  destruct He as [|old v' Hin Hold|new Hname|Hin Hnone]; try reflexivity.
  - apply lookup_insert_ne. congruence.
  - rewrite lookup_insert_ne by congruence. apply lookup_insert_ne. congruence.
  - apply lookup_insert_ne. congruence.
Qed.

(** A write registers at most the written name and forgets none. *)
Lemma Inputs_setattr_portnames (t : Task) (k : string) (v : pyval) :
  inputs_ok (inputs t) -> ordinary_input k ->
  let t' := snd (Inputs___setattr__ k v t) in
  forall n, In n (portnames (inputs t')) <->
            In n (portnames (inputs t)) \/ (n = k /\ In k (portnames (inputs t'))).
Proof.
  intros (Ht & Hn & Hp) Hk t' n. pose proof Hk as [N1 N2].
  assert (He : write_effect k v (portnames (inputs t)) (inputs t) (inputs t')).
  { apply Inputs_setattr_effect; [exact Hk|exact Hn|].
    intros p a Hin Ha. destruct (Hp p Hin) as (port & Hport). exists port. congruence. }
  destruct He as [|old v' Hin Hold|new Hname|Hin Hnone].
  - split; [auto|intros [H|[-> H]]; exact H].
  - rewrite (portnames_eq _ (portnames (inputs t)))
      by (rewrite lookup_insert_ne by congruence; exact Hn).
    split; [auto|intros [H|[-> H]]; exact H].
  - rewrite (portnames_eq _ (set_add k (portnames (inputs t))))
      by apply lookup_insert_eq.
    rewrite !In_set_add. split.
    + intros [->|H]; [right; split; [reflexivity|left; reflexivity]|left; exact H].
    + intros [H|[-> _]]; [right; exact H|left; reflexivity].
  - rewrite (portnames_eq _ (portnames (inputs t)))
      by (rewrite lookup_insert_ne by congruence; exact Hn).
    split; [auto|intros [H|[-> H]]; exact H].
Qed.

(** X7.  A write to an input port of an ordinary name, whether it
    succeeds or raises, changes no other attribute of the input
    collection, neither forgets a registered name nor registers any but
    the written one, and leaves the outputs, the name, the timeout and
    the impersonation flag of the task alone; [batch_values] changes
    only when the value is a list. *)
Theorem input_write_frame (t : Task) (k : string) (v : pyval) :
  inputs_ok (inputs t) -> ordinary_input k ->
  let t' := snd (Inputs___setattr__ k v t) in
  (forall n, n <> k -> n <> "_portnames" -> inputs t' !! n = inputs t !! n) /\
  (forall n, In n (portnames (inputs t')) <->
             In n (portnames (inputs t)) \/ (n = k /\ In k (portnames (inputs t')))) /\
  outputs t' = outputs t /\ task_name t' = task_name t /\
  _timeout t' = _timeout t /\ _impersonation_allowed t' = _impersonation_allowed t /\
  ((forall l, v <> VList l) -> batch_values t' = batch_values t).
Proof.
  intros Hok Hk t'.
  split; [apply (Inputs_setattr_other t k v Hok Hk)|].
  split; [apply (Inputs_setattr_portnames t k v Hok Hk)|].
  split; [apply Inputs_setattr_outputs|].
  split; [apply Inputs_setattr_name|].
  split; [apply Inputs_setattr_timeout|].
  split; [apply Inputs_setattr_impersonation|].
  intros Hv. apply (Inputs_setattr_batch k v Hv).
Qed.

Lemma input_write_frame_witness :
  inputs (snd (Inputs___setattr__ "data" (VList [VInt 1]) Sample.aop_task))
    !! "enable_acomp" = inputs Sample.aop_task !! "enable_acomp" /\
  outputs (snd (Inputs___setattr__ "data" (VList [VInt 1]) Sample.aop_task))
    = outputs Sample.aop_task.
Proof.
  destruct (input_write_frame Sample.aop_task "data" (VList [VInt 1]))
    as (H1 & _ & H2 & _).
  - split; [vm_compute; reflexivity|concrete_ports_ok].
  - split; discriminate.
  - split; [apply H1; discriminate|exact H2].
Defined.

(** ** Constructed tasks *)





Lemma Task_init_fields ty uuid defn kwargs t :
  Task___init__ ty uuid defn kwargs = Ok t ->
  task_name t = replace (ty +:+ "_" +:+ uuid) ":" "_" /\
  task_type t = ty /\
  domain t = match container_domain defn with Some d => d | None => VStr "default" end.
Proof.
  intros H. destruct (Task_init_stages _ _ _ _ _ H) as (t1 & t2 & H1 & H2 & H3).
  cbv zeta in *.
  assert (F : forall X (f : Task -> X),
            (forall i t, f (set_inputs i t) = f t) ->
            (forall o t, f (set_outputs o t) = f t) ->
            (forall b t, f (set_batch_values b t) = f t) ->
            (forall v t, f (set_impersonation v t) = f t) ->
            (forall k v, preserves f (Inputs___setattr__ k v)) ->
            f t = f (mkTask (replace (ty +:+ "_" +:+ uuid) ":" "_") ty
                       (match container_domain defn with
                        | Some d => d | None => VStr "default" end)
                       (properties_timeout defn) ∅ ∅ None VNone)).
  { intros X f Fi Fo Fb Fimp Fset.
    rewrite (preserves_eq f _ _ _ _ (Task_set_preserves f kwargs Fset) H3).
    rewrite Fimp, Fb.
    unfold zoom in H2. destruct (Outputs___init__ _ _ _) as [r o].
    injection H2 as _ <-. rewrite Fo.
    apply (preserves_eq f _ _ _ _ (PortList_init_preserves f _ Fi Fset) H1). }
  split; [|split].
  - apply (F _ task_name); try (intros ? []; reflexivity). apply Inputs_setattr_name.
  - apply (F _ task_type); try (intros ? []; reflexivity).
    intros k v. unfold Inputs___setattr__. frame.
  - apply (F _ domain); try (intros ? []; reflexivity).
    intros k v. unfold Inputs___setattr__. frame.
Qed.



Lemma PortList_init_portnames ports t t' :
  inputs t = ∅ ->
  Forall (fun p => ordinary_input (d_name p)) ports ->
  PortList___init__ ports t = (Ok tt, t') ->
  portnames (inputs t') = set_of_list (map d_name ports).
Proof.
  intros Hempty Hord. unfold PortList___init__.
  set (L := set_of_list (map d_name ports)).
  unfold bind at 1, modify at 1. unfold bind at 1, modify at 1.
  set (t0 := set_inputs _ (set_inputs _ t)). intros Hrun.
  assert (N : forall k, In k L -> ordinary_input k).
  { intros k Hk. apply In_set_of_list, in_map_iff in Hk.
    destruct Hk as (p & <- & Hp). apply (proj1 (List.Forall_forall _ _) Hord p Hp). }
  destruct (booting_loop L ports [] t0) as (t1 & Hloop & Hb).
  - apply List.Forall_forall. intros p Hp. split.
    + apply (proj1 (List.Forall_forall _ _) Hord p Hp).
    + apply In_set_of_list, in_map, Hp.
  - unfold t0. simpl. rewrite Hempty. split; [|split; [|split]].
    + rewrite lookup_insert_ne by discriminate. apply lookup_insert_eq.
    + apply lookup_insert_eq.
    + intros p a Hp. destruct (N p Hp) as [N1 N2].
      rewrite lookup_insert_ne by congruence.
      rewrite lookup_insert_ne by congruence.
      rewrite lookup_empty. discriminate.
    + intros k [].
  - assert (t1 = t') by congruence. subst t1.
    destruct Hb as (_ & Hn & _). apply (portnames_eq _ _ Hn).
Qed.

Lemma Outputs_init_portnames ports task_name self :
  Forall (fun p => ordinary_output (d_name p)) ports ->
  Outputs___init__ ports task_name ∅ = (Ok tt, self) ->
  portnames self = set_of_list (map d_name ports).
Proof.
  intros Hord. unfold Outputs___init__.
  set (L := set_of_list (map d_name ports)).
  unfold bind at 1, object_setattr at 1, modify at 1.
  unfold bind at 1, object_setattr at 1, modify at 1.
  destruct (out_booting_loop task_name L ports []
              (<["_portnames" := SNames L]> (<["_task_name" := SVal (VStr task_name)]> ∅))
              Hord) as (self' & Hloop & Ht & Hn & Hd).
  { split; [|split].
    - rewrite lookup_insert_ne by discriminate. apply lookup_insert_eq.
    - apply lookup_insert_eq.
    - intros k []. }
  intros Hrun. assert (self' = self) by congruence. subst self'.
  apply (portnames_eq _ _ Hn).
Qed.

Lemma Task_set_portnames kwargs t :
  ordinary_kwargs kwargs -> inputs_ok (inputs t) ->
  let t' := snd (Task_set kwargs t) in
  (forall n, In n (portnames (inputs t)) -> In n (portnames (inputs t'))) /\
  (forall n, In n (portnames (inputs t')) ->
             In n (portnames (inputs t)) \/ In n (map fst kwargs)).
Proof.
  intros Hk Hok. cbv zeta. unfold Task_set.
  refine (let H := for_each_invariant
            (fun s => inputs_ok (inputs s) /\
               (forall n, In n (portnames (inputs t)) -> In n (portnames (inputs s))) /\
               (forall n, In n (portnames (inputs s)) ->
                          In n (portnames (inputs t)) \/ In n (map fst kwargs)))
            (fun kv => ordinary_input (fst kv) /\ In (fst kv) (map fst kwargs))
            kwargs _ _ _ t _ in proj2 H).
  - intros [k v] s [Hkv Hin] (Hs & Hlow & Hup). simpl in Hkv, Hin.
    pose proof (Inputs_setattr_portnames s k
                  (match v with VPort p => value p | _ => v end) Hs Hkv) as Hnames.
    cbv zeta in Hnames.
    split; [apply Inputs_setattr_ok; assumption|]. split.
    + intros n Hn. apply (proj2 (Hnames n)). left. apply Hlow, Hn.
    + intros n Hn. apply (proj1 (Hnames n)) in Hn. destruct Hn as [Hn|[-> _]].
      * apply Hup, Hn.
      * right. exact Hin.
  - apply List.Forall_forall. intros kv Hkv. split.
    + apply (proj1 (List.Forall_forall _ _) Hk kv Hkv).
    + apply in_map, Hkv.
  - split; [exact Hok|]. split; auto.
Qed.

(** The ports of a constructed task are the declared ones. *)
Lemma Task_init_ports ty uuid defn kwargs t :
  ordinary_definition defn -> ordinary_kwargs kwargs ->
  Task___init__ ty uuid defn kwargs = Ok t ->
  (forall n, In n (portnames (outputs t)) <->
             In n (map d_name (outputPortDescriptors defn))) /\
  (forall n, In n (portnames (outputs t)) ->
             is_value_of (outputs t) n (VStr ("source:" +:+ task_name t +:+ ":" +:+ n))) /\
  (forall n, In n (map d_name (inputPortDescriptors defn)) ->
             In n (portnames (inputs t))) /\
  (forall n, In n (portnames (inputs t)) ->
             In n (map d_name (inputPortDescriptors defn)) \/ In n (map fst kwargs)).
Proof.
  intros Hd Hk H. pose proof Hd as [Hin Hout].
  destruct (Task_init_ok _ _ _ _ _ Hd Hk H) as [[_ Hoko] Hname].
  destruct (Task_init_stages _ _ _ _ _ H) as (t1 & t2 & H1 & H2 & H3).
  cbv zeta in *.
  set (nm := replace (ty +:+ "_" +:+ uuid) ":" "_") in *.
  match type of H1 with
  | PortList___init__ _ ?self = _ =>
      pose proof (PortList_init_portnames _ self t1 eq_refl Hin H1) as Hnames1;
      destruct (PortList_init_ok (inputPortDescriptors defn) self eq_refl Hin)
        as (t1' & H1' & Hi1);
      pose proof (preserves_eq outputs _ _ _ _
                    (PortList_init_preserves outputs _
                       (fun i t => match t with mkTask _ _ _ _ _ _ _ _ => eq_refl end)
                       Inputs_setattr_outputs) H1) as Ho1
  end.
  rewrite H1 in H1'. injection H1' as <-. simpl in Ho1.
  destruct (Outputs_init_ok (outputPortDescriptors defn) nm Hout) as (o & Ho & _).
  pose proof (Outputs_init_portnames _ _ _ Hout Ho) as Hnameso.
  unfold zoom in H2. rewrite Ho1, Ho in H2. injection H2 as <-.
  set (t3 := set_impersonation VNone (set_batch_values None (set_outputs o t1))) in *.
  assert (Hout3 : outputs t = o).
  { apply (preserves_eq outputs _ _ _ _
             (Task_set_preserves outputs kwargs Inputs_setattr_outputs) H3). }
  pose proof (Task_set_portnames kwargs t3 Hk Hi1) as [Hlow Hup].
  rewrite H3 in Hlow, Hup. simpl in Hlow, Hup.
  change (inputs t3) with (inputs t1) in Hlow, Hup.
  split; [|split; [|split]].
  - intros n. rewrite Hout3, Hnameso. apply In_set_of_list.
  - intros n Hn. destruct Hoko as ((_ & Hp) & _ & Hval).
    destruct (Hp n Hn) as (port & Hport). exists port. split; [exact Hport|].
    apply (Hval n port Hn Hport).
  - intros n Hn. apply Hlow. rewrite Hnames1. apply In_set_of_list, Hn.
  - intros n Hn. destruct (Hup n Hn) as [Hn'|Hn']; [left|right; exact Hn'].
    rewrite Hnames1 in Hn'. apply In_set_of_list, Hn'.
Qed.

(** X9.  A task built from a definition with ordinary port names, with
    ordinary keyword arguments, registers exactly the declared output
    ports, each holding the reference [source:<task name>:<port name>],
    and registers all the declared input ports; an input name that was
    not declared comes from a keyword argument. *)
Theorem constructed_task_ports ty uuid defn kwargs t :
  ordinary_definition defn -> ordinary_kwargs kwargs ->
  Task___init__ ty uuid defn kwargs = Ok t ->
  (forall n, In n (portnames (outputs t)) <->
             In n (map d_name (outputPortDescriptors defn))) /\
  (forall n, In n (portnames (outputs t)) ->
             is_value_of (outputs t) n (VStr ("source:" +:+ task_name t +:+ ":" +:+ n))) /\
  (forall n, In n (map d_name (inputPortDescriptors defn)) ->
             In n (portnames (inputs t))) /\
  (forall n, In n (portnames (inputs t)) ->
             In n (map d_name (inputPortDescriptors defn)) \/ In n (map fst kwargs)).
Proof. exact (Task_init_ports ty uuid defn kwargs t). Qed.

Lemma constructed_task_ports_witness :
  In "log" (portnames (outputs Sample.aop_task)) /\
  In "enable_acomp" (portnames (inputs Sample.aop_task)).
Proof.
  destruct (constructed_task_ports "AOP_Strip_Processor" "0a1b2c3d" Sample.aop
              [("data", VStr "s3://bucket/in")] Sample.aop_task)
    as (H1 & _ & H3 & _).
  - split; repeat constructor; discriminate.
  - repeat constructor; discriminate.
  - vm_compute. reflexivity.
  - split; [apply H1|apply H3]; simpl; auto.
Defined.

(** ** Saving outputs *)

(** X10.  [persist] and [persist_location] can be set on output ports
    only: on an input port the setters and [savedata] change nothing and
    the getters answer [False] and [None]; on an output port each getter
    returns what its setter stored, and [savedata] sets [persist] to
    [True] and the location when one is given, keeping the location it
    had otherwise, and never touches the name or the value of the
    port. *)
Theorem persist_is_for_outputs (p : Port) (v location : pyval) :
  (is_input_port p = true ->
   persist_set v p = p /\ persist_location_set location p = p /\
   savedata location p = p /\
   persist p = VBool false /\ persist_location p = VNone) /\
  (is_input_port p = false ->
   persist (persist_set v p) = v /\
   persist_location (persist_location_set location p) = location /\
   persist (savedata location p) = VBool true /\
   persist_location (savedata location p) =
     (if truthy location then location else persist_location p) /\
   name (savedata location p) = name p /\ value (savedata location p) = value p /\
   is_multiplex (savedata location p) = is_multiplex p).
Proof.
  split; intros Hp.
  - unfold savedata, persist_set, persist_location_set, persist, persist_location.
    rewrite Hp. destruct (truthy location); rewrite ?Hp; auto.
  - unfold savedata, persist_set, persist_location_set, persist, persist_location.
    rewrite Hp. simpl. destruct (truthy location); simpl; rewrite ?Hp; simpl; auto 10.
Qed.

Lemma persist_is_for_outputs_witness :
  exists port,
    inputs Sample.aop_task !! "data" = Some (SVal (VPort port)) /\
    savedata (VStr "my/path") port = port /\ persist port = VBool false.
Proof.
  eexists. split; [vm_compute; reflexivity|].
  match goal with
  | |- savedata _ ?p = _ /\ _ =>
      destruct (persist_is_for_outputs p VNone (VStr "my/path")) as [H _];
      destruct (H eq_refl) as (_ & _ & H3 & H4 & _)
  end.
  split; [exact H3|exact H4].
Defined.

Lemma output_entry_port (self : gmap string slot) exclude n port :
  self !! n = Some (SVal (VPort port)) ->
  output_entry self exclude (VStr n) =
    Ok (if set_mem n exclude then None
        else Some (mkOut n (truthy (persist port))
                         (if truthy (persist_location port)
                          then Some (persist_location port) else None))).
Proof.
  intros H. unfold output_entry, rbind, object_getattribute.
  destruct (set_mem n exclude); [reflexivity|]. rewrite H. reflexivity.
Qed.

(** The entries of the serialised outputs are what the loop yields for
    the registered names. *)
Lemma serialised_outputs exclude t td :
  ports_ok (inputs t) -> ports_ok (outputs t) ->
  generate_task_workflow_json exclude t = Ok td ->
  forall e, In e (td_outputs td) <->
    exists n, In n (portnames (outputs t)) /\
              output_entry (outputs t) exclude (VStr n) = Ok (Some e).
Proof.
  intros [Hni Hpi] [Hno Hpo] H e. unfold generate_task_workflow_json in H.
  unfold rbind at 1, object_getattribute at 1 in H. rewrite Hni in H.
  unfold rbind at 1 in H. simpl py_iter in H.
  unfold rbind at 1 in H.
  destruct (rmap (input_entry (inputs t)) _) as [ins|]; [|discriminate].
  unfold rbind at 1, object_getattribute at 1 in H. rewrite Hno in H.
  unfold rbind at 1 in H. simpl py_iter in H.
  unfold rbind at 1 in H.
  destruct (rmap (output_entry (outputs t) exclude) _) as [outs|] eqn:Eouts;
    [|discriminate].
  apply rmap_inv in Eouts. injection H as <-. simpl. rewrite In_somes. split.
  - intros Hin. destruct (Forall2_In_r _ _ _ _ Eouts Hin) as (v & Hv & Hf).
    apply in_map_iff in Hv. destruct Hv as (n & <- & Hn'). eauto.
  - intros (n & Hn' & Hf).
    destruct (Forall2_In_l _ _ _ _ Eouts (in_map VStr _ _ Hn')) as (o & Ho & Hf').
    simpl in Hf'. rewrite Hf in Hf'. injection Hf' as <-. exact Ho.
Qed.

Lemma task_workflow_outputs_ok t :
  ports_ok (outputs t) ->
  exists l,
    task_workflow_outputs t = Ok l /\
    forall s, In s l <->
      exists k port,
        In k (portnames (outputs t)) /\ outputs t !! k = Some (SVal (VPort port)) /\
        truthy (persist port) = true /\ s = task_name t +:+ ":" +:+ k.
Proof.
  intros [Hn Hp]. unfold task_workflow_outputs, rbind at 1, object_getattribute at 1.
  rewrite Hn. unfold rbind at 1. simpl py_iter.
  destruct (rmap_names_ok (persisted_output t)
              (fun k o => exists port, outputs t !! k = Some (SVal (VPort port)) /\
                 o = if truthy (persist port)
                     then Some (task_name t +:+ ":" +:+ k) else None)
              (portnames (outputs t))) as (found & Hfound & HF).
  { intros k Hk. destruct (Hp k Hk) as (port & Hport). eexists.
    unfold persisted_output, rbind, object_getattribute. rewrite Hport. simpl.
    split; [reflexivity|]. exists port. auto. }
  unfold rbind. rewrite Hfound. eexists. split; [reflexivity|].
  intros s. rewrite In_somes. split.
  - intros Hin. destruct (Forall2_In_r _ _ _ _ HF Hin) as (k & Hk & port & Hport & Ho).
    destruct (truthy (persist port)) eqn:E; [|discriminate].
    injection Ho as ->. exists k, port. auto.
  - intros (k & port & Hk & Hport & Htrue & ->).
    destruct (Forall2_In_l _ _ _ _ HF Hk) as (o & Ho & port' & Hport' & ->).
    assert (port' = port) by congruence. subst port'. rewrite Htrue in Ho. exact Ho.
Qed.



Lemma savedata_on_output (p : Port) (location : pyval) :
  is_input_port p = false ->
  persist (savedata location p) = VBool true /\
  persist_location (savedata location p) =
    (if truthy location then location else persist_location p).
Proof.
  intros Hp.
  unfold savedata, persist_set, persist_location_set, persist, persist_location.
  rewrite Hp. simpl. destruct (truthy location); simpl; rewrite ?Hp; simpl; auto.
Qed.

(** X12.  [workflow.savedata(task.outputs.<k>, location)] on a
    registered output port: the call succeeds, touches nothing but that
    port, the task is then reported by [list_workflow_outputs] of a
    workflow that holds it, and its serialised outputs hold for [k] the
    entry with [persist: True] and, when a location was given, that
    [persistLocation]. *)
Theorem savedata_is_serialised (t : Task) (k : string) (location : pyval) (port : Port) :
  ports_ok (inputs t) -> ports_ok (outputs t) ->
  In k (portnames (outputs t)) ->
  outputs t !! k = Some (SVal (VPort port)) ->
  is_input_port port = false ->
  exists t',
    Task_savedata k location t = (Ok tt, t') /\
    inputs t' = inputs t /\
    outputs t' = <[k := SVal (VPort (savedata location port))]> (outputs t) /\
    (exists l, task_workflow_outputs t' = Ok l /\ In (task_name t +:+ ":" +:+ k) l) /\
    forall td, generate_task_workflow_json [] t' = Ok td ->
      forall e, In e (td_outputs td) /\ o_name e = k <->
        e = mkOut k true
              (if truthy location then Some location
               else if truthy (persist_location port)
                    then Some (persist_location port) else None).
Proof.
  intros Hoki Hoko Hin Hport Hout. pose proof Hoko as [Hn Hp].
  assert (N : k <> "_portnames") by (intros ->; congruence).
  set (port' := savedata location port).
  set (t' := set_outputs (<[k := SVal (VPort port')]> (outputs t)) t).
  assert (Hrun : Task_savedata k location t = (Ok tt, t')).
  { unfold Task_savedata, Task_output, bind, zoom.
    rewrite (Outputs_getattribute_registered k _ port Hn Hin Hport).
    rewrite set_outputs_same. reflexivity. }
  assert (Hoko' : ports_ok (outputs t')).
  { apply ports_ok_insert; assumption. }
  assert (Hnames : portnames (outputs t') = portnames (outputs t)).
  { apply portnames_eq. simpl. rewrite lookup_insert_ne by congruence. exact Hn. }
  assert (Hk' : outputs t' !! k = Some (SVal (VPort port'))) by apply lookup_insert_eq.
  destruct (savedata_on_output port location Hout) as (Hpersist & Hloc).
  exists t'. split; [exact Hrun|]. split; [reflexivity|]. split; [reflexivity|]. split.
  - destruct (task_workflow_outputs_ok t' Hoko') as (l & Hl & Hiff).
    exists l. split; [exact Hl|]. apply Hiff. exists k, port'.
    rewrite Hnames. split; [exact Hin|]. split; [exact Hk'|].
    split; [|reflexivity]. fold port' in Hpersist. rewrite Hpersist. reflexivity.
  - intros td Htd e.
    rewrite (serialised_outputs [] t' td Hoki Hoko' Htd e). split.
    + intros [(n & Hn' & He) Hname].
      destruct Hoko' as [_ Hp']. destruct (Hp' n Hn') as (q & Hq).
      rewrite (output_entry_port _ _ _ _ Hq) in He. simpl in He.
      injection He as <-. simpl in Hname. subst n.
      assert (q = port') by congruence. subst q.
      fold port' in Hpersist, Hloc. rewrite Hpersist, Hloc. simpl.
      destruct (truthy location) eqn:El; [rewrite El|]; reflexivity.
    + intros ->. split; [|reflexivity]. exists k. rewrite Hnames.
      split; [exact Hin|]. rewrite (output_entry_port _ _ _ _ Hk'). simpl.
      fold port' in Hpersist, Hloc. rewrite Hpersist, Hloc. simpl.
      destruct (truthy location) eqn:El; [rewrite El|]; reflexivity.
Qed.

Lemma savedata_is_serialised_witness :
  exists t' l,
    Task_savedata "log" (VStr "my/path") Sample.aop_task = (Ok tt, t') /\
    task_workflow_outputs t' = Ok l /\
    In "AOP_Strip_Processor_0a1b2c3d:log" l.
Proof.
  assert (Hport : exists port,
            outputs Sample.aop_task !! "log" = Some (SVal (VPort port)) /\
            is_input_port port = false).
  { eexists. split; [vm_compute; reflexivity|reflexivity]. }
  destruct Hport as (port & Hport & Hout).
  destruct (savedata_is_serialised Sample.aop_task "log" (VStr "my/path") port)
    as (t' & Hrun & _ & _ & (l & Hl & Hin) & _).
  - concrete_ports_ok.
  - concrete_ports_ok.
  - vm_compute. right. left. reflexivity.
  - exact Hport.
  - exact Hout.
  - exists t', l. split; [exact Hrun|]. split; [exact Hl|exact Hin].
Defined.

(** ** The description and its submission *)

Lemma json_fields exclude t td :
  generate_task_workflow_json exclude t = Ok td ->
  td_name td = task_name t /\ td_taskType td = task_type t /\
  td_timeout td = timeout t /\ td_domain td = domain t.
Proof.
  unfold generate_task_workflow_json, rbind.
  repeat match goal with
         | |- context [match ?x with Ok _ => _ | Raise _ => _ end] =>
             destruct x; [|discriminate]
         end.
  intros [= <-]. auto.
Qed.

Lemma generate_workflow_description_ok (w : Workflow) :
  tasks w <> [] ->
  (forall t, In t (tasks w) -> ports_ok (inputs t) /\ ports_ok (outputs t)) ->
  exists vss tds,
    rmap task_input_port_values (tasks w) = Ok vss /\
    Forall2 (record_of (length (tasks w)) (concat vss)) (tasks w) tds /\
    generate_workflow_description w =
      (Ok (description_of w tds), set_definition (Some (description_of w tds)) w).
Proof.
  intros Hne Hok.
  destruct (all_input_port_values_ok (tasks w)) as (vss & Hvss & Href).
  { intros t Ht. apply (Hok t Ht). }
  set (doc0 := mkDoc [] (wf_name w)
                 (if nonempty (wf_batch_values w) then wf_batch_values w else None)
                 None).
  destruct (task_loop_ok (length (tasks w)) (concat vss) (tasks w) Hok
              (set_definition (Some doc0) w) doc0 eq_refl) as (tds & Hloop & HF).
  exists vss, tds. split; [exact Hvss|]. split; [exact HF|].
  unfold generate_workflow_description. unfold bind at 1, get at 1.
  rewrite match_nonempty by exact Hne.
  unfold bind at 1, modify at 1. fold doc0.
  unfold bind at 1, lift at 1. rewrite Hvss. cbv zeta.
  unfold bind at 1. rewrite Hloop.
  unfold bind at 1, description_of.
  destruct (truthy (callback w)); destruct w; reflexivity.
Qed.

Lemma record_of_functional n all ts :
  forall tds tds',
    Forall2 (record_of n all) ts tds -> Forall2 (record_of n all) ts tds' -> tds = tds'.
Proof.
  induction ts as [|t ts IH]; intros tds tds' H H'.
  - inversion H; inversion H'; reflexivity.
  - inversion H as [|? td ? tds0 (_ & _ & excl & Hex & Htd) HF]; subst.
    inversion H' as [|? td' ? tds1 (_ & _ & excl' & Hex' & Htd') HF']; subst.
    f_equal; [congruence|apply IH; assumption].
Qed.

(** X13.  For a workflow with at least one task, whose tasks have their
    collections in order, the generated description carries the name of
    the workflow, its [batch_values] when there are any, its callback
    when one is set, and one record per task, in order, with the name,
    type, timeout and domain of the task; it is stored as [definition]
    and nothing else of the workflow changes; and generating again gives
    the same description, not a longer one. *)
Theorem description_header (w : Workflow) :
  tasks w <> [] ->
  (forall t, In t (tasks w) -> ports_ok (inputs t) /\ ports_ok (outputs t)) ->
  exists doc,
    generate_workflow_description w = (Ok doc, set_definition (Some doc) w) /\
    doc_name doc = wf_name w /\
    doc_batch_values doc =
      (if nonempty (wf_batch_values w) then wf_batch_values w else None) /\
    doc_callback doc = (if truthy (callback w) then Some (callback w) else None) /\
    Forall2 (fun t td =>
               td_name td = task_name t /\ td_taskType td = task_type t /\
               td_timeout td = timeout t /\ td_domain td = domain t)
            (tasks w) (doc_tasks doc) /\
    generate_workflow_description (set_definition (Some doc) w) =
      (Ok doc, set_definition (Some doc) w).
Proof.
  intros Hne Hok.
  destruct (generate_workflow_description_ok w Hne Hok) as (vss & tds & Hvss & HF & Hgen).
  exists (description_of w tds). split; [exact Hgen|].
  split; [reflexivity|]. split; [reflexivity|]. split; [reflexivity|]. split.
  - simpl. apply (Forall2_impl _ _ _ _ HF).
    intros t td (_ & _ & excl & _ & Htd). apply (json_fields _ _ _ Htd).
  - destruct (generate_workflow_description_ok (set_definition (Some (description_of w tds)) w)
                Hne Hok) as (vss' & tds' & Hvss' & HF' & Hgen').
    simpl tasks in *. rewrite Hvss in Hvss'. injection Hvss' as <-.
    assert (tds' = tds) by exact (record_of_functional _ _ _ _ _ HF' HF).
    subst tds'. rewrite Hgen'. destruct w; reflexivity.
Qed.

Lemma description_header_witness :
  exists doc,
    fst (generate_workflow_description Sample.two_tasks_wired) = Ok doc /\
    doc_name doc = "wf" /\ doc_callback doc = None /\
    map td_taskType (doc_tasks doc) = ["gdal-cli-multiplex"; "AOP_Strip_Processor"].
Proof.
  destruct (description_header Sample.two_tasks_wired) as (doc & Hgen & Hname & _ & Hcb & HF & _).
  - discriminate.
  - intros t [<-|[<-|[]]]; split; concrete_ports_ok.
  - exists doc. rewrite Hgen. split; [reflexivity|]. split; [exact Hname|].
    split; [exact Hcb|].
    inversion HF as [|t1 td1 ts1 tds1 (_ & Hty1 & _) HF1]; subst.
    inversion HF1 as [|t2 td2 ts2 tds2 (_ & Hty2 & _) HF2]; subst.
    inversion HF2; subst. simpl. rewrite Hty1, Hty2. reflexivity.
Defined.

(** ** Requests to the service *)

Lemma interp_ibind {A B} answer (m : itree A) (f : A -> itree B) :
  interp answer (ibind m f) = interp answer (f (interp answer m)).
Proof. induction m as [a|X e k IH]; simpl; [reflexivity|apply IH]. Qed.

Lemma trace_ibind {A B} answer (m : itree A) (f : A -> itree B) :
  trace answer (ibind m f) = (trace answer m ++ trace answer (f (interp answer m)))%list.
Proof.
  induction m as [a|X e k IH]; simpl; [reflexivity|]. f_equal. apply IH.
Qed.

Lemma execute_tree (w w' : Workflow) (doc : description_doc) :
  generate_workflow_description w = (Ok doc, w') ->
  execute w =
    Vis (if batch w' then launch_batch_workflow (wf_definition w')
         else launch (wf_definition w'))
        (fun r => match r with
                  | Ok id => Ret (Ok id, set_id id w')
                  | Raise e => Ret (Raise e, w')
                  end).
Proof.
  intros H. unfold execute, wbind at 1, local. rewrite H. simpl.
  unfold wbind at 1, wget. simpl. destruct (batch w'); reflexivity.
Qed.

(** X14.  [execute] on a workflow with at least one task, whose tasks
    have their collections in order, generates the description, stores
    it, and issues one request: [launch_batch_workflow] when the workflow
    has batch values, [launch] when it has none, with the description
    just generated.  The answer becomes the [id] of the workflow and the
    result; when the service raises, the exception goes through, the
    [id] stays as it was and the description stays stored. *)
Theorem execute_submits_once (w : Workflow) :
  tasks w <> [] ->
  (forall t, In t (tasks w) -> ports_ok (inputs t) /\ ports_ok (outputs t)) ->
  exists doc,
    generate_workflow_description w = (Ok doc, set_definition (Some doc) w) /\
    execute w =
      Vis (if batch w then launch_batch_workflow (Some doc) else launch (Some doc))
          (fun r => match r with
                    | Ok id => Ret (Ok id, set_id id (set_definition (Some doc) w))
                    | Raise e => Ret (Raise e, set_definition (Some doc) w)
                    end).
Proof.
  intros Hne Hok.
  destruct (generate_workflow_description_ok w Hne Hok) as (vss & tds & _ & _ & Hgen).
  exists (description_of w tds). split; [exact Hgen|].
  rewrite (execute_tree _ _ _ Hgen). reflexivity.
Qed.

Lemma execute_submits_once_witness :
  trace Service.answers (execute Sample.two_tasks_wired) = ["launch"] /\
  wf_id (snd (interp Service.answers (execute Sample.two_tasks_wired))) =
    VStr "4488969848362445219" /\
  wf_id (snd (interp (fun X (e : request X) => Raise KeyError)
                     (execute Sample.two_tasks_wired))) = VNone.
Proof.
  destruct (execute_submits_once Sample.two_tasks_wired) as (doc & _ & H).
  - discriminate.
  - intros t [<-|[<-|[]]]; split; concrete_ports_ok.
  - rewrite H. repeat split.
Defined.

(** ** A launched batch workflow *)

Lemma set_truthy w : truthy (wf_id w) = true -> unset w = false.
Proof. intros H. unfold unset. rewrite H. reflexivity. Qed.

Ltac launched Hid Hb :=
  unfold wbind, wget; simpl; rewrite (set_truthy _ Hid), ?Hb; reflexivity.

(** X15.  On a workflow that has an [id] and batch values, [task_ids],
    [events], [stdout], [stderr], [failed], [canceled], [timedout],
    [scheduling], [rescheduling], [waiting] and [submitting] raise
    [NotImplementedError] without a request to the service and without
    changing the workflow; [status], [cancel], [complete], [succeeded]
    and [running] issue one request, to the batch endpoint. *)
Theorem batch_not_supported (w : Workflow) :
  truthy (wf_id w) = true -> batch w = true ->
  (task_ids w =
     Ret (Raise (NotImplementedError
                   "Query Each Workflow Id within the Batch Workflow for task IDs."), w) /\
   events w =
     Ret (Raise (NotImplementedError
                   "Query Each Workflow Id within the Batch Workflow for Events"), w) /\
   stdout w =
     Ret (Raise (NotImplementedError
                   "Query Each Workflow Id within the Batch Workflow for stdout."), w) /\
   stderr w =
     Ret (Raise (NotImplementedError
                   "Query Each Workflow Id within the Batch Workflow for stderr."), w)) /\
  (forall p, In p [failed; canceled; timedout; scheduling; rescheduling; waiting; submitting] ->
     p w = Ret (Raise (NotImplementedError
                   "Query Each Workflow Id within the Batch Workflow for Current State"), w)) /\
  (forall answer,
     trace answer (status w) = ["batch_workflow_status"] /\
     trace answer (cancel w) = ["batch_workflow_cancel"] /\
     trace answer (complete w) = ["batch_workflow_status"] /\
     trace answer (succeeded w) = ["batch_workflow_status"] /\
     trace answer (running w) = ["batch_workflow_status"]).
Proof.
  intros Hid Hb. split; [|split].
  - unfold task_ids, events, stdout, stderr. repeat split; launched Hid Hb.
  - intros p Hp. simpl in Hp.
    repeat (destruct Hp as [<-|Hp];
            [unfold failed, canceled, timedout, scheduling, rescheduling, waiting,
               submitting; launched Hid Hb|]).
    destruct Hp.
  - intros answer.
    assert (Hs : status w = Vis (batch_workflow_status (wf_id w)) (fun r => Ret (r, w))).
    { unfold status. launched Hid Hb. }
    repeat split.
    + rewrite Hs. reflexivity.
    + unfold cancel, wbind, wget. simpl. rewrite (set_truthy _ Hid), Hb. reflexivity.
    + unfold complete, wbind at 1, wget. simpl. rewrite (set_truthy _ Hid), Hb.
      unfold wbind at 1. rewrite Hs. simpl.
      destruct (answer _ (batch_workflow_status (wf_id w))) as [[s e [ws|]]|]; reflexivity.
    + unfold succeeded, wbind at 1, wget. simpl. rewrite (set_truthy _ Hid), Hb.
      unfold wbind at 1. rewrite Hs. simpl.
      destruct (answer _ (batch_workflow_status (wf_id w))) as [[s e [ws|]]|]; reflexivity.
    + unfold running, wbind at 1, wget. simpl. rewrite (set_truthy _ Hid), Hb.
      unfold wbind at 1. rewrite Hs. simpl.
      destruct (answer _ (batch_workflow_status (wf_id w))) as [[s e [ws|]]|]; reflexivity.
Qed.

Lemma batch_not_supported_witness :
  stdout Service.batch_launched =
    Ret (Raise (NotImplementedError
                  "Query Each Workflow Id within the Batch Workflow for stdout."),
         Service.batch_launched) /\
  trace Service.answers (complete Service.batch_launched) = ["batch_workflow_status"].
Proof.
  destruct (batch_not_supported Service.batch_launched eq_refl eq_refl)
    as ((_ & _ & Hout & _) & _ & Htr).
  split; [exact Hout|]. apply (Htr Service.answers).
Defined.

(** ** The state of a launched workflow *)

Lemma status_tree w :
  truthy (wf_id w) = true -> batch w = false ->
  status w = Vis (workflow_status (wf_id w)) (fun r => Ret (r, w)).
Proof. intros Hid Hb. unfold status. launched Hid Hb. Qed.

Lemma state_and_event_interp answer w s e :
  truthy (wf_id w) = true -> batch w = false ->
  interp answer (state_and_event s e w) =
    (match answer _ (workflow_status (wf_id w)) with
     | Ok st =>
         match st_state st with
         | Some state =>
             if eq_str s state
             then match st_event st with
                  | Some ev => Ok (eq_str e ev)
                  | None => Raise KeyError
                  end
             else Ok false
         | None => Raise KeyError
         end
     | Raise x => Raise x
     end, w) /\
  trace answer (state_and_event s e w) = ["status"].
Proof.
  intros Hid Hb. unfold state_and_event, wbind.
  rewrite (status_tree w Hid Hb). simpl.
  destruct (answer _ (workflow_status (wf_id w))) as [[[state|] [ev|] ws]|x]; simpl;
    try (split; reflexivity);
    match goal with |- context [eq_str s ?st] => destruct (eq_str s st) end;
    split; reflexivity.
Qed.

Lemma event_while_pending_interp answer w e :
  truthy (wf_id w) = true -> batch w = false ->
  interp answer (event_while_pending e w) =
    (match answer _ (workflow_status (wf_id w)) with
     | Ok st =>
         match st_event st with
         | Some ev =>
             if eq_str e ev
             then match st_state st with
                  | Some state => Ok (pending_or_running state)
                  | None => Raise KeyError
                  end
             else Ok false
         | None => Raise KeyError
         end
     | Raise x => Raise x
     end, w) /\
  trace answer (event_while_pending e w) = ["status"].
Proof.
  intros Hid Hb. unfold event_while_pending, wbind.
  rewrite (status_tree w Hid Hb). simpl.
  destruct (answer _ (workflow_status (wf_id w))) as [[[state|] [ev|] ws]|x]; simpl;
    try (split; reflexivity);
    match goal with |- context [eq_str e ?ev] => destruct (eq_str e ev) end;
    split; reflexivity.
Qed.

Lemma complete_interp answer w :
  truthy (wf_id w) = true -> batch w = false ->
  interp answer (complete w) =
    (match answer _ (workflow_status (wf_id w)) with
     | Ok st =>
         match st_state st with
         | Some state => Ok (eq_str "complete" state)
         | None => Raise KeyError
         end
     | Raise x => Raise x
     end, w) /\
  trace answer (complete w) = ["status"].
Proof.
  intros Hid Hb. unfold complete, wbind, wget. simpl.
  rewrite (set_truthy _ Hid), Hb.
  rewrite (status_tree w Hid Hb). simpl.
  destruct (answer _ (workflow_status (wf_id w))) as [[[state|] ev ws]|x]; simpl;
    split; reflexivity.
Qed.

(** Each predicate of [lifecycle] is one of the two shapes. *)
Lemma lifecycle_shape w i p :
  truthy (wf_id w) = true -> batch w = false ->
  nth_error lifecycle i = Some p ->
  (i < 5)%nat /\
    p w = state_and_event (if (i <? 4)%nat then "complete" else "running")
                          (nth i lifecycle_events "") w \/
  (5 <= i)%nat /\ p w = event_while_pending (nth i lifecycle_events "") w.
Proof.
  intros Hid Hb Hp.
  do 9 (destruct i as [|i];
        [injection Hp as <-;
         first [left; split; [lia|] | right; split; [lia|]];
         unfold succeeded, failed, canceled, timedout, running, scheduling,
           rescheduling, waiting, submitting;
         launched Hid Hb|]).
  destruct i; discriminate.
Qed.

Lemma lifecycle_reported answer w i p :
  truthy (wf_id w) = true -> batch w = false ->
  nth_error lifecycle i = Some p -> holds answer p w ->
  exists st state,
    answer _ (workflow_status (wf_id w)) = Ok st /\
    st_event st = Some (VStr (nth i lifecycle_events "")) /\
    st_state st = Some state /\
    ((i < 4)%nat /\ state = VStr "complete" \/
     (4 <= i)%nat /\ state <> VStr "complete").
Proof.
  intros Hid Hb Hp H. unfold holds in H.
  destruct (lifecycle_shape w i p Hid Hb Hp) as [[Hi E]|[Hi E]]; rewrite E in H.
  - rewrite (proj1 (state_and_event_interp answer w _ _ Hid Hb)) in H. simpl in H.
    destruct (answer _ (workflow_status (wf_id w))) as [[[state|] [ev|] ws]|x];
      simpl in H; try discriminate;
      destruct (eq_str _ state) eqn:Es; try discriminate.
    injection H as H. apply eq_str_spec in H, Es. subst ev.
    exists (mkStatus (Some state) (Some (VStr (nth i lifecycle_events ""))) ws), state.
    repeat split. destruct (i <? 4)%nat eqn:E4.
    + left. apply Nat.ltb_lt in E4. split; [exact E4|exact Es].
    + right. apply Nat.ltb_ge in E4. split; [exact E4|]. rewrite Es. discriminate.
  - rewrite (proj1 (event_while_pending_interp answer w _ Hid Hb)) in H. simpl in H.
    destruct (answer _ (workflow_status (wf_id w))) as [[[state|] [ev|] ws]|x];
      simpl in H; try discriminate;
      destruct (eq_str _ ev) eqn:Ee; try discriminate.
    injection H as H. apply eq_str_spec in Ee. subst ev.
    exists (mkStatus (Some state) (Some (VStr (nth i lifecycle_events ""))) ws), state.
    repeat split. right. split; [lia|]. intros ->. discriminate.
Qed.

Lemma lifecycle_quiet answer w i p :
  truthy (wf_id w) = true -> batch w = false ->
  nth_error lifecycle i = Some p ->
  snd (interp answer (p w)) = w /\ trace answer (p w) = ["status"].
Proof.
  intros Hid Hb Hp.
  destruct (lifecycle_shape w i p Hid Hb Hp) as [[Hi E]|[Hi E]]; rewrite E.
  - destruct (state_and_event_interp answer w
                (if (i <? 4)%nat then "complete" else "running")
                (nth i lifecycle_events "") Hid Hb) as [-> ->].
    split; reflexivity.
  - destruct (event_while_pending_interp answer w (nth i lifecycle_events "") Hid Hb)
      as [-> ->].
    split; reflexivity.
Qed.

(** X16.  On a launched workflow without batch values, against a
    service that answers the same status each time: at most one of
    [succeeded], [failed], [canceled], [timedout], [running],
    [scheduling], [rescheduling], [waiting] and [submitting] is true;
    when one of the first four is true so is [complete], and when one of
    the other five is true [complete] is not.  Each of the ten issues one
    [status] request and leaves the workflow as it was. *)
Theorem lifecycle_exclusive answer (w : Workflow) :
  truthy (wf_id w) = true -> batch w = false ->
  (forall i j p q,
     nth_error lifecycle i = Some p -> nth_error lifecycle j = Some q ->
     holds answer p w -> holds answer q w -> i = j) /\
  (forall p, In p [succeeded; failed; canceled; timedout] ->
     holds answer p w -> holds answer complete w) /\
  (forall p, In p [running; scheduling; rescheduling; waiting; submitting] ->
     holds answer p w -> ~ holds answer complete w) /\
  (forall p, In p (complete :: lifecycle) ->
     snd (interp answer (p w)) = w /\ trace answer (p w) = ["status"]).
Proof.
  intros Hid Hb.
  assert (Hc : forall i p, nth_error lifecycle i = Some p -> holds answer p w ->
                 (holds answer complete w <-> (i < 4)%nat)).
  { intros i p Hp H.
    destruct (lifecycle_reported answer w i p Hid Hb Hp H)
      as (st & state & Est & _ & Es & Hs).
    unfold holds. rewrite (proj1 (complete_interp answer w Hid Hb)), Est, Es. simpl.
    split.
    - intros [= E]. apply eq_str_spec in E. destruct Hs as [[Hi _]|[_ N]]; [exact Hi|].
      destruct (N E).
    - intros Hi. destruct Hs as [[_ ->]|[Hi' _]]; [reflexivity|lia]. }
  split; [|split; [|split]].
  - intros i j p q Hp Hq H1 H2.
    destruct (lifecycle_reported answer w i p Hid Hb Hp H1) as (st & _ & Est & Ee & _).
    destruct (lifecycle_reported answer w j q Hid Hb Hq H2) as (st' & _ & Est' & Ee' & _).
    rewrite Est in Est'. injection Est' as <-. rewrite Ee in Ee'.
    injection Ee' as E. clear - Hp Hq E.
    do 9 (destruct i as [|i]; [do 9 (destruct j as [|j]; [first [reflexivity|discriminate]|]);
                               destruct j; discriminate|]).
    destruct i; discriminate.
  - intros p Hp H. simpl in Hp.
    destruct Hp as [<-|[<-|[<-|[<-|[]]]]].
    + apply (Hc 0%nat succeeded eq_refl H). lia.
    + apply (Hc 1%nat failed eq_refl H). lia.
    + apply (Hc 2%nat canceled eq_refl H). lia.
    + apply (Hc 3%nat timedout eq_refl H). lia.
  - intros p Hp H Hcomp. simpl in Hp.
    destruct Hp as [<-|[<-|[<-|[<-|[<-|[]]]]]].
    + apply (Hc 4%nat running eq_refl H) in Hcomp. lia.
    + apply (Hc 5%nat scheduling eq_refl H) in Hcomp. lia.
    + apply (Hc 6%nat rescheduling eq_refl H) in Hcomp. lia.
    + apply (Hc 7%nat waiting eq_refl H) in Hcomp. lia.
    + apply (Hc 8%nat submitting eq_refl H) in Hcomp. lia.
  - intros p [<-|Hp].
    + destruct (complete_interp answer w Hid Hb) as [-> ->]. split; reflexivity.
    + apply In_nth_error in Hp. destruct Hp as [i Hp].
      apply (lifecycle_quiet answer w i p Hid Hb Hp).
Qed.

Lemma lifecycle_exclusive_witness :
  holds Service.answers succeeded Service.launched /\
  holds Service.answers complete Service.launched /\
  ~ holds Service.answers failed Service.launched.
Proof.
  assert (Hs : holds Service.answers succeeded Service.launched)
    by (vm_compute; reflexivity).
  destruct (lifecycle_exclusive Service.answers Service.launched)
    as (Hex & Hdone & _ & _).
  - vm_compute. reflexivity.
  - vm_compute. reflexivity.
  - split; [exact Hs|]. split.
    + apply (Hdone succeeded); [left; reflexivity|exact Hs].
    + intros Hf.
      discriminate (Hex 0%nat 1%nat succeeded failed eq_refl eq_refl Hs Hf).
Defined.

(** ** The state of a launched batch workflow *)

Lemma batch_status_tree w :
  truthy (wf_id w) = true -> batch w = true ->
  status w = Vis (batch_workflow_status (wf_id w)) (fun r => Ret (r, w)).
Proof. intros Hid Hb. unfold status. launched Hid Hb. Qed.

(** What the three predicates that read the sub-workflows come to. *)
Lemma sub_workflows_interp answer w (f : list pyval -> bool) :
  truthy (wf_id w) = true -> batch w = true ->
  interp answer
    ((let! st := status in let! workflows := item (st_workflows st) in
      wret (f workflows))%rm w) =
    (match answer _ (batch_workflow_status (wf_id w)) with
     | Ok st =>
         match st_workflows st with
         | Some ws => Ok (f ws)
         | None => Raise KeyError
         end
     | Raise x => Raise x
     end, w).
Proof.
  intros Hid Hb. unfold wbind. rewrite (batch_status_tree w Hid Hb). simpl.
  destruct (answer _ (batch_workflow_status (wf_id w))) as [[s e [ws|]]|x]; reflexivity.
Qed.

Lemma batch_predicates (answer : forall X, request X -> res X) w :
  truthy (wf_id w) = true -> batch w = true ->
  let sub (f : list pyval -> bool) :=
    (match answer _ (batch_workflow_status (wf_id w)) with
     | Ok st =>
         match st_workflows st with
         | Some ws => Ok (f ws)
         | None => Raise KeyError
         end
     | Raise x => Raise x
     end, w) in
  interp answer (complete w) = sub (forallb finished) /\
  interp answer (succeeded w) = sub (forallb (eq_str "succeeded")) /\
  interp answer (running w) = sub (existsb (fun state => negb (finished state))).
Proof.
  intros Hid Hb sub. unfold sub.
  rewrite <- !(sub_workflows_interp answer w _ Hid Hb).
  unfold complete, succeeded, running.
  repeat split; unfold wbind at 1, wget; simpl; rewrite (set_truthy _ Hid), Hb; reflexivity.
Qed.

Lemma existsb_negb_forallb {A} (f : A -> bool) l :
  existsb (fun x => negb (f x)) l = negb (forallb f l).
Proof.
  induction l as [|x l IH]; simpl; [reflexivity|].
  rewrite IH. destruct (f x); reflexivity.
Qed.

Lemma succeeded_finished ws :
  forallb (eq_str "succeeded") ws = true -> forallb finished ws = true.
Proof.
  rewrite !forallb_forall. intros H v Hv. unfold finished. rewrite (H v Hv). reflexivity.
Qed.

(** X17.  On a launched batch workflow, against a service that answers
    the same status each time: [running] is the negation of [complete],
    [succeeded] implies [complete], both [complete] and [succeeded] are
    true when the status lists no sub-workflow, and an exception of the
    service or a status without [workflows] makes the three raise
    alike. *)
Theorem batch_running_is_not_complete answer (w : Workflow) :
  truthy (wf_id w) = true -> batch w = true ->
  (forall c, fst (interp answer (complete w)) = Ok c ->
             fst (interp answer (running w)) = Ok (negb c)) /\
  (holds answer succeeded w -> holds answer complete w) /\
  (forall st, answer _ (batch_workflow_status (wf_id w)) = Ok st ->
              st_workflows st = Some [] ->
              holds answer complete w /\ holds answer succeeded w /\
              ~ holds answer running w) /\
  (forall e, fst (interp answer (complete w)) = Raise e ->
             fst (interp answer (running w)) = Raise e /\
             fst (interp answer (succeeded w)) = Raise e).
Proof.
  intros Hid Hb. unfold holds.
  destruct (batch_predicates answer w Hid Hb) as (-> & -> & ->). simpl.
  destruct (answer _ (batch_workflow_status (wf_id w))) as [[s e [ws|]]|x]; simpl.
  - split; [|split; [|split]].
    + intros c [= <-]. rewrite existsb_negb_forallb. reflexivity.
    + intros [= H]. rewrite (succeeded_finished ws H). reflexivity.
    + intros st [= <-]. simpl. intros [= ->]. repeat split. discriminate.
    + discriminate.
  - split; [|split; [|split]]; try discriminate.
    + intros st [= <-]. discriminate.
    + intros e' [= <-]. split; reflexivity.
  - split; [|split; [|split]]; try discriminate.
    intros e' [= <-]. split; reflexivity.
Qed.

Lemma batch_running_is_not_complete_witness :
  fst (interp Service.answers (complete Service.batch_launched)) = Ok false /\
  fst (interp Service.answers (running Service.batch_launched)) = Ok true.
Proof.
  destruct (batch_running_is_not_complete Service.answers Service.batch_launched
              eq_refl eq_refl) as (H & _).
  split; [vm_compute; reflexivity|]. apply (H false). vm_compute. reflexivity.
Defined.

(** ** The logs of a launched workflow *)

Lemma wmap_interp (answer : forall X, request X -> res X) {A B}
  (f : A -> RM B) (g : A -> B) (label : string) w :
  forall l,
    (forall a, In a l ->
       interp answer (f a w) = (Ok (g a), w) /\ trace answer (f a w) = [label]) ->
    interp answer (wmap f l w) = (Ok (map g l), w) /\
    trace answer (wmap f l w) = map (fun _ => label) l.
Proof.
  induction l as [|a l IH]; intros H; simpl; [split; reflexivity|].
  destruct (H a (or_introl eq_refl)) as [Ha Hta].
  destruct IH as [Hi Ht]; [intros a' Ha'; apply H; right; exact Ha'|].
  unfold wbind. rewrite !interp_ibind, !trace_ibind, Ha, Hta. cbv beta iota.
  rewrite interp_ibind, trace_ibind, Hi, Ht. simpl. rewrite app_nil_r.
  split; reflexivity.
Qed.

Lemma wmap_fail (answer : forall X, request X -> res X) {A B}
  (f : A -> RM B) w :
  (forall a, snd (interp answer (f a w)) = w) ->
  forall l a e,
    In a l -> fst (interp answer (f a w)) = Raise e ->
    exists e', interp answer (wmap f l w) = (Raise e', w).
Proof.
  intros Hw. induction l as [|a0 l IH]; intros a e Hin Ha; [destruct Hin|].
  simpl. unfold wbind at 1. rewrite interp_ibind.
  pose proof (Hw a0) as Hw0.
  destruct (interp answer (f a0 w)) as [[y|e0] w0] eqn:E0; simpl in Hw0; subst w0.
  - destruct Hin as [->|Hin]; [rewrite E0 in Ha; discriminate|].
    destruct (IH a e Hin Ha) as [e' He'].
    exists e'. unfold wbind at 1. rewrite interp_ibind, He'. reflexivity.
  - exists e0. reflexivity.
Qed.

Lemma log_entry_interp (answer : forall X, request X -> res X) w
  (req : request pyval) (mk : pyval -> task_log) :
  interp answer ((let! text := call req in wret (mk text))%rm w) =
    (match answer _ req with Ok text => Ok (mk text) | Raise e => Raise e end, w) /\
  trace answer ((let! text := call req in wret (mk text))%rm w) = [request_name req].
Proof.
  unfold wbind, call. simpl. destruct (answer _ req); split; reflexivity.
Qed.

Lemma call_interp (answer : forall X, request X -> res X) {X} (e : request X) w :
  interp answer (call e w) = (answer _ e, w) /\
  trace answer (call e w) = [request_name e].
Proof. split; reflexivity. Qed.

Lemma after_get (answer : forall X, request X -> res X) {A} w
  (k : list remote_task -> RM A) :
  interp answer ((let! wf := call (workflow_get (wf_id w)) in k wf)%rm w) =
    match answer _ (workflow_get (wf_id w)) with
    | Ok wf => interp answer (k wf w)
    | Raise e => (Raise e, w)
    end /\
  trace answer ((let! wf := call (workflow_get (wf_id w)) in k wf)%rm w) =
    "get" :: match answer _ (workflow_get (wf_id w)) with
             | Ok wf => trace answer (k wf w)
             | Raise e => []
             end.
Proof.
  unfold wbind at 1 2. rewrite interp_ibind, trace_ibind.
  destruct (call_interp answer (workflow_get (wf_id w)) w) as [-> ->].
  destruct (answer _ (workflow_get (wf_id w))); split; reflexivity.
Qed.

Lemma logs_shape w :
  truthy (wf_id w) = true -> batch w = false ->
  task_ids w = (let! wf := call (workflow_get (wf_id w)) in wret (map rt_id wf))%rm w /\
  stdout w =
    (let! wf := call (workflow_get (wf_id w)) in
     wmap (fun task =>
             let! text := call (get_stdout (wf_id w) (rt_id task)) in
             wret (mkTaskLog (rt_id task) (rt_taskType task) (rt_name task) text))
          wf)%rm w /\
  stderr w =
    (let! wf := call (workflow_get (wf_id w)) in
     wmap (fun task =>
             let! text := call (get_stderr (wf_id w) (rt_id task)) in
             wret (mkTaskLog (rt_id task) (rt_taskType task) (rt_name task) text))
          wf)%rm w.
Proof.
  intros Hid Hb. unfold task_ids, stdout, stderr.
  repeat split; unfold wbind at 1, wget; simpl; rewrite (set_truthy _ Hid), Hb; reflexivity.
Qed.

(** The log the service has for a task, [None] when it raises. *)
Lemma logs_ok (answer : forall X, request X -> res X) w
  (req : pyval -> request pyval) (label : string) wf :
  (forall i, request_name (req i) = label) ->
  (forall t, In t wf -> exists text, answer _ (req (rt_id t)) = Ok text) ->
  exists logs,
    interp answer
      (wmap (fun task =>
               let! text := call (req (rt_id task)) in
               wret (mkTaskLog (rt_id task) (rt_taskType task) (rt_name task) text))%rm
            wf w) = (Ok logs, w) /\
    Forall2 (fun t l =>
               log_id l = rt_id t /\ log_taskType l = rt_taskType t /\
               log_name l = rt_name t /\ answer _ (req (rt_id t)) = Ok (log_text l))
            wf logs /\
    trace answer
      (wmap (fun task =>
               let! text := call (req (rt_id task)) in
               wret (mkTaskLog (rt_id task) (rt_taskType task) (rt_name task) text))%rm
            wf w) = map (fun _ => label) wf.
Proof.
  intros Hl Hall.
  set (g := fun t => mkTaskLog (rt_id t) (rt_taskType t) (rt_name t)
                       (match answer _ (req (rt_id t)) with
                        | Ok text => text
                        | Raise _ => VNone
                        end)).
  exists (map g wf).
  destruct (wmap_interp answer
              (fun task =>
                 let! text := call (req (rt_id task)) in
                 wret (mkTaskLog (rt_id task) (rt_taskType task) (rt_name task) text))%rm
              g label w wf) as [Hi Ht].
  { intros t Ht. destruct (Hall t Ht) as [text E].
    destruct (log_entry_interp answer w (req (rt_id t))
                (mkTaskLog (rt_id t) (rt_taskType t) (rt_name t))) as [-> ->].
    unfold g. rewrite E, Hl. split; reflexivity. }
  split; [exact Hi|]. split; [|exact Ht].
  clear Hi Ht. induction wf as [|t wf IH]; simpl; constructor.
  - destruct (Hall t (or_introl eq_refl)) as [text E]. unfold g. simpl. rewrite E.
    repeat split.
  - apply IH. intros t' Ht'. apply Hall. right. exact Ht'.
Qed.

Lemma logs_fail (answer : forall X, request X -> res X) w
  (req : pyval -> request pyval) wf t e :
  In t wf -> answer _ (req (rt_id t)) = Raise e ->
  exists e',
    interp answer
      (wmap (fun task =>
               let! text := call (req (rt_id task)) in
               wret (mkTaskLog (rt_id task) (rt_taskType task) (rt_name task) text))%rm
            wf w) = (Raise e', w).
Proof.
  intros Hin Ht.
  apply (wmap_fail answer _ w) with (a := t) (e := e).
  - intros a.
    rewrite (proj1 (log_entry_interp answer w (req (rt_id a))
                      (mkTaskLog (rt_id a) (rt_taskType a) (rt_name a)))).
    reflexivity.
  - exact Hin.
  - rewrite (proj1 (log_entry_interp answer w (req (rt_id t))
                      (mkTaskLog (rt_id t) (rt_taskType t) (rt_name t)))).
    simpl. rewrite Ht. reflexivity.
Qed.

(** X18.  On a launched workflow without batch values whose tasks the
    service lists: [task_ids] returns their ids in order; and when the
    service has the log of each of them, [stdout] (and [stderr] alike)
    returns one entry per task, in order, with the id, type and name of
    the task and that log, after one [get] request and one log request
    per task, and leaves the workflow as it was. *)
Theorem logs_per_task (answer : forall X, request X -> res X) (w : Workflow) (wf : list remote_task) :
  truthy (wf_id w) = true -> batch w = false ->
  answer _ (workflow_get (wf_id w)) = Ok wf ->
  interp answer (task_ids w) = (Ok (map rt_id wf), w) /\
  ((forall t, In t wf -> exists text, answer _ (get_stdout (wf_id w) (rt_id t)) = Ok text) ->
   exists logs,
     interp answer (stdout w) = (Ok logs, w) /\
     Forall2 (fun t l =>
                log_id l = rt_id t /\ log_taskType l = rt_taskType t /\
                log_name l = rt_name t /\
                answer _ (get_stdout (wf_id w) (rt_id t)) = Ok (log_text l))
             wf logs /\
     trace answer (stdout w) = "get" :: map (fun _ => "get_stdout") wf) /\
  ((forall t, In t wf -> exists text, answer _ (get_stderr (wf_id w) (rt_id t)) = Ok text) ->
   exists logs,
     interp answer (stderr w) = (Ok logs, w) /\
     Forall2 (fun t l =>
                log_id l = rt_id t /\ log_taskType l = rt_taskType t /\
                log_name l = rt_name t /\
                answer _ (get_stderr (wf_id w) (rt_id t)) = Ok (log_text l))
             wf logs /\
     trace answer (stderr w) = "get" :: map (fun _ => "get_stderr") wf).
Proof.
  intros Hid Hb Hget. destruct (logs_shape w Hid Hb) as (-> & -> & ->).
  split; [|split].
  - rewrite (proj1 (after_get answer w _)), Hget. reflexivity.
  - intros Hall.
    destruct (logs_ok answer w (get_stdout (wf_id w)) "get_stdout" wf
                (fun _ => eq_refl) Hall) as (logs & Hi & HF & Ht).
    exists logs.
    destruct (after_get answer w
                (fun wf => wmap (fun task =>
                   let! text := call (get_stdout (wf_id w) (rt_id task)) in
                   wret (mkTaskLog (rt_id task) (rt_taskType task) (rt_name task) text))%rm
                   wf)) as [-> ->].
    rewrite Hget, Hi, Ht. repeat split. exact HF.
  - intros Hall.
    destruct (logs_ok answer w (get_stderr (wf_id w)) "get_stderr" wf
                (fun _ => eq_refl) Hall) as (logs & Hi & HF & Ht).
    exists logs.
    destruct (after_get answer w
                (fun wf => wmap (fun task =>
                   let! text := call (get_stderr (wf_id w) (rt_id task)) in
                   wret (mkTaskLog (rt_id task) (rt_taskType task) (rt_name task) text))%rm
                   wf)) as [-> ->].
    rewrite Hget, Hi, Ht. repeat split. exact HF.
Qed.

Lemma logs_per_task_witness :
  exists logs,
    interp Service.answers (stdout Service.launched) = (Ok logs, Service.launched) /\
    map log_name logs = [VStr "Task1"; VStr "Task2"] /\
    trace Service.answers (stdout Service.launched) = ["get"; "get_stdout"; "get_stdout"].
Proof.
  destruct (logs_per_task Service.answers Service.launched
              [mkRemoteTask (VStr "4488895771403082552") (VStr "AOP_Strip_Processor")
                            (VStr "Task1");
               mkRemoteTask (VStr "4488895771403082553") (VStr "StageDataToS3")
                            (VStr "Task2")])
    as (_ & Hout & _).
  - vm_compute. reflexivity.
  - vm_compute. reflexivity.
  - reflexivity.
  - destruct Hout as (logs & Hi & HF & Ht).
    + intros t _. eexists. reflexivity.
    + exists logs. split; [exact Hi|]. split; [|exact Ht].
      inversion HF as [|t1 l1 ts1 ls1 (_ & _ & Hn1 & _) HF1]; subst.
      inversion HF1 as [|t2 l2 ts2 ls2 (_ & _ & Hn2 & _) HF2]; subst.
      inversion HF2; subst. simpl. rewrite Hn1, Hn2. reflexivity.
Defined.

(** X19.  On a launched workflow without batch values, a failure of the
    service is a failure of the whole call: when the [get] request
    raises, [task_ids], [stdout] and [stderr] raise that exception after
    that one request; when the log request of one of the listed tasks
    raises, [stdout] (and [stderr] alike) raises and returns no partial
    list.  The workflow stays as it was. *)
Theorem logs_fail_as_a_whole (answer : forall X, request X -> res X) (w : Workflow) :
  truthy (wf_id w) = true -> batch w = false ->
  (forall e, answer _ (workflow_get (wf_id w)) = Raise e ->
     interp answer (task_ids w) = (Raise e, w) /\
     interp answer (stdout w) = (Raise e, w) /\
     interp answer (stderr w) = (Raise e, w) /\
     trace answer (stdout w) = ["get"] /\ trace answer (stderr w) = ["get"]) /\
  (forall wf t e, answer _ (workflow_get (wf_id w)) = Ok wf -> In t wf ->
     answer _ (get_stdout (wf_id w) (rt_id t)) = Raise e ->
     exists e', interp answer (stdout w) = (Raise e', w)) /\
  (forall wf t e, answer _ (workflow_get (wf_id w)) = Ok wf -> In t wf ->
     answer _ (get_stderr (wf_id w) (rt_id t)) = Raise e ->
     exists e', interp answer (stderr w) = (Raise e', w)).
Proof.
  intros Hid Hb. destruct (logs_shape w Hid Hb) as (-> & -> & ->).
  split; [|split].
  - intros e He. rewrite !(proj1 (after_get answer w _)), !(proj2 (after_get answer w _)).
    rewrite He. repeat split.
  - intros wf t e Hget Hin Ht. rewrite (proj1 (after_get answer w _)), Hget.
    apply (logs_fail answer w (get_stdout (wf_id w)) wf t e Hin Ht).
  - intros wf t e Hget Hin Ht. rewrite (proj1 (after_get answer w _)), Hget.
    apply (logs_fail answer w (get_stderr (wf_id w)) wf t e Hin Ht).
Qed.

Lemma logs_fail_as_a_whole_witness :
  interp (fun X (e : request X) => Raise KeyError) (stdout Service.launched) =
    (Raise KeyError, Service.launched) /\
  trace (fun X (e : request X) => Raise KeyError) (stdout Service.launched) = ["get"].
Proof.
  destruct (logs_fail_as_a_whole (fun X (e : request X) => Raise KeyError)
              Service.launched) as (H & _).
  - vm_compute. reflexivity.
  - vm_compute. reflexivity.
  - destruct (H KeyError eq_refl) as (_ & Hout & _ & Ht & _). split; [exact Hout|exact Ht].
Defined.

(** ** Batch values, from the input port to the submission *)

Lemma workflow_batch_values ts name cb :
  forall b, In b (default [] (wf_batch_values (Workflow___init__ ts name cb))) <->
            exists t l, In t ts /\ batch_values t = Some l /\ In b l.
Proof.
  intros b. unfold Workflow___init__. simpl.
  set (all := flat_map _ ts).
  assert (H : In b all <-> exists t l, In t ts /\ batch_values t = Some l /\ In b l).
  { unfold all. rewrite in_flat_map. split.
    - intros (t & Ht & Hb). destruct (batch_values t) as [l|] eqn:E; [|destruct Hb].
      exists t, l. auto.
    - intros (t & l & Ht & E & Hb). exists t. rewrite E. auto. }
  rewrite <- H. destruct all; simpl; tauto.
Qed.

Lemma workflow_batch ts name cb :
  batch (Workflow___init__ ts name cb) = true <->
  exists b, In b (default [] (wf_batch_values (Workflow___init__ ts name cb))).
Proof.
  unfold batch, Workflow___init__. simpl.
  destruct (flat_map _ ts) as [|b l]; simpl.
  - split; [discriminate|intros [b []]].
  - split; [intros _; exists b; left; reflexivity|reflexivity].
Qed.

(** X20.  A new workflow has no [id] and no [definition]; its
    [batch_values] are those of its tasks, and it has some exactly when
    one of its tasks has a non-empty [batch_values]: the attribute is
    [None], never an empty list, when no task has any. *)
Theorem workflow_batch_iff (ts : list Task) (name : string) (cb : pyval) :
  let w := Workflow___init__ ts name cb in
  (batch w = true <-> exists t, In t ts /\ nonempty (batch_values t) = true) /\
  (batch w = false -> wf_batch_values w = None) /\
  (forall b, In b (default [] (wf_batch_values w)) <->
             exists t l, In t ts /\ batch_values t = Some l /\ In b l) /\
  wf_id w = VNone /\ wf_definition w = None /\ tasks w = ts.
Proof.
  intros w. split; [|split; [|split; [|repeat split]]].
  - unfold w. rewrite workflow_batch. split.
    + intros (b & Hb). apply workflow_batch_values in Hb.
      destruct Hb as (t & l & Ht & E & Hb). exists t. split; [exact Ht|].
      rewrite E. destruct l; [destruct Hb|reflexivity].
    + intros (t & Ht & Hn). destruct (batch_values t) as [[|b l]|] eqn:E; try discriminate.
      exists b. apply workflow_batch_values. exists t, (b :: l).
      split; [exact Ht|]. split; [exact E|left; reflexivity].
  - unfold w, batch, Workflow___init__. simpl.
    destruct (flat_map _ ts); [reflexivity|discriminate].
  - apply workflow_batch_values.
Qed.

Lemma workflow_batch_iff_witness :
  wf_batch_values (Workflow___init__ [Sample.aop_task; Sample.gdal_task] "wf" VNone) = None.
Proof.
  apply (proj1 (proj2 (workflow_batch_iff [Sample.aop_task; Sample.gdal_task] "wf" VNone))).
  vm_compute. reflexivity.
Defined.

(** X21.  A list assigned to a declared input port reaches the service:
    a workflow built afterwards from tasks that include this one is
    submitted with [launch_batch_workflow]; the description it sends
    holds [{name: batch_input_<port>, values: <the list>}] among its
    [batch_values], and the record of the task holds the placeholder
    [{{batch_input_<port>}}] as the value of the port. *)
Theorem list_input_is_a_batch_submission
  (t : Task) (k : string) (values : list pyval)
  (ts : list Task) (name : string) (cb : pyval) :
  inputs_ok (inputs t) -> In k (portnames (inputs t)) ->
  In (snd (Inputs___setattr__ k (VList values) t)) ts ->
  (forall u, In u ts -> ports_ok (inputs u) /\ ports_ok (outputs u)) ->
  exists doc bs td w',
    execute (Workflow___init__ ts name cb) =
      Vis (launch_batch_workflow (Some doc))
          (fun r => match r with
                    | Ok id => Ret (Ok id, set_id id w')
                    | Raise e => Ret (Raise e, w')
                    end) /\
    doc_batch_values doc = Some bs /\
    In (mkBatch ("batch_input_" +:+ k) values) bs /\
    In td (doc_tasks doc) /\ td_name td = task_name t /\
    In (InValue k (VStr ("{{batch_input_" +:+ k +:+ "}}"))) (td_inputs td).
Proof.
  intros (Ht & Hn & Hp) Hk Hin Hok.
  destruct (Hp k Hk) as (port & Hport).
  destruct (Inputs_setattr_declared t k (VList values) port Ht Hn Hk Hport)
    as (t' & Hset & Hi' & _ & Hname & Hb').
  rewrite Hset in Hin. simpl in Hin.
  pose proof (workflow_batch_values ts name cb) as Hbv.
  pose proof (workflow_batch ts name cb) as Hbw.
  assert (Hts : tasks (Workflow___init__ ts name cb) = ts) by reflexivity.
  remember (Workflow___init__ ts name cb) as w eqn:Ew. clear Ew.
  rewrite <- Hts in Hin, Hok.
  assert (Hne : tasks w <> []) by (intros E; rewrite E in Hin; destruct Hin).
  destruct (generate_workflow_description_ok w Hne Hok) as (vss & tds & _ & HF & Hgen).
  assert (Hbin : In (mkBatch ("batch_input_" +:+ k) values)
                    (default [] (wf_batch_values w))).
  { apply Hbv. eexists t', _. split; [rewrite <- Hts; exact Hin|].
    split; [exact Hb'|]. apply in_or_app. right. left. reflexivity. }
  assert (Hb : batch w = true) by (apply Hbw; eexists; exact Hbin).
  destruct (Forall2_In_l _ _ _ _ HF Hin) as (td & Htd & Hi & _ & excl & _ & Hjson).
  exists (description_of w tds), (default [] (wf_batch_values w)), td,
    (set_definition (Some (description_of w tds)) w).
  split; [|split; [|split; [|split; [|split]]]].
  - rewrite (execute_tree _ _ _ Hgen).
    change (batch (set_definition (Some (description_of w tds)) w)) with (batch w).
    rewrite Hb. reflexivity.
  - unfold description_of. simpl. unfold batch in Hb. rewrite Hb.
    destruct (wf_batch_values w); [reflexivity|discriminate].
  - exact Hbin.
  - exact Htd.
  - destruct (json_fields _ _ _ Hjson) as (-> & _). exact Hname.
  - apply (serialised_inputs _ _ _ Hi Hjson). exists k. split.
    + rewrite (portnames_eq _ (portnames (inputs t))); [exact Hk|].
      rewrite Hi'. rewrite lookup_insert_ne; [exact Hn|].
      intros ->. rewrite Hn in Hport. discriminate.
    + rewrite (input_entry_port _ _ (set_value (stored k (VList values)) port)).
      * reflexivity.
      * rewrite Hi'. apply lookup_insert_eq.
Qed.

Lemma list_input_is_a_batch_submission_witness :
  trace Service.answers
    (execute (Workflow___init__
                [snd (Inputs___setattr__ "data" (VList [VStr "s3://a"; VStr "s3://b"])
                        Sample.aop_task)] "wf" VNone)) = ["launch_batch_workflow"].
Proof.
  destruct (list_input_is_a_batch_submission Sample.aop_task "data"
              [VStr "s3://a"; VStr "s3://b"]
              [snd (Inputs___setattr__ "data" (VList [VStr "s3://a"; VStr "s3://b"])
                      Sample.aop_task)] "wf" VNone)
    as (doc & bs & td & w' & H & _).
  - split; [vm_compute; reflexivity|concrete_ports_ok].
  - vm_compute. left. reflexivity.
  - left. reflexivity.
  - intros u [<-|[]]; split; concrete_ports_ok.
  - rewrite H. reflexivity.
Defined.

(** ** What a sequence of operations leaves of the timeout and the batch records *)

Lemma last_timeout_cases ops : forall start,
  last_timeout ops start = start \/
  exists z, In (OpSetTimeout z) ops /\ (0 < z < 172800)%Z /\ last_timeout ops start = VInt z.
Proof.
  induction ops as [|op ops IH]; intros start; [left; reflexivity|].
  unfold last_timeout. simpl. fold (last_timeout ops).
  destruct op as [kwargs|k v|k|z|v];
    try (destruct (IH start) as [H|(z' & Hin & Hz & H)];
         [left; exact H|right; exists z'; split; [right; exact Hin|split; [exact Hz|exact H]]]).
  destruct ((0 <? z)%Z && (z <? 172800)%Z) eqn:E.
  - apply andb_true_iff in E. destruct E as [E1 E2].
    apply Z.ltb_lt in E1. apply Z.ltb_lt in E2.
    destruct (IH (VInt z)) as [H|(z' & Hin & Hz & H)].
    + right. exists z. split; [left; reflexivity|]. split; [lia|exact H].
    + right. exists z'. split; [right; exact Hin|]. split; [exact Hz|exact H].
  - destruct (IH start) as [H|(z' & Hin & Hz & H)];
      [left; exact H|right; exists z'; split; [right; exact Hin|split; [exact Hz|exact H]]].
Qed.

Lemma exec_ops_timeout ops : forall t,
  timeout (exec_ops ops t) = last_timeout ops (timeout t).
Proof.
  induction ops as [|op ops IH]; intros t; [reflexivity|].
  unfold last_timeout. simpl. fold (last_timeout ops). rewrite IH. f_equal.
  unfold timeout.
  destruct op as [kwargs|k v|k|z|v];
    try (apply run_op_timeout_other; intros z'; discriminate).
  simpl. unfold timeout_set. destruct ((0 <? z)%Z && (z <? 172800)%Z); reflexivity.
Qed.

(** X22.  Whatever is done to a task (keyword arguments set, input ports
    written, output ports read, the impersonation flag set, whether the
    operation succeeds or raises), its timeout is the one of the last
    assignment that was accepted, and the one it had when none was: so it
    is the initial one or an integer strictly between 0 and 172800 that
    was assigned. *)
Theorem timeout_is_last_accepted (ops : list task_op) (t : Task) :
  timeout (exec_ops ops t) = last_timeout ops (timeout t) /\
  (timeout (exec_ops ops t) = timeout t \/
   exists z, In (OpSetTimeout z) ops /\ (0 < z < 172800)%Z /\
             timeout (exec_ops ops t) = VInt z).
Proof.
  split; [apply exec_ops_timeout|]. rewrite exec_ops_timeout. apply last_timeout_cases.
Qed.

Lemma grows_refl t : grows t t.
Proof. exists []. rewrite app_nil_r. reflexivity. Qed.

Lemma grows_trans t1 t2 t3 : grows t1 t2 -> grows t2 t3 -> grows t1 t3.
Proof.
  intros [l1 H1] [l2 H2]. exists (l1 ++ l2)%list. rewrite H2, H1, <- app_assoc. reflexivity.
Qed.

Lemma grows_eq t t' : batch_values t' = batch_values t -> grows t t'.
Proof. intros H. exists []. rewrite H, app_nil_r. reflexivity. Qed.

Lemma Inputs_setattr_grows k v t : grows t (snd (Inputs___setattr__ k v t)).
Proof.
  destruct v as [| | | |values| |];
    try (apply grows_eq, Inputs_setattr_batch; intros ?; discriminate).
  unfold Inputs___setattr__.
  repeat match goal with
         | |- grows _ (snd ((if ?b then _ else _) _)) => destruct b
         end;
    try (apply grows_eq; reflexivity).
  - run.
    repeat match goal with
           | |- context [match ?x with _ => _ end] =>
               match x with
               | context [match _ with _ => _ end] => fail 1
               | _ => destruct x eqn:?; simpl
               end
           end;
      try (apply grows_eq; reflexivity).
    all: destruct t as [n ty d to i o [[|rec recs]|] imp]; simpl in *;
      first [ congruence
            | exists [mkBatch (batch_input k) values]; reflexivity
            | apply grows_eq; reflexivity ].
Qed.

Lemma for_each_grows {A} (l : list A) (k : A -> M Task unit) :
  (forall a t, grows t (snd (k a t))) -> forall t, grows t (snd (for_each l k t)).
Proof.
  intros H. induction l as [|a l IH]; intros t; simpl; [apply grows_refl|].
  unfold bind. pose proof (H a t) as Ha.
  destruct (k a t) as [[[]|e] t']; simpl in *; [|exact Ha].
  apply (grows_trans _ _ _ Ha), IH.
Qed.

Lemma run_op_grows op t : grows t (snd (run_op op t)).
Proof.
  destruct op as [kwargs|k v|k|z|v]; simpl.
  - unfold Task_set. apply for_each_grows. intros [k v] t'. apply Inputs_setattr_grows.
  - apply Inputs_setattr_grows.
  - apply grows_eq.
    assert (P : preserves batch_values (Task_output k >> ret tt))
      by (unfold Task_output; frame).
    apply P.
  - apply grows_eq.
    assert (P : preserves batch_values (timeout_set z)) by (unfold timeout_set; frame).
    apply P.
  - apply grows_eq.
    assert (P : preserves batch_values (impersonation_allowed_set v))
      by (unfold impersonation_allowed_set; frame).
    apply P.
Qed.

(** X23.  No operation on a task takes a batch record back: after any
    sequence of operations the [batch_values] of the task start with the
    records it had, in their order.  So the record a list assignment
    left stays when the port is later given a plain value or another
    list. *)
Theorem batch_records_stay (ops : list task_op) (t : Task) :
  (exists l, default [] (batch_values (exec_ops ops t)) =
             (default [] (batch_values t) ++ l)%list) /\
  (forall b, In b (default [] (batch_values t)) ->
             In b (default [] (batch_values (exec_ops ops t)))).
Proof.
  assert (H : grows t (exec_ops ops t)).
  { revert t. induction ops as [|op ops IH]; intros t; simpl; [apply grows_refl|].
    apply (grows_trans _ _ _ (run_op_grows op t)), IH. }
  split; [exact H|]. destruct H as [l ->]. intros b Hb. apply in_or_app. left. exact Hb.
Qed.

(** The record of a port that was given a list and then a string. *)
Lemma batch_records_stay_witness :
  In (mkBatch "batch_input_data" [VStr "s3://a"; VStr "s3://b"])
     (default []
        (batch_values
           (exec_ops [OpSetInput "data" (VStr "s3://c")]
              (snd (Inputs___setattr__ "data" (VList [VStr "s3://a"; VStr "s3://b"])
                      Sample.aop_task))))).
Proof.
  apply (proj2 (batch_records_stay
                  [OpSetInput "data" (VStr "s3://c")]
                  (snd (Inputs___setattr__ "data" (VList [VStr "s3://a"; VStr "s3://b"])
                          Sample.aop_task)))).
  vm_compute. left. reflexivity.
Defined.

(** ** A task after any operations can be serialised *)

Lemma run_op_fields op :
  preserves task_name (run_op op) /\ preserves task_type (run_op op) /\
  preserves domain (run_op op).
Proof.
  assert (F : forall X (f : Task -> X),
            (forall i t, f (set_inputs i t) = f t) ->
            (forall b t, f (set_batch_values b t) = f t) ->
            (forall o t, f (set_outputs o t) = f t) ->
            (forall z t, f (set_timeout z t) = f t) ->
            (forall z t, f (set_impersonation z t) = f t) ->
            preserves f (run_op op)).
  { intros X f Hi Hb Ho Hz Hm.
    assert (Hs : forall k v, preserves f (Inputs___setattr__ k v)).
    { intros k v s. unfold Inputs___setattr__.
      repeat first
        [ match goal with
          | |- f (snd ((if ?b then _ else _) _)) = _ => destruct b
          end
        | reflexivity ].
      all: run;
        repeat match goal with
               | |- context [match ?x with _ => _ end] =>
                   match x with
                   | context [match _ with _ => _ end] => fail 1
                   | _ => destruct x eqn:?; simpl
                   end
               end;
        rewrite ?Hb, ?Hi; reflexivity. }
    destruct op as [kwargs|k v|k|z|v]; simpl.
    - apply Task_set_preserves, Hs.
    - apply Hs.
    - intros s. unfold Task_output, bind, zoom, ret.
      destruct (Outputs___getattribute__ k (outputs s)) as [[a|e] o]; simpl; apply Ho.
    - intros s. unfold timeout_set. destruct (_ && _); simpl; [apply Hz|reflexivity].
    - intros s. unfold impersonation_allowed_set.
      destruct v as [|[]| | | | |]; simpl; try reflexivity. apply Hm. }
  repeat split; apply F; intros ? []; reflexivity.
Qed.

Lemma exec_ops_fields ops : forall t,
  task_name (exec_ops ops t) = task_name t /\
  task_type (exec_ops ops t) = task_type t /\
  domain (exec_ops ops t) = domain t.
Proof.
  induction ops as [|op ops IH]; intros t; simpl; [auto|].
  destruct (IH (snd (run_op op t))) as (-> & -> & ->).
  destruct (run_op_fields op) as (H1 & H2 & H3). auto.
Qed.

Lemma run_op_keeps_names op t :
  ordinary_op op -> task_ok t ->
  (forall n, In n (portnames (inputs t)) ->
             In n (portnames (inputs (snd (run_op op t))))) /\
  (forall n, In n (portnames (outputs t)) ->
             In n (portnames (outputs (snd (run_op op t))))).
Proof.
  intros Hop [Hi Ho]. destruct op as [kwargs|k v|k|z|v]; simpl in *.
  - split.
    + apply (Task_set_portnames kwargs t Hop Hi).
    + rewrite (Task_set_preserves outputs kwargs Inputs_setattr_outputs t). auto.
  - split.
    + intros n Hn. apply (Inputs_setattr_portnames t k v Hi Hop). left. exact Hn.
    + rewrite (Inputs_setattr_outputs k v t). auto.
  - unfold Task_output, bind, zoom.
    pose proof (Outputs_getattribute_effect k (outputs t) (proj1 Ho)) as He.
    destruct (Outputs___getattribute__ k (outputs t)) as [[a|e] o] eqn:E; simpl in *;
      (split; [auto|]);
      (destruct He as [->|(tn & p & mp & _ & _ & _ & _ & He)]; [auto|]);
      cbv zeta in He; try discriminate He; injection He as _ Eo; intros n Hn;
      rewrite Eo;
      rewrite (portnames_eq _ (set_add k (portnames (outputs t))))
        by apply lookup_insert_eq;
      apply In_set_add; right; exact Hn.
  - unfold timeout_set. destruct (_ && _); simpl; auto.
  - unfold impersonation_allowed_set. destruct v as [|[]| | | | |]; simpl; auto.
Qed.

Lemma exec_ops_keeps_names ops : forall t,
  Forall ordinary_op ops -> task_ok t ->
  (forall n, In n (portnames (inputs t)) -> In n (portnames (inputs (exec_ops ops t)))) /\
  (forall n, In n (portnames (outputs t)) -> In n (portnames (outputs (exec_ops ops t)))).
Proof.
  induction ops as [|op ops IH]; intros t HF Hok; simpl; [auto|].
  inversion HF as [|? ? Hop HF']; subst.
  destruct (run_op_keeps_names op t Hop Hok) as [H1 H2].
  destruct (IH (snd (run_op op t)) HF' (run_op_ok op t Hop Hok)) as [H3 H4].
  split; auto.
Qed.

(** X24.  A task built from a definition with ordinary port names,
    after any sequence of ordinary operations, failed ones included:
    every declared input and output port is still registered and holds a
    port; the task serialises, whatever the list of excluded names, to a
    record with the name and type it was built with and the timeout of
    the last accepted assignment; and that record lists every declared
    output port that is not excluded. *)
Theorem reachable_task_serialises ty uuid defn kwargs (ops : list task_op) t0 exclude :
  ordinary_definition defn -> ordinary_kwargs kwargs -> Forall ordinary_op ops ->
  Task___init__ ty uuid defn kwargs = Ok t0 ->
  (forall n, In n (map d_name (inputPortDescriptors defn)) ->
     In n (portnames (inputs (exec_ops ops t0))) /\
     exists port, inputs (exec_ops ops t0) !! n = Some (SVal (VPort port))) /\
  (forall n, In n (map d_name (outputPortDescriptors defn)) ->
     In n (portnames (outputs (exec_ops ops t0))) /\
     exists port, outputs (exec_ops ops t0) !! n = Some (SVal (VPort port))) /\
  exists td,
    generate_task_workflow_json exclude (exec_ops ops t0) = Ok td /\
    td_name td = replace (ty +:+ "_" +:+ uuid) ":" "_" /\
    td_taskType td = ty /\
    td_timeout td = last_timeout ops (properties_timeout defn) /\
    forall p, In p (map d_name (outputPortDescriptors defn)) -> ~ In p exclude ->
              In p (map o_name (td_outputs td)).
Proof.
  intros Hd Hk Hops H.
  destruct (Task_init_ok _ _ _ _ _ Hd Hk H) as [Hok0 _].
  destruct (Task_init_ports _ _ _ _ _ Hd Hk H) as (Hout & _ & Hin & _).
  destruct (Task_init_fields _ _ _ _ _ H) as (Hname & Hty & _).
  pose proof (exec_ops_ok ops t0 Hops Hok0) as Hok.
  destruct (exec_ops_keeps_names ops t0 Hops Hok0) as [Hki Hko].
  destruct (exec_ops_fields ops t0) as (En & Et & _).
  pose proof Hok as [[_ Hpi] [Hpo _]].
  split; [|split].
  - intros n Hn. split; [apply Hki, Hin, Hn|apply (proj2 Hpi), Hki, Hin, Hn].
  - intros n Hn. split; [apply Hko, Hout, Hn|apply (proj2 Hpo), Hko, Hout, Hn].
  - destruct (generate_task_workflow_json_ok exclude (exec_ops ops t0) Hpi Hpo)
      as (td & Htd & Hn & Houts).
    exists td. split; [exact Htd|].
    destruct (json_fields _ _ _ Htd) as (_ & Hty' & Hto & _).
    split; [rewrite Hn, En; exact Hname|].
    split; [rewrite Hty', Et; exact Hty|].
    split.
    + rewrite Hto.
      rewrite exec_ops_timeout. unfold timeout. rewrite (Task_init_timeout _ _ _ _ _ H). reflexivity.
    + intros p Hp Hex. apply Houts. split; [apply Hko, Hout, Hp|exact Hex].
Qed.

Lemma reachable_task_serialises_witness :
  exists td,
    generate_task_workflow_json []
      (exec_ops [OpSetTimeout 600; OpSetInput "nope" (VInt 1); OpSetTimeout 0]
                Sample.aop_task) = Ok td /\
    td_timeout td = VInt 600 /\ In "log" (map o_name (td_outputs td)).
Proof.
  destruct (reachable_task_serialises "AOP_Strip_Processor" "0a1b2c3d" Sample.aop
              [("data", VStr "s3://bucket/in")]
              [OpSetTimeout 600; OpSetInput "nope" (VInt 1); OpSetTimeout 0]
              Sample.aop_task [])
    as (_ & _ & td & Htd & _ & _ & Hto & Houts).
  - split; repeat constructor; discriminate.
  - repeat constructor; discriminate.
  - repeat constructor; discriminate.
  - vm_compute. reflexivity.
  - exists td. split; [exact Htd|]. split; [exact Hto|].
    apply Houts; [simpl; auto|intros []].
Defined.

(** ** From the submission to the first status *)

(** Generating the description touches nothing but [definition]. *)
Lemma generate_workflow_description_frame {X} (f : Workflow -> X) :
  (forall d w, f (set_definition d w) = f w) ->
  preserves f generate_workflow_description.
Proof.
  intros Hf w. unfold generate_workflow_description. unfold bind at 1, get at 1.
  destruct (tasks w) as [|t0 ts0]; [reflexivity|].
  match goal with |- f (snd (?m w)) = _ => assert (P : preserves f m) end; [|apply P].
  repeat first
    [ apply preserves_ret | apply preserves_raise | apply preserves_lift
    | apply preserves_get | apply preserves_for_each
    | apply preserves_bind
    | apply preserves_modify; intros w0; unfold append_task; apply Hf
    | progress intros
    | match goal with
      | |- preserves _ (if ?b then _ else _) => destruct b
      | |- preserves _ (match ?x with _ => _ end) => destruct x
      end ].
Qed.

Lemma execute_fails (w w' : Workflow) (e : exn) :
  generate_workflow_description w = (Raise e, w') -> execute w = Ret (Raise e, w').
Proof. intros H. unfold execute, wbind at 1, local. rewrite H. reflexivity. Qed.

(** X25.  After an [execute] that returned, the workflow has the
    returned value as its [id] and the tasks and batch values it had.
    When that value is true in a condition, [status] then issues one
    request with it, to the endpoint of the kind of the workflow, and
    returns the answer; when it is not ([None], an empty string), the
    workflow counts as not running: [status] raises [WorkflowError] and
    [complete] is [False], both without a request. *)
Theorem execute_then_status (answer : forall X, request X -> res X)
  (w : Workflow) (id : pyval) :
  fst (interp answer (execute w)) = Ok id ->
  let w' := snd (interp answer (execute w)) in
  wf_id w' = id /\ tasks w' = tasks w /\ wf_batch_values w' = wf_batch_values w /\
  (truthy id = true ->
   interp answer (status w') =
     (answer _ (if batch w then batch_workflow_status id else workflow_status id), w') /\
   trace answer (status w') = [if batch w then "batch_workflow_status" else "status"]) /\
  (truthy id = false ->
   status w' =
     Ret (Raise (WorkflowError "Workflow is not running.  Cannot check status."), w') /\
   complete w' = Ret (Ok false, w')).
Proof.
  intros Hex w'.
  assert (Hw : wf_id w' = id /\ tasks w' = tasks w /\
               wf_batch_values w' = wf_batch_values w).
  { unfold w' in *. clear w'.
    pose proof (generate_workflow_description_frame tasks (fun _ _ => eq_refl) w) as P1.
    pose proof (generate_workflow_description_frame wf_batch_values
                  (fun _ _ => eq_refl) w) as P2.
    destruct (generate_workflow_description w) as [[doc|e] s] eqn:E; simpl in P1, P2.
    - rewrite (execute_tree _ _ _ E) in *. simpl in *.
      destruct (batch s); simpl in *;
        match goal with
        | H : fst (interp _ match ?a with _ => _ end) = _ |- _ =>
            destruct a; simpl in *; [|discriminate]
        end;
        injection Hex as ->; auto.
    - rewrite (execute_fails _ _ _ E) in Hex. discriminate. }
  destruct Hw as (Hid & Hts & Hbv).
  split; [exact Hid|]. split; [exact Hts|]. split; [exact Hbv|].
  assert (Hb : batch w' = batch w) by (unfold batch; rewrite Hbv; reflexivity).
  clearbody w'. split.
  - intros Htr. rewrite <- Hid in Htr. unfold status, wbind, wget. simpl.
    rewrite (set_truthy _ Htr), Hb, Hid. destruct (batch w); split; reflexivity.
  - intros Hf. rewrite <- Hid in Hf.
    assert (Hu : unset w' = true) by (unfold unset; rewrite Hf; reflexivity).
    unfold status, complete, wbind, wget. simpl. rewrite Hu. split; reflexivity.
Qed.

Lemma execute_then_status_witness :
  trace Service.answers
    (status (snd (interp Service.answers (execute Sample.two_tasks_wired)))) = ["status"].
Proof.
  destruct (execute_then_status Service.answers Sample.two_tasks_wired
              (VStr "4488969848362445219")) as (_ & _ & _ & H & _).
  - vm_compute. reflexivity.
  - exact (proj2 (H eq_refl)).
Defined.

(** ** The timeout setter on numbers, and the keyword [timeout] *)

(** On an integer the setter is [timeout_set]. *)
Lemma timeout_setter_int (z : Z) : timeout_setter (NInt z) = timeout_set z.
Proof. reflexivity. Qed.

Lemma negative_int (v : number) :
  negative v = true -> exists i, int v = Ok i /\ (i <= 0)%Z.
Proof.
  destruct v as [z|[s|s| |s m e] repr]; simpl; try discriminate.
  - intros H. apply Z.ltb_lt in H. exists z. split; [reflexivity|lia].
  - intros ->. eexists. split; [reflexivity|].
    pose proof (Z.shiftl_nonneg (Z.pos m) e) as [_ H].
    specialize (H ltac:(lia)). lia.
Qed.

(** A write to a name that is neither registered nor prefixed by a
    registered multiplex port. *)
Lemma Inputs_setattr_unknown (t : Task) (k : string) (v : pyval) :
  inputs_ok (inputs t) -> ordinary_input k ->
  ~ In k (portnames (inputs t)) ->
  (forall p mp, ~ is_template (inputs t) k p mp) ->
  Inputs___setattr__ k v t =
    (Raise (AttributeError (Some ("Task has no input port named " +:+ k +:+ "."))), t).
Proof.
  intros (Ht & Hn & Hp) [N1 N2] Hnin Hnone.
  destruct (matching_template (inputs t) k (conj Hn Hp)) as (r & Hr & _ & Hr').
  apply Hr' in Hnone. subst r.
  apply set_mem_not_In in Hnin.
  unfold Inputs___setattr__.
  rewrite (eqb_ne _ _ N1), (eqb_ne _ _ N2).
  run. rewrite Hn. simpl. rewrite Hnin. simpl. rewrite Hr. reflexivity.
Qed.

(** The keyword arguments are written to the task that the definition
    alone builds. *)
Lemma Task_init_keywords ty uuid defn t0 :
  Task___init__ ty uuid defn [] = Ok t0 ->
  forall kwargs,
    Task___init__ ty uuid defn kwargs =
      match Task_set kwargs t0 with
      | (Ok _, t) => Ok t
      | (Raise e, _) => Raise e
      end.
Proof.
  intros H kwargs.
  destruct (Task_init_stages _ _ _ _ _ H) as (t1 & t2 & H1 & H2 & H3).
  cbv zeta in *. injection H3 as <-.
  unfold Task___init__. cbv zeta.
  unfold bind at 1. rewrite H1.
  unfold bind at 1. rewrite H2.
  unfold bind at 1. unfold modify at 1. unfold bind at 1. unfold modify at 1.
  reflexivity.
Qed.

(** C5, as the code has it.  The setter takes [int(value)].  A number
    whose integer part is not strictly between 0 and 172800, so 0, 172800
    and every negative number but minus infinity, raises [ValueError]
    with the message of the source and leaves the task as it was; a
    number whose integer part is, so 172799, stores that integer; an
    infinity raises the [OverflowError] of [int()] and [nan] its
    [ValueError], and the task stays as it was.  The keyword arguments
    of the constructor are input port values: whatever they are, the
    timeout of a constructed task is the registry's
    [properties.timeout].  For a definition with ordinary port names,
    [Task("x", timeout=z)] writes [z] to the input port name [timeout]
    of the task that the definition alone builds: it succeeds, with [z]
    on an input port of that name, when that task has such a port or a
    multiplex port whose name is a proper prefix of it, and raises the
    [AttributeError] of an unknown input port otherwise. *)
Theorem timeout_range_and_default :
  (forall t v i, int v = Ok i -> (i <= 0 \/ 172800 <= i)%Z ->
     timeout_setter v t =
       (Raise (ValueError ("timeout of " +:+ str v +:+ " is not a valid number")), t)) /\
  (forall v, v = NInt 0 \/ v = NInt 172800 \/ negative v = true ->
     exists i, int v = Ok i /\ (i <= 0 \/ 172800 <= i)%Z) /\
  (forall t v i, int v = Ok i -> (0 < i < 172800)%Z ->
     timeout_setter v t = (Ok tt, set_timeout (VInt i) t) /\
     timeout (set_timeout (VInt i) t) = VInt i) /\
  (forall t v e, int v = Raise e -> timeout_setter v t = (Raise e, t)) /\
  (forall s repr,
     int (NFloat (S754_infinity s) repr) =
       Raise (OverflowError "cannot convert float infinity to integer")) /\
  (forall ty uuid defn kwargs t,
     Task___init__ ty uuid defn kwargs = Ok t ->
     timeout t = properties_timeout defn) /\
  (forall ty uuid defn t0 z,
     ordinary_definition defn ->
     Task___init__ ty uuid defn [] = Ok t0 ->
     ((In "timeout" (portnames (inputs t0)) \/
       exists p mp, is_template (inputs t0) "timeout" p mp) ->
      exists t,
        Task___init__ ty uuid defn [("timeout", VInt z)] = Ok t /\
        is_value_of (inputs t) "timeout" (VInt z) /\
        timeout t = properties_timeout defn) /\
     (~ In "timeout" (portnames (inputs t0)) ->
      (forall p mp, ~ is_template (inputs t0) "timeout" p mp) ->
      Task___init__ ty uuid defn [("timeout", VInt z)] =
        Raise (AttributeError (Some "Task has no input port named timeout.")))).
Proof.
  split; [|split; [|split; [|split; [|split; [|split]]]]].
  - intros t v i Hi Hr. unfold timeout_setter. rewrite Hi.
    destruct (0 <? i)%Z eqn:E1; destruct (i <? 172800)%Z eqn:E2; simpl;
      try reflexivity.
    apply Z.ltb_lt in E1. apply Z.ltb_lt in E2. lia.
  - intros v [->|[->|H]].
    + exists 0%Z. split; [reflexivity|lia].
    + exists 172800%Z. split; [reflexivity|lia].
    + destruct (negative_int v H) as (i & Hi & Hle). exists i. split; [exact Hi|lia].
  - intros t v i Hi [H1 H2]. unfold timeout_setter. rewrite Hi.
    apply Z.ltb_lt in H1. apply Z.ltb_lt in H2. rewrite H1, H2. simpl.
    split; reflexivity.
  - intros t v e He. unfold timeout_setter. rewrite He. reflexivity.
  - reflexivity.
  - intros ty uuid defn kwargs t H. apply (Task_init_timeout _ _ _ _ _ H).
  - intros ty uuid defn t0 z Hd H0.
    destruct (Task_init_ok _ _ _ _ _ Hd (List.Forall_nil _) H0) as [[Hi _] _].
    pose proof (Task_init_keywords _ _ _ _ H0 [("timeout", VInt z)]) as Hkw.
    assert (Hk : ordinary_input "timeout") by (split; discriminate).
    assert (Hset : Task_set [("timeout", VInt z)] t0 =
                   match Inputs___setattr__ "timeout" (VInt z) t0 with
                   | (Ok _, t) => (Ok tt, t)
                   | (Raise e, t) => (Raise e, t)
                   end).
    { unfold Task_set. simpl. unfold bind, ret.
      destruct (Inputs___setattr__ "timeout" (VInt z) t0) as [[[]|e] t]; reflexivity. }
    rewrite Hset in Hkw. clear Hset.
    split.
    + intros Hcase.
      assert (Hw : exists t, Inputs___setattr__ "timeout" (VInt z) t0 = (Ok tt, t) /\
                             is_value_of (inputs t) "timeout" (VInt z)).
      { destruct (in_dec string_dec "timeout" (portnames (inputs t0))) as [Hin|Hnin].
        - pose proof Hi as (Ht & Hn & Hp). destruct (Hp _ Hin) as (port & Hport).
          destruct (Inputs_setattr_declared t0 "timeout" (VInt z) port Ht Hn Hin Hport)
            as (t & Hrun & Hinp & _).
          exists t. split; [exact Hrun|]. eexists. split.
          + rewrite Hinp. apply lookup_insert_eq.
          + reflexivity.
        - destruct Hcase as [Hin|Htpl]; [destruct (Hnin Hin)|].
          destruct (Inputs_setattr_template t0 "timeout" (VInt z) Hi Hk Hnin Htpl)
            as (p & mp & t & _ & Hrun & Hinp & _).
          exists t. split; [exact Hrun|]. eexists. split.
          + rewrite Hinp. rewrite lookup_insert_ne by discriminate.
            apply lookup_insert_eq.
          + reflexivity. }
      destruct Hw as (t & Hrun & Hval). rewrite Hrun in Hkw.
      exists t. split; [exact Hkw|]. split; [exact Hval|].
      apply (Task_init_timeout _ _ _ _ _ Hkw).
    + intros Hnin Hnone.
      rewrite (Inputs_setattr_unknown t0 "timeout" (VInt z) Hi Hk Hnin Hnone) in Hkw.
      exact Hkw.
Qed.

Lemma timeout_range_and_default_witness :
  fst (timeout_setter (NInt 0) Sample.aop_task) =
    Raise (ValueError "timeout of 0 is not a valid number") /\
  fst (timeout_setter (NInt 172800) Sample.aop_task) =
    Raise (ValueError "timeout of 172800 is not a valid number") /\
  timeout_setter (NFloat (S754_finite true 1 (-1)) "-0.5") Sample.aop_task =
    (Raise (ValueError "timeout of -0.5 is not a valid number"), Sample.aop_task) /\
  timeout (snd (timeout_setter (NInt 172799) Sample.aop_task)) = VInt 172799 /\
  timeout Sample.aop_task = VInt 36000 /\
  (exists t,
     Task___init__ "x" "0a1b2c3d" Sample.timer [("timeout", VInt 100)] = Ok t /\
     is_value_of (inputs t) "timeout" (VInt 100) /\ timeout t = VInt 7200).
Proof.
  destruct timeout_range_and_default as (Hbad & Hneg & Hgood & _ & _ & Hinit & Hkey).
  split; [|split; [|split; [|split; [|split]]]].
  - rewrite (Hbad Sample.aop_task (NInt 0) 0%Z eq_refl) by lia. reflexivity.
  - rewrite (Hbad Sample.aop_task (NInt 172800) 172800%Z eq_refl) by lia. reflexivity.
  - destruct (Hneg (NFloat (S754_finite true 1 (-1)) "-0.5")) as (i & Hi & Hr).
    + right. right. reflexivity.
    + apply (Hbad Sample.aop_task _ i Hi Hr).
  - destruct (Hgood Sample.aop_task (NInt 172799) 172799%Z eq_refl) as [-> H]; [lia|].
    exact H.
  - apply (Hinit "AOP_Strip_Processor" "0a1b2c3d" Sample.aop
                 [("data", VStr "s3://bucket/in")]).
    vm_compute. reflexivity.
  - destruct (Hkey "x" "0a1b2c3d" Sample.timer
                (Sample.built (Task___init__ "x" "0a1b2c3d" Sample.timer [])) 100%Z)
      as [Hyes _].
    + split; repeat constructor; discriminate.
    + vm_compute. reflexivity.
    + destruct Hyes as (t & Ht & Hv & Hto).
      * right. exists "time". eexists. split; [vm_compute; left; reflexivity|].
        split; [vm_compute; reflexivity|]. split; [reflexivity|].
        split; [reflexivity|discriminate].
      * exists t. split; [exact Ht|]. split; [exact Hv|exact Hto].
Defined.
